(** * MCPConsole: connection and authentication coordination layer

  A shallow embedding of the TypeScript sources that implement the
  OAuth state codec, scope resolution, the token vault, OAuth discovery,
  the connection registry and the coordinator, followed by the theorems
  that settle the properties stated about them.

  Conventions of the embedding:
  - a JavaScript string is a [string] (a sequence of code units below 256);
  - a JavaScript number that holds a time stamp, a status code or a
    duration is a [Z];
  - an optional property ([x?: T], or a property of a parsed JSON
    document) is an [option];
  - [Map<string, V>] is a [gmap string V];
  - a call that may throw returns a [Result];
  - everything outside the process (HTTP servers, the MCP SDK client, the
    clock, the JSON and URL parsers of the runtime) is a field of a
    [World] record, and every interaction with it is appended to a trace
    of [Event]s together with the answer that was received. *)

From Stdlib Require Import ZArith NArith String Ascii List Lia DecimalString.
From Stdlib.Strings Require Import Byte.
From stdpp Require Import gmap strings list.

Open Scope list_scope.
Open Scope Z_scope.

(** ** JavaScript helpers *)

Module Js.

(** [o] used as a condition: [undefined] and [""] are falsy. *)
Definition truthy (o : option string) : bool :=
  match o with
  | Some s => negb (String.eqb s "")
  | None => false
  end.

(** [a || b] on optional strings. *)
Definition or_else (a b : option string) : option string :=
  if truthy a then a else b.

(** [a || d] with a string default. *)
Definition or_default (a : option string) (d : string) : string :=
  match a with
  | Some s => if String.eqb s "" then d else s
  | None => d
  end.

(** [hay.includes(needle)]. *)
Fixpoint includes (hay needle : string) : bool :=
  String.prefix needle hay ||
  match hay with
  | EmptyString => false
  | String _ rest => includes rest needle
  end.

(** [s.replace(/c/g, r)] for a one-character pattern [c]. *)
Fixpoint replace_all (c : ascii) (r : string) (s : string) : string :=
  match s with
  | EmptyString => EmptyString
  | String x rest =>
      if Ascii.eqb x c then r +:+ replace_all c r rest
      else String x (replace_all c r rest)
  end.

(** The members of the regular-expression class [\s] below 256. *)
Definition is_space (c : ascii) : bool :=
  let n := N_of_ascii c in
  (N.eqb n 9 || N.eqb n 10 || N.eqb n 11 || N.eqb n 12 || N.eqb n 13
   || N.eqb n 32 || N.eqb n 160)%bool.

(** [s.split(/\s+/)]: the pieces between maximal runs of white space; a
    leading or trailing run leaves an empty piece, and the empty string
    splits into one empty piece.  [in_sep] tells that the scan is inside
    a separator run, [piece] is the piece being collected. *)
Fixpoint split_go (in_sep : bool) (piece : string) (s : string) : list string :=
  match s with
  | EmptyString => [piece]
  | String c rest =>
      if is_space c then
        if in_sep then split_go true piece rest
        else piece :: split_go true EmptyString rest
      else split_go false (piece +:+ String c EmptyString) rest
  end.

Definition split_ws (s : string) : list string := split_go false EmptyString s.

(** [.filter(Boolean)] on an array of strings. *)
Definition filter_Boolean (l : list string) : list string :=
  List.filter (fun x => negb (String.eqb x "")) l.

(** [join(" ")]. *)
Definition join_space (l : list string) : string := String.concat " " l.

(** A number inside a template literal. *)
Definition number_text (z : Z) : string := NilZero.string_of_int (Z.to_int z).

(** An [Error] object; [connectUrl] is the extra property the token vault
    attaches, [cause_code] is [error.cause.code] of a failed [fetch]. *)
Record Error := mkError {
  message : string;
  connectUrl : option string;
  cause_code : option string;
}.

Definition new_Error (msg : string) : Error :=
  {| message := msg; connectUrl := None; cause_code := None |}.

(** The completion of a call: a value, or a thrown error. *)
Inductive Result (A : Type) : Type :=
| Ok (a : A)
| Throw (e : Error).
Arguments Ok {A} a.
Arguments Throw {A} e.

End Js.

(** ** Base64, as [Buffer.toString('base64')] and [Buffer.from(s, 'base64')]

  The codec belongs to the runtime, not to the repository; it is written
  out after RFC 4648 so that the envelope layout can be computed with.  The
  decoder is lenient the way the runtime's is: characters outside the
  alphabet are skipped, both the standard and the URL-safe digits are
  accepted, and decoding stops at the first padding character. *)

Module Base64.

Definition alphabet : string :=
  "ABCDEFGHIJKLMNOPQRSTUVWXYZabcdefghijklmnopqrstuvwxyz0123456789+/".

Definition char_of_sextet (n : N) : ascii :=
  match String.get (N.to_nat n) alphabet with
  | Some c => c
  | None => "A"%char
  end.

Definition sextet_of_char (c : ascii) : option N :=
  let n := N_of_ascii c in
  if ((65 <=? n) && (n <=? 90))%N then Some (n - 65)%N
  else if ((97 <=? n) && (n <=? 122))%N then Some (n - 71)%N
  else if ((48 <=? n) && (n <=? 57))%N then Some (n + 4)%N
  else if ((n =? 43) || (n =? 45))%N then Some 62%N
  else if ((n =? 47) || (n =? 95))%N then Some 63%N
  else None.

(** The byte with value [n] (zero when [n] is out of range). *)
Definition nbyte (n : N) : byte :=
  match Byte.of_N n with
  | Some b => b
  | None => x00
  end.

Fixpoint toString_base64 (buf : list byte) : string :=
  match buf with
  | [] => ""
  | [b0] =>
      let n0 := Byte.to_N b0 in
      String (char_of_sextet (n0 / 4))
        (String (char_of_sextet ((n0 mod 4) * 16)) "==")
  | [b0; b1] =>
      let n0 := Byte.to_N b0 in
      let n1 := Byte.to_N b1 in
      String (char_of_sextet (n0 / 4))
        (String (char_of_sextet ((n0 mod 4) * 16 + n1 / 16))
           (String (char_of_sextet ((n1 mod 16) * 4)) "="))
  | b0 :: b1 :: b2 :: rest =>
      let n0 := Byte.to_N b0 in
      let n1 := Byte.to_N b1 in
      let n2 := Byte.to_N b2 in
      String (char_of_sextet (n0 / 4))
        (String (char_of_sextet ((n0 mod 4) * 16 + n1 / 16))
           (String (char_of_sextet ((n1 mod 16) * 4 + n2 / 64))
              (String (char_of_sextet (n2 mod 64))
                 (toString_base64 rest))))
  end%N.

(** The digits of [s] up to the first ['=']. *)
Fixpoint sextets (s : string) : list N :=
  match s with
  | EmptyString => []
  | String c rest =>
      if Ascii.eqb c "=" then []
      else match sextet_of_char c with
           | Some n => n :: sextets rest
           | None => sextets rest
           end
  end.

Fixpoint bytes_of_sextets (l : list N) : list byte :=
  match l with
  | s0 :: s1 :: s2 :: s3 :: rest =>
      nbyte (s0 * 4 + s1 / 16)
      :: nbyte ((s1 mod 16) * 16 + s2 / 4)
      :: nbyte ((s2 mod 4) * 64 + s3)
      :: bytes_of_sextets rest
  | [s0; s1; s2] =>
      [nbyte (s0 * 4 + s1 / 16); nbyte ((s1 mod 16) * 16 + s2 / 4)]
  | [s0; s1] => [nbyte (s0 * 4 + s1 / 16)]
  | _ => []
  end%N.

Definition from_base64 (s : string) : list byte :=
  bytes_of_sextets (sextets s).

End Base64.

(** ** The PKCE state codec (lib/oauth-pkce) *)

Module StateCodec.
Import Js Base64.

Record PKCEStateData := mkPKCEStateData {
  verifier : string;
  serverId : string;
  nonce : string;
  createdAt : Z;
}.

(** [buffer.toString('base64').replace(/\+/g,'-').replace(/\//g,'_').replace(/=/g,'')] *)
Definition base64URLEncode (buffer : list byte) : string :=
  replace_all "=" "" (replace_all "/" "_" (replace_all "+" "-" (toString_base64 buffer))).

(** [while (padded.length % 4) padded += '=']; the loop appends at most
    three characters, which is the fuel it gets here. *)
Fixpoint pad_loop (fuel : nat) (padded : string) : string :=
  match fuel with
  | O => padded
  | S fuel' =>
      if Nat.eqb (String.length padded mod 4) 0 then padded
      else pad_loop fuel' (padded +:+ "=")
  end.

Definition base64URLDecode (str : string) : list byte :=
  let padded := replace_all "_" "/" (replace_all "-" "+" str) in
  from_base64 (pad_loop 3 padded).

(** [buf.subarray(start, end)] and [buf.subarray(start)]; both clamp. *)
Definition subarray (start stop : nat) (buf : list byte) : list byte :=
  firstn (stop - start) (skipn start buf).

Definition subarray_from (start : nat) (buf : list byte) : list byte :=
  skipn start buf.

Definition TEN_MINUTES : Z := 10 * 60 * 1000.

(** What [base64URLDecode] reads in a text that went through the three
    substitutions of [base64URLEncode]. *)
Definition url_view (s : string) : list N :=
  sextets
    (replace_all "_" "/" (replace_all "-" "+"
       (replace_all "=" "" (replace_all "/" "_" (replace_all "+" "-" s))))).

Section Codec.

(** The runtime's cryptography and serialisation.  [key] is
    [getEncryptionKey()], the SHA-256 digest of the configured secret.
    [aes_256_gcm_encrypt key iv plaintext] is what a cipher created by
    [createCipheriv('aes-256-gcm', key, iv)] produces: the ciphertext and
    the authentication tag.  [aes_256_gcm_decrypt key iv authTag data] is
    [None] when [createDecipheriv], [setAuthTag], [update] or [final]
    throws, in particular when the tag does not verify.  [utf8_encode] and
    [utf8_decode] are the ['utf8'] conversions of [Buffer]. *)
Variable key : list byte.
Variable aes_256_gcm_encrypt : list byte -> list byte -> list byte -> list byte * list byte.
Variable aes_256_gcm_decrypt : list byte -> list byte -> list byte -> list byte -> option (list byte).
Variable JSON_stringify : PKCEStateData -> string.
Variable JSON_parse : string -> option PKCEStateData.
Variable utf8_encode : string -> list byte.
Variable utf8_decode : list byte -> string.

(** [generateNonce()], from the sixteen bytes of [crypto.randomBytes(16)]. *)
Definition generateNonce (random16 : list byte) : string :=
  base64URLEncode random16.

(** [encodeState(data)].  The two draws of [crypto.randomBytes(16)] and the
    reading of [Date.now()] are arguments.  In GCM mode [cipher.final]
    emits no bytes, so [encrypted] is the Base64 text of the ciphertext
    followed by the Base64 text of the empty buffer. *)
Definition encodeState (random_nonce random_iv : list byte) (now : Z)
    (data_verifier data_serverId : string) : string :=
  let fullData :=
    {| verifier := data_verifier;
       serverId := data_serverId;
       nonce := generateNonce random_nonce;
       createdAt := now |} in
  let json := JSON_stringify fullData in
  let iv := random_iv in
  let '(ciphertext, authTag) := aes_256_gcm_encrypt key iv (utf8_encode json) in
  let encrypted := toString_base64 ciphertext +:+ toString_base64 [] in
  let combined := iv ++ authTag ++ from_base64 encrypted in
  base64URLEncode combined.

(** The body of the [try] block of [decodeState]. *)
Definition decodeState_try (now : Z) (state : string) : Result (option PKCEStateData) :=
  let combined := base64URLDecode state in
  let iv := subarray 0 16 combined in
  let authTag := subarray 16 32 combined in
  let encryptedData := subarray_from 32 combined in
  match aes_256_gcm_decrypt key iv authTag encryptedData with
  | None => Throw (new_Error "Unsupported state or unable to authenticate data")
  | Some decrypted =>
      match JSON_parse (utf8_decode decrypted) with
      | None => Throw (new_Error "Unexpected token in JSON")
      | Some data =>
          if now - createdAt data >? TEN_MINUTES then Ok None
          else Ok (Some data)
      end
  end.

(** [decodeState(state)]: the [catch] clause turns every error into [null]. *)
Definition decodeState (now : Z) (state : string) : Result (option PKCEStateData) :=
  match decodeState_try now state with
  | Ok r => Ok r
  | Throw _ => Ok None
  end.

End Codec.

(** A toy runtime on which the hypotheses of the round trip hold: the cipher
    leaves the text in clear and uses the first sixteen bytes of the key as
    its tag, the serialiser knows one document. *)
Definition toy_key : list byte := repeat x2a 16.

Definition toy_encrypt (k iv plaintext : list byte) : list byte * list byte :=
  (plaintext, firstn 16 k).

Definition toy_decrypt (k iv authTag data : list byte) : option (list byte) :=
  if forallb (fun p => Byte.eqb (fst p) (snd p)) (combine authTag (firstn 16 k))
     && Nat.eqb (length authTag) 16
  then Some data else None.

Definition toy_document : PKCEStateData :=
  {| verifier := "v"; serverId := "s"; nonce := generateNonce [x01; x02];
     createdAt := 1000 |}.

Definition toy_stringify (d : PKCEStateData) : string :=
  verifier d +:+ "," +:+ serverId d.

Definition toy_parse (s : string) : option PKCEStateData :=
  if String.eqb s "v,s" then Some toy_document else None.

(** [generateCodeVerifier()], from the thirty-two bytes of
    [crypto.randomBytes(32)]. *)
Definition generateCodeVerifier (random32 : list byte) : string :=
  base64URLEncode random32.

Section Challenge.

(** [sha256(buffer)]: [crypto.createHash('sha256').update(buffer).digest()]. *)
Variable sha256 : string -> list byte.

(** [generateCodeChallenge(verifier)] *)
Definition generateCodeChallenge (verifier : string) : string :=
  base64URLEncode (sha256 verifier).

End Challenge.

(** The letters, the digits, [-] and [_]: the characters of the URL-safe
    Base64 alphabet, none of which is escaped in a URL. *)
Definition url_safe (c : ascii) : bool :=
  let n := N_of_ascii c in
  (((65 <=? n) && (n <=? 90)) || ((97 <=? n) && (n <=? 122))
   || ((48 <=? n) && (n <=? 57)) || (n =? 45) || (n =? 95))%N.

(** The three substitutions of [base64URLEncode]. *)
Definition url_text (s : string) : string :=
  replace_all "=" "" (replace_all "/" "_" (replace_all "+" "-" s)).

End StateCodec.

(** ** The environment configuration (shared/config/env.ts) *)

Module Env.
Import Js.

(** The variables of [process.env] that [validateEnv] reads. *)
Record ProcessEnv := mkProcessEnv {
  NODE_ENV : option string;
  NEXT_PUBLIC_APP_URL : option string;
  VERCEL_URL : option string;
  OPENAI_API_KEY : option string;
  GOOGLE_API_KEY : option string;
  ANTHROPIC_API_KEY : option string;
}.

Record EnvironmentConfig := mkEnvironmentConfig {
  nodeEnv : string;
  appUrl : string;
  vercelUrl : option string;
  openaiApiKey : option string;
  googleApiKey : option string;
  anthropicApiKey : option string;
}.

(** [s.replace(/\/$/, '')] *)
Fixpoint strip_trailing_slash (s : string) : string :=
  match s with
  | EmptyString => EmptyString
  | String c EmptyString => if Ascii.eqb c "/" then EmptyString else s
  | String c rest => String c (strip_trailing_slash rest)
  end.

Definition invalid_node_env (nodeEnv : string) : Error :=
  new_Error ("Invalid NODE_ENV: " +:+ nodeEnv
             +:+ ". Must be one of: development, production, test").

Definition missing_app_url : Error :=
  new_Error "NEXT_PUBLIC_APP_URL or VERCEL_URL is required in production environment".

(** [validateEnv()] *)
Definition validateEnv (env : ProcessEnv) : Result EnvironmentConfig :=
  let nodeEnv := or_default (NODE_ENV env) "development" in
  if negb (existsb (String.eqb nodeEnv) ["development"; "production"; "test"]) then
    Throw (invalid_node_env nodeEnv)
  else
    let vercelUrl := VERCEL_URL env in
    let appUrl := NEXT_PUBLIC_APP_URL env in
    let appUrl :=
      if negb (truthy appUrl) && truthy vercelUrl then
        let v := default "" vercelUrl in
        Some (if String.prefix "http" v then v else "https://" +:+ v)
      else appUrl in
    let appUrl :=
      if negb (truthy appUrl) then "http://localhost:9002" else default "" appUrl in
    let appUrl := strip_trailing_slash appUrl in
    if String.eqb nodeEnv "production"
       && negb (truthy (NEXT_PUBLIC_APP_URL env)) && negb (truthy vercelUrl)
    then Throw missing_app_url
    else
      Ok {| nodeEnv := nodeEnv;
            appUrl := appUrl;
            vercelUrl := vercelUrl;
            openaiApiKey := OPENAI_API_KEY env;
            googleApiKey := GOOGLE_API_KEY env;
            anthropicApiKey := ANTHROPIC_API_KEY env |}.

(** [getEnvConfig()]; the second component is [cachedConfig] after the
    call. *)
Definition getEnvConfig (env : ProcessEnv) (cachedConfig : option EnvironmentConfig)
    : Result EnvironmentConfig * option EnvironmentConfig :=
  match cachedConfig with
  | Some config => (Ok config, cachedConfig)
  | None =>
      match validateEnv env with
      | Ok config => (Ok config, Some config)
      | Throw e => (Throw e, None)
      end
  end.

(** [resetEnvConfig()] *)
Definition resetEnvConfig (cachedConfig : option EnvironmentConfig)
    : option EnvironmentConfig := None.

(** [getRedirectUri()] of the handler and of the manager, on a
    configuration. *)
Definition redirect_uri (config : EnvironmentConfig) : string :=
  appUrl config +:+ "/api/mcp/oauth-callback".

(** An environment in which only the three variables read for the
    application URL may be set. *)
Definition env_of (node_env app_url vercel_url : option string) : ProcessEnv :=
  mkProcessEnv node_env app_url vercel_url None None None.

End Env.

(** ** Scope resolution ([resolveScopes] of OAuthHandler and McpManager)

    The two classes carry the same method, character for character up to
    layout; one embedding serves both. *)

Module Scopes.
Import Js.

(** [userScope?: string | string[]] *)
Inductive UserScope :=
| ScopeString (s : string)
| ScopeArray (a : list string).

Record ScopeInput := mkScopeInput {
  userScope : option UserScope;
  headerScope : option string;
  prmScopes : option (list string);
  asmScopes : option (list string);
  registrationScopes : option (list string);
}.

(** [if (userScope)]: a non-empty string, or any array. *)
Definition user_truthy (u : option UserScope) : bool :=
  match u with
  | Some (ScopeString s) => negb (String.eqb s "")
  | Some (ScopeArray _) => true
  | None => false
  end.

(** [if (arr?.length)] *)
Definition has_length (o : option (list string)) : bool :=
  match o with
  | Some (_ :: _) => true
  | _ => false
  end.

(** [s.split(/\s+/).filter(Boolean)] *)
Definition words (s : string) : list string := filter_Boolean (split_ws s).

Definition fallback_scopes : list string := ["openid"; "email"; "profile"].

Definition resolveScopes (input : ScopeInput) : list string :=
  if user_truthy (userScope input) then
    match userScope input with
    | Some (ScopeArray a) => a
    | Some (ScopeString s) => words s
    | None => []
    end
  else if truthy (headerScope input) then
    words (default "" (headerScope input))
  else if has_length (prmScopes input) then
    default [] (prmScopes input)
  else if has_length (registrationScopes input) then
    default [] (registrationScopes input)
  else if has_length (asmScopes input) then
    default [] (asmScopes input)
  else fallback_scopes.

(** The reading of the specification: every source denotes a list of
    scopes, and the first source whose list is not empty is returned. *)
Definition scopes_of_user (u : option UserScope) : list string :=
  match u with
  | Some (ScopeArray a) => a
  | Some (ScopeString s) => words s
  | None => []
  end.

Definition scopes_of_header (h : option string) : list string :=
  match h with
  | Some s => words s
  | None => []
  end.

Fixpoint first_nonempty (sources : list (list string)) (fallback : list string)
    : list string :=
  match sources with
  | [] => fallback
  | [] :: rest => first_nonempty rest fallback
  | (x :: l) :: _ => x :: l
  end.

Definition first_nonempty_source (input : ScopeInput) : list string :=
  first_nonempty
    [ scopes_of_user (userScope input);
      scopes_of_header (headerScope input);
      default [] (prmScopes input);
      default [] (registrationScopes input);
      default [] (asmScopes input) ]
    fallback_scopes.

End Scopes.

(** ** The world outside the process, and computations that talk to it *)

Module Runtime.
Import Js.

(** *** HTTP *)

Inductive Method := GET | POST.

(** The request bodies the sources build: none, the text of a
    [URLSearchParams], and the JSON text of the dynamic-registration
    request (whose other members are constants). *)
Inductive Body :=
| NoBody
| FormBody (params : list (string * string))
| RegistrationBody (redirect_uri : string) (scope : string).

Record Request := mkRequest {
  req_url : string;
  req_method : Method;
  req_headers : gmap string string;
  req_body : Body;
}.

(** A member that holds a string or an array of strings. *)
Inductive StringOrArray :=
| OneString (s : string)
| ManyStrings (a : list string).

(** The members that the sources read in a parsed JSON document
    (protected-resource metadata, authorization-server metadata, a
    registration response, a token response).  A member that is absent is
    [None]; members are assumed to have the JSON type the sources expect. *)
Module Json.
Record Doc := mkDoc {
  authorization_server : option string;
  authorization_servers : option StringOrArray;
  scopes_supported : option (list string);
  token_endpoint : option string;
  authorization_endpoint : option string;
  registration_endpoint : option string;
  client_id : option string;
  client_secret : option string;
  scope : option string;
  access_token : option string;
  token_type : option string;
  expires_in : option Z;
  refresh_token : option string;
}.

Definition empty : Doc :=
  mkDoc None None None None None None None None None None None None None.

(** The object literal of a token set. *)
Definition token_set (access type : option string) (expires : option Z)
    (refresh scope : option string) : Doc :=
  mkDoc None None None None None None None None scope access type expires refresh.
End Json.

(** [await response.json()]: the body is not JSON, is [null], or is read as
    a document. *)
Inductive JsonRead :=
| JsonThrows (e : Error)
| JsonNull
| JsonObject (d : Json.Doc).

Record Response := mkResponse {
  status : Z;
  www_authenticate : option string;
  text : string;
  json : JsonRead;
}.

(** [response.ok] *)
Definition ok (r : Response) : bool := (200 <=? status r) && (status r <=? 299).

Inductive FetchOutcome :=
| FetchResponse (r : Response)
| FetchThrows (e : Error).

(** *** Servers, transports and clients *)

Module OAuth2Config.
Record t := mk {
  clientId : option string;
  clientSecret : option string;
  tokenUrl : option string;
  authUrl : option string;
  registrationUrl : option string;
  scope : option string;
  scopes : option (list string);
  autoDiscover : bool;
}.
Definition empty : t := mk None None None None None None None false.
End OAuth2Config.

(** [JSON.parse(server.config)] *)
Module ServerConfig.
Record t := mk {
  url : option string;
  headers : option (gmap string string);
  oauth2 : option OAuth2Config.t;
}.
Definition empty : t := mk None None None.
End ServerConfig.

Record MCPServer := mkServer {
  id : string;
  name : string;
  type : string;
  config : string;
}.

Inductive TransportKind :=
| SSEClientTransport
| StreamableHTTPClientTransport
| StatelessHTTPClientTransport.

Record Transport := mkTransport {
  kind : TransportKind;
  transport_url : string;
  transport_headers : gmap string string;
}.

(** A [Client] object of the MCP SDK, known by the transport it is given. *)
Record Client := mkClient { client_transport : Transport }.

(** [client.callTool] resolves to an object whose members are unchecked. *)
Record RawToolResult := mkRaw {
  raw_content : option (list string);
  raw_isError : option bool;
}.

Record URL := mkURL { origin : string; pathname : string }.

(** [JSON.parse(text)] on the configuration text of a server: the parser
    throws, the text is [null], or a value is read, whose members are
    those of a configuration. *)
Inductive ConfigParse :=
| ParseThrows
| ParseNull
| ParseValue (config : ServerConfig.t).

(** *** Events and the world *)

Inductive Event :=
| EvFetch (req : Request) (outcome : FetchOutcome)
| EvClientConnect (t : Transport) (failure : option Error)
| EvClientClose (c : Client) (failure : option Error)
| EvCallTool (c : Client) (toolName args : string) (outcome : Result RawToolResult).

(** Every answer of the world may depend on all that happened before. *)
Record World := mkWorld {
  fetch : list Event -> Request -> FetchOutcome;
  client_connect : list Event -> Transport -> option Error;
  client_close : list Event -> Client -> option Error;
  client_callTool : list Event -> Client -> string -> string -> Result RawToolResult;
  Date_now : list Event -> Z;
  (** [new URL(s)]; [None] when the constructor throws. *)
  new_URL : string -> option URL;
  (** [JSON.parse] and [JSON.stringify] on a server configuration. *)
  JSON_parse_config : string -> ConfigParse;
  JSON_stringify_config : ServerConfig.t -> string;
  encodeURIComponent : string -> string;
  (** [process.env], which does not change during a run. *)
  process_env : Env.ProcessEnv;
}.

(** *** The state of the coordinator *)

Inductive ConnectionStatus :=
| connecting | connected | error | disconnected | auth_required.

Record MCPConnection := mkConnection {
  client : option Client;
  server : MCPServer;
  conn_status : ConnectionStatus;
  conn_error : option string;
  conn_connectUrl : option string;
}.

Record OAuth2Token := mkToken {
  access_token : option string;
  token_type : string;
  expires_in : Z;
  expires_at : Z;
  refresh_token : option string;
}.

(** [connections] is the map of the connection manager, [oauth2Tokens] the
    map of the OAuth handler, [trace] what was exchanged with the world. *)
Record State := mkState {
  connections : gmap string MCPConnection;
  oauth2Tokens : gmap string OAuth2Token;
  trace : list Event;
}.

Definition initial : State := mkState ∅ ∅ [].

(** *** Computations *)

Definition M (A : Type) : Type := State -> Result A * State.

Definition ret {A} (a : A) : M A := fun s => (Ok a, s).

Definition throw {A} (e : Error) : M A := fun s => (Throw e, s).

Definition bind {A B} (m : M A) (k : A -> M B) : M B :=
  fun s =>
    match m s with
    | (Ok a, s') => k a s'
    | (Throw e, s') => (Throw e, s')
    end.

(** [try { m } catch (e) { handler e }] *)
Definition try_catch {A} (m : M A) (handler : Error -> M A) : M A :=
  fun s =>
    match m s with
    | (Ok a, s') => (Ok a, s')
    | (Throw e, s') => handler e s'
    end.

(** Run [m] and hand its completion over as a value. *)
Definition attempt {A} (m : M A) : M (Result A) :=
  fun s => let '(r, s') := m s in (Ok r, s').

Definition log (ev : Event) : M unit :=
  fun s => (Ok tt, mkState (connections s) (oauth2Tokens s) (trace s ++ [ev])).

Definition get_trace : M (list Event) := fun s => (Ok (trace s), s).

Definition get_connections : M (gmap string MCPConnection) :=
  fun s => (Ok (connections s), s).

Definition put_connections (c : gmap string MCPConnection) : M unit :=
  fun s => (Ok tt, mkState c (oauth2Tokens s) (trace s)).

Definition get_tokens : M (gmap string OAuth2Token) :=
  fun s => (Ok (oauth2Tokens s), s).

Definition put_tokens (t : gmap string OAuth2Token) : M unit :=
  fun s => (Ok tt, mkState (connections s) t (trace s)).

Declare Scope comp_scope.
Delimit Scope comp_scope with comp.
Bind Scope comp_scope with M.
Notation "x <- m ;; k" := (bind m (fun x => k))
  (at level 100, m at next level, right associativity) : comp_scope.
Notation "m ;; k" := (bind m (fun _ => k))
  (at level 100, right associativity) : comp_scope.
Open Scope comp_scope.

Section Primitives.
Variable w : World.

(** [await fetch(url, init)] *)
Definition do_fetch (req : Request) : M Response :=
  t <- get_trace ;;
  let outcome := fetch w t req in
  log (EvFetch req outcome) ;;
  match outcome with
  | FetchResponse r => ret r
  | FetchThrows e => throw e
  end.

(** [await response.json()] *)
Definition read_json (r : Response) : M (option Json.Doc) :=
  match json r with
  | JsonThrows e => throw e
  | JsonNull => ret None
  | JsonObject d => ret (Some d)
  end.

(** [getEnvConfig()]: the cached configuration or else the validation of
    the environment, whose error is thrown.  No module of the application
    assigns a variable of [process.env] or calls [resetEnvConfig], so the
    environment is the same during a run and a cached configuration is the
    one that the validation gives: every call completes as the validation
    does. *)
Definition getEnvConfig : M Env.EnvironmentConfig :=
  match fst (Env.getEnvConfig (process_env w) None) with
  | Ok envConfig => ret envConfig
  | Throw e => throw e
  end.

(** [Date.now()] *)
Definition now : M Z := t <- get_trace ;; ret (Date_now w t).

(** [new URL(s)] *)
Definition construct_URL (s : option string) : M URL :=
  match s with
  | Some s =>
      match new_URL w s with
      | Some u => ret u
      | None => throw (new_Error "Invalid URL")
      end
  | None => throw (new_Error "Invalid URL")
  end.

(** [new URL(path, base).toString()] for an absolute [path]. *)
Definition resolve_URL (path base : string) : M string :=
  u <- construct_URL (Some base) ;; ret (origin u +:+ path).

(** [await client.connect(transport)] *)
Definition do_client_connect (t : Transport) : M unit :=
  tr <- get_trace ;;
  let failure := client_connect w tr t in
  log (EvClientConnect t failure) ;;
  match failure with
  | None => ret tt
  | Some e => throw e
  end.

(** [await client.close()] *)
Definition do_client_close (c : Client) : M unit :=
  tr <- get_trace ;;
  let failure := client_close w tr c in
  log (EvClientClose c failure) ;;
  match failure with
  | None => ret tt
  | Some e => throw e
  end.

(** [await client.callTool({ name, arguments })] *)
Definition do_callTool (c : Client) (toolName args : string) : M RawToolResult :=
  tr <- get_trace ;;
  let outcome := client_callTool w tr c toolName args in
  log (EvCallTool c toolName args outcome) ;;
  match outcome with
  | Ok r => ret r
  | Throw e => throw e
  end.

End Primitives.

(** A template literal prints an absent value as ["undefined"]. *)
Definition show (o : option string) : string := default "undefined" o.

End Runtime.

(** ** The OAuth handler (services/auth/oauth-handler.ts) *)

Module OAuthHandler.
Import Js Runtime.

(** *** Reading [WWW-Authenticate]

    [/name="([^"]+)"/i.exec(header)]: the first place where [name="], in
    any letter case, is followed by one or more characters other than the
    quote and then by a quote; the captured group is what is returned. *)

Definition dquote : ascii := "034"%char.

Definition lower (c : ascii) : ascii :=
  let n := N_of_ascii c in
  if ((65 <=? n) && (n <=? 90))%N then ascii_of_N (n + 32) else c.

Fixpoint strip_prefix_ci (p s : string) : option string :=
  match p, s with
  | EmptyString, _ => Some s
  | String a p', String b s' =>
      if Ascii.eqb (lower a) (lower b) then strip_prefix_ci p' s' else None
  | String _ _, EmptyString => None
  end.

(** The characters up to the next quote; [None] when there is no quote. *)
Fixpoint until_quote (s : string) : option string :=
  match s with
  | EmptyString => None
  | String c rest =>
      if Ascii.eqb c dquote then Some EmptyString
      else option_map (String c) (until_quote rest)
  end.

Definition match_here (name s : string) : option string :=
  match strip_prefix_ci (name +:+ String "=" (String dquote EmptyString)) s with
  | Some rest =>
      match until_quote rest with
      | Some (String c v) => Some (String c v)
      | _ => None
      end
  | None => None
  end.

Fixpoint exec_quoted (name s : string) : option string :=
  match match_here name s with
  | Some v => Some v
  | None =>
      match s with
      | EmptyString => None
      | String _ rest => exec_quoted name rest
      end
  end.

(** *** Results *)

Record OAuthDiscoveryResult := mkDiscovery {
  (** the members spread from the protected-resource metadata *)
  prm_authorization_server : option string;
  prm_authorization_servers : option StringOrArray;
  prm_scopes_supported : option (list string);
  tokenUrl : option string;
  authUrl : option string;
  registrationUrl : option string;
  scopes : list string;
  headerScope : option string;
  requiresAuth : bool;
}.

Record OAuthSession := mkSession {
  session_serverId : string;
  session_state : string;
  session_authUrl : string;
  session_redirectUri : string;
  session_scopes : list string;
}.

Record ClientCredentials := mkCredentials {
  cred_clientId : option string;
  cred_clientSecret : option string;
  cred_scope : option string;
}.

(** What the first step of the discovery leaves behind: an early
    [return null], or the three variables it assigns. *)
Inductive ProbeResult :=
| ProbeReturnsNull
| ProbeContinues (headerScope resourceMetadataUrl : option string)
    (probeRequiresAuth : bool).

(** [tokenData.expires_in || 3600]: absent and zero are both falsy. *)
Definition expires_in_or_default (e : option Z) : Z :=
  match e with
  | Some 0 => 3600
  | Some n => n
  | None => 3600
  end.

(** The record that [setOAuth2Token] builds at time [now]. *)
Definition token_of (now : Z) (tokenData : Json.Doc) : OAuth2Token :=
  {| access_token := Json.access_token tokenData;
     token_type := or_default (Json.token_type tokenData) "Bearer";
     expires_in := expires_in_or_default (Json.expires_in tokenData);
     expires_at := now + expires_in_or_default (Json.expires_in tokenData) * 1000;
     refresh_token := Json.refresh_token tokenData |}.

(** [arr[0]], and [s[0]] when the member holds a string. *)
Definition index0 (a : StringOrArray) : option string :=
  match a with
  | OneString EmptyString => None
  | OneString (String c _) => Some (String c EmptyString)
  | ManyStrings a => head a
  end.

(** [x && x[0]] *)
Definition and_index0 (o : option StringOrArray) : option string :=
  match o with
  | Some (OneString EmptyString) => Some EmptyString
  | Some a => index0 a
  | None => None
  end.

Definition get (url : string) : Request := mkRequest url GET ∅ NoBody.

Definition form_headers : gmap string string :=
  {[ "Content-Type" := "application/x-www-form-urlencoded" ]}.

(** [Buffer.from(`${id}:${secret}`).toString('base64')] *)
Definition basic_credentials (clientId : option string) (clientSecret : string) : string :=
  Base64.toString_base64 (list_byte_of_string (show clientId +:+ ":" +:+ clientSecret)).

Definition network_error_codes : list string :=
  ["ENOTFOUND"; "ECONNREFUSED"; "ETIMEDOUT"].

Definition is_network_error (e : Error) : bool :=
  match cause_code e with
  | Some c => existsb (String.eqb c) network_error_codes
  | None => false
  end.

Section WithWorld.
Variable w : World.

Definition setOAuth2Token (serverId : string) (tokenData : Json.Doc) : M unit :=
  now <- now w ;;
  let token := token_of now tokenData in
  tokens <- get_tokens ;;
  put_tokens (<[serverId := token]> tokens).

Definition getOAuth2TokenData (serverId : string) : M (option OAuth2Token) :=
  tokens <- get_tokens ;; ret (tokens !! serverId).

Definition clearOAuth2Token (serverId : string) : M unit :=
  tokens <- get_tokens ;; put_tokens (delete serverId tokens).

(** Step 1 of the discovery: the unauthenticated probe. *)
Definition probe_resource (serverUrl : string) : M ProbeResult :=
  try_catch
    (probe <- do_fetch w (get serverUrl) ;;
     if status probe =? 401 then
       if truthy (www_authenticate probe) then
         let wwwAuth := default "" (www_authenticate probe) in
         ret (ProbeContinues (exec_quoted "scope" wwwAuth)
                (exec_quoted "resource_metadata" wwwAuth) true)
       else ret (ProbeContinues None None true)
     else if ok probe then ret ProbeReturnsNull
     else ret (ProbeContinues None None false))
    (fun probeError =>
       if is_network_error probeError then ret ProbeReturnsNull
       else ret (ProbeContinues None None false)).


(** [candidateUrls] *)
Definition candidate_urls (url : URL) (resourceMetadataUrl : option string)
    : list string :=
  let rootUrl := origin url in
  let pathname := if String.eqb (pathname url) "/" then "" else pathname url in
  (if truthy resourceMetadataUrl then [default "" resourceMetadataUrl] else [])
  ++ [rootUrl +:+ "/.well-known/oauth-protected-resource" +:+ pathname;
      rootUrl +:+ "/.well-known/oauth-protected-resource"].

(** Step 2: the loop over the candidate metadata URLs.  The result is the
    value of [prm] after the loop. *)
Fixpoint find_prm (candidateUrls : list string) : M (option Json.Doc) :=
  match candidateUrls with
  | [] => ret None
  | candidate :: rest =>
      r <- attempt
             (res <- do_fetch w (get candidate) ;;
              if negb (ok res) then ret None
              else (prm <- read_json res ;; ret (Some prm))) ;;
      match r with
      | Ok (Some prm) => ret prm
      | Ok None => find_prm rest
      | Throw _ => find_prm rest
      end
  end.

(** Step 3: the authorization-server metadata; the result is [authMeta]. *)
Definition fetch_auth_meta (authServer : option string) : M (option Json.Doc) :=
  if truthy authServer then
    asmUrl <- resolve_URL w "/.well-known/oauth-authorization-server"
                (default "" authServer) ;;
    try_catch
      (authRes <- do_fetch w (get asmUrl) ;;
       if ok authRes then read_json authRes else ret None)
      (fun _ => ret None)
  else ret None.

(** [discoverOAuthConfiguration(serverUrl)], with its first step as a
    parameter: from the second step on, the method of McpManager has the
    same text. *)
Definition discover_with (probe_step : string -> M ProbeResult) (serverUrl : string)
    : M (option OAuthDiscoveryResult) :=
  url <- construct_URL w (Some serverUrl) ;;
  try_catch
    (p <- probe_step serverUrl ;;
     match p with
     | ProbeReturnsNull => ret None
     | ProbeContinues headerScope resourceMetadataUrl probeRequiresAuth =>
         let candidateUrls := candidate_urls url resourceMetadataUrl in
         prm <- find_prm candidateUrls ;;
         match prm with
         | None => ret None
         | Some prm =>
             let authServer :=
               or_else (Json.authorization_server prm)
                 (and_index0 (Json.authorization_servers prm)) in
             authMeta <- fetch_auth_meta authServer ;;
             let scopes :=
               Scopes.resolveScopes
                 {| Scopes.userScope := None;
                    Scopes.headerScope := headerScope;
                    Scopes.prmScopes := Json.scopes_supported prm;
                    Scopes.asmScopes := authMeta ≫= Json.scopes_supported;
                    Scopes.registrationScopes := None |} in
             ret (Some
                    {| prm_authorization_server := Json.authorization_server prm;
                       prm_authorization_servers := Json.authorization_servers prm;
                       prm_scopes_supported := Json.scopes_supported prm;
                       tokenUrl := authMeta ≫= Json.token_endpoint;
                       authUrl := authMeta ≫= Json.authorization_endpoint;
                       registrationUrl := authMeta ≫= Json.registration_endpoint;
                       scopes := scopes;
                       headerScope := headerScope;
                       requiresAuth := probeRequiresAuth |})
         end
     end)
    (fun _ => ret None).

Definition discoverOAuthConfiguration (serverUrl : string)
    : M (option OAuthDiscoveryResult) :=
  discover_with probe_resource serverUrl.

(** [getRedirectUri()]; it throws what [getEnvConfig()] throws. *)
Definition getRedirectUri : M string :=
  envConfig <- getEnvConfig w ;;
  ret (Env.appUrl envConfig +:+ "/api/mcp/oauth-callback").

Definition registerDynamicClient (registrationUrl : string) (scopes : list string)
    : M (option ClientCredentials) :=
  try_catch
    (let scope :=
       if String.eqb (join_space scopes) ""
       then "openid profile email offline_access" else join_space scopes in
     redirectUri <- getRedirectUri ;;
     response <- do_fetch w
       (mkRequest registrationUrl POST {[ "Content-Type" := "application/json" ]}
          (RegistrationBody redirectUri scope)) ;;
     if ok response then
       clientData <- read_json response ;;
       match clientData with
       | Some clientData =>
           ret (Some {| cred_clientId := Json.client_id clientData;
                        cred_clientSecret := Json.client_secret clientData;
                        cred_scope := Json.scope clientData |})
       | None => throw (new_Error "Cannot read properties of null")
       end
     else ret None)
    (fun _ => ret None).

Definition refresh_params (refreshToken : string) (oauth2Config : OAuth2Config.t)
    : list (string * string) :=
  [ ("grant_type", "refresh_token");
    ("refresh_token", refreshToken);
    ("client_id", show (OAuth2Config.clientId oauth2Config)) ].

(** The first request of a refresh: the client secret, when there is one,
    travels in an HTTP-Basic [Authorization] header. *)
Definition refresh_request (refreshToken : string) (oauth2Config : OAuth2Config.t)
    : Request :=
  let clientSecret := OAuth2Config.clientSecret oauth2Config in
  let headers :=
    if truthy clientSecret then
      <[ "Authorization" :=
           "Basic " +:+ basic_credentials (OAuth2Config.clientId oauth2Config)
                          (default "" clientSecret) ]> form_headers
    else form_headers in
  mkRequest (default "" (OAuth2Config.tokenUrl oauth2Config)) POST headers
    (FormBody (refresh_params refreshToken oauth2Config)).

(** The retry: no [Authorization] header, the secret appended to the body. *)
Definition refresh_retry_request (refreshToken : string)
    (oauth2Config : OAuth2Config.t) : Request :=
  mkRequest (default "" (OAuth2Config.tokenUrl oauth2Config)) POST form_headers
    (FormBody (refresh_params refreshToken oauth2Config
               ++ [("client_secret",
                    default "" (OAuth2Config.clientSecret oauth2Config))])).

(** [status === 401 || responseText.includes('invalid_client')] *)
Definition rejects_client (response : Response) : bool :=
  (status response =? 401) || includes (text response) "invalid_client".

(** The token set that a refresh returns for the response body [tokenData]. *)
Definition refreshed_token_set (refreshToken : string) (tokenData : Json.Doc)
    : Json.Doc :=
  Json.token_set
    (Json.access_token tokenData)
    (Some (or_default (Json.token_type tokenData) "Bearer"))
    (Some (expires_in_or_default (Json.expires_in tokenData)))
    (or_else (Json.refresh_token tokenData) (Some refreshToken))
    (Json.scope tokenData).

(** The outcome of a refresh once the response that counts is known. *)
Definition refresh_completion (refreshToken : string) (response : Response) : Result Json.Doc :=
  if negb (ok response) then
    Throw (new_Error ("Token refresh failed: "
                      +:+ number_text (status response) +:+ " " +:+ text response))
  else
    match json response with
    | JsonThrows e => Throw e
    | JsonNull => Throw (new_Error "Cannot read properties of null")
    | JsonObject tokenData => Ok (refreshed_token_set refreshToken tokenData)
    end.

(** [refreshToken(refreshToken, oauth2Config)] *)
Definition refreshToken (refreshToken : string) (oauth2Config : OAuth2Config.t)
    : M Json.Doc :=
  if negb (truthy (OAuth2Config.tokenUrl oauth2Config)) then
    throw (new_Error "OAuth token URL not configured")
  else
    response <- do_fetch w (refresh_request refreshToken oauth2Config) ;;
    response <-
      (if negb (ok response) && truthy (OAuth2Config.clientSecret oauth2Config) then
         let responseText := text response in
         if rejects_client response then
           do_fetch w (refresh_retry_request refreshToken oauth2Config)
         else
           throw (new_Error ("Token refresh failed: "
                             +:+ number_text (status response) +:+ " " +:+ responseText))
       else ret response) ;;
    if negb (ok response) then
      throw (new_Error ("Token refresh failed: "
                        +:+ number_text (status response) +:+ " " +:+ text response))
    else
      tokenData <- read_json response ;;
      match tokenData with
      | None => throw (new_Error "Cannot read properties of null")
      | Some tokenData => ret (refreshed_token_set refreshToken tokenData)
      end.

(** The error that [getOAuth2TokenHeader] builds when no credential is
    usable; it carries the authorization URL when one can be built, for
    which the redirect URI is needed. *)
Definition authMessage : string :=
  "OAuth2 token expired or missing. Please authorize the MCP server.".

Definition authorization_required (redirectUri : string)
    (oauth2Config : OAuth2Config.t) : Error :=
  if truthy (OAuth2Config.authUrl oauth2Config)
     && truthy (OAuth2Config.clientId oauth2Config) then
    let scope :=
      if truthy (OAuth2Config.scope oauth2Config)
      then default "" (OAuth2Config.scope oauth2Config)
      else match OAuth2Config.scopes oauth2Config with
           | Some scopes => join_space scopes
           | None => "openid profile offline_access"
           end in
    let connectUrl :=
      default "" (OAuth2Config.authUrl oauth2Config)
      +:+ "?response_type=code&client_id="
      +:+ default "" (OAuth2Config.clientId oauth2Config)
      +:+ "&redirect_uri=" +:+ encodeURIComponent w redirectUri
      +:+ "&scope=" +:+ encodeURIComponent w scope in
    {| message := "ACTION REQUIRED: " +:+ authMessage +:+ " Connect URL: " +:+ connectUrl;
       connectUrl := if String.eqb connectUrl "" then None else Some connectUrl;
       cause_code := None |}
  else new_Error authMessage.

(** The end of [getOAuth2TokenHeader]: the redirect URI is asked for when
    there are an authorization URL and a client id, and what that call
    throws leaves the function in place of the authorization error. *)
Definition require_authorization {A} (oauth2Config : OAuth2Config.t) : M A :=
  if truthy (OAuth2Config.authUrl oauth2Config)
     && truthy (OAuth2Config.clientId oauth2Config) then
    redirectUri <- getRedirectUri ;;
    throw (authorization_required redirectUri oauth2Config)
  else throw (new_Error authMessage).

Definition getOAuth2TokenHeader (serverId : string) (oauth2Config : OAuth2Config.t)
    : M string :=
  tokens <- get_tokens ;;
  let cached := tokens !! serverId in
  now <- now w ;;
  match cached with
  | Some tok =>
      if expires_at tok >? now + 60000 then
        ret (token_type tok +:+ " " +:+ show (access_token tok))
      else
        r <- (if truthy (refresh_token tok)
                 && truthy (OAuth2Config.tokenUrl oauth2Config) then
                try_catch
                  (tokenData <- refreshToken (default "" (refresh_token tok)) oauth2Config ;;
                   setOAuth2Token serverId tokenData ;;
                   ret (Some (or_default (Json.token_type tokenData) "Bearer"
                              +:+ " " +:+ show (Json.access_token tokenData))))
                  (fun _ => ret None)
              else ret None) ;;
        match r with
        | Some header => ret header
        | None => require_authorization oauth2Config
        end
  | None => require_authorization oauth2Config
  end.




(** The token set that the exchange returns for the response body
    [tokenData]. *)
Definition exchanged_token_set (tokenData : Json.Doc) : Json.Doc :=
  Json.token_set
    (Json.access_token tokenData)
    (Some (or_default (Json.token_type tokenData) "Bearer"))
    (Some (expires_in_or_default (Json.expires_in tokenData)))
    (Json.refresh_token tokenData)
    (Json.scope tokenData).

(** The outcome of the exchange once the response that counts is known. *)
Definition exchange_completion (response : Response) : Result Json.Doc :=
  if negb (ok response) then
    Throw (new_Error ("Token exchange failed: "
                      +:+ number_text (status response) +:+ " " +:+ text response))
  else
    match json response with
    | JsonThrows e => Throw e
    | JsonNull => Throw (new_Error "Cannot read properties of null")
    | JsonObject tokenData => Ok (exchanged_token_set tokenData)
    end.


(** [oauth2Config.scope || (oauth2Config.scopes ? oauth2Config.scopes.join(" ")
     : "openid profile offline_access")] *)
Definition requested_scope (oauth2Config : OAuth2Config.t) : string :=
  if truthy (OAuth2Config.scope oauth2Config)
  then default "" (OAuth2Config.scope oauth2Config)
  else match OAuth2Config.scopes oauth2Config with
       | Some scopes => join_space scopes
       | None => "openid profile offline_access"
       end.

(** [initiateOAuth(serverId, oauth2Config)]; [random_suffix] is the value
    of [Math.random().toString(36).substring(7)]. *)
Definition initiateOAuth (random_suffix : string) (serverId : string)
    (oauth2Config : OAuth2Config.t) : M OAuthSession :=
  redirectUri <- getRedirectUri ;;
  now <- now w ;;
  let state := serverId +:+ "-" +:+ number_text now +:+ "-" +:+ random_suffix in
  let scope := requested_scope oauth2Config in
  if negb (truthy (OAuth2Config.authUrl oauth2Config)) then
    throw (new_Error "OAuth authorization URL not configured")
  else
    let authUrl :=
      default "" (OAuth2Config.authUrl oauth2Config)
      +:+ "?response_type=code&client_id="
      +:+ show (OAuth2Config.clientId oauth2Config)
      +:+ "&redirect_uri=" +:+ encodeURIComponent w redirectUri
      +:+ "&scope=" +:+ encodeURIComponent w scope
      +:+ "&state=" +:+ state in
    ret {| session_serverId := serverId;
           session_state := state;
           session_authUrl := authUrl;
           session_redirectUri := redirectUri;
           session_scopes := filter_Boolean (split_ws scope) |}.

End WithWorld.

(** A scope token: a string that is not empty and holds no white space. *)
Definition is_word (s : string) : bool :=
  negb (String.eqb s "")
  && forallb (fun c => negb (is_space c)) (list_ascii_of_string s).

End OAuthHandler.

(** ** The discovery endpoint (app/api/mcp/discover-oauth/route.ts) *)

Module DiscoverRoute.
Import Js Runtime.

Record OAuthDiscoveryResult := mkResult {
  tokenEndpoint : option string;
  authorizationEndpoint : option string;
  registrationUrl : option string;
  scopesSupported : list string;
  requiresAuth : bool;
}.

Definition accept_json : gmap string string := {[ "Accept" := "application/json" ]}.

Definition get_json (url : string) : Request := mkRequest url GET accept_json NoBody.

(** The locals that the first method assigns. *)
Record PrmLocals := mkLocals {
  authorizationServers : list string;
  scopes : list string;
  requiresAuth_local : bool;
}.

(** [if (prm.authorization_servers) ... else if (prm.authorization_server) ...] *)
Definition servers_of_prm (prm : Json.Doc) (current : list string) : list string :=
  match Json.authorization_servers prm with
  | Some (ManyStrings a) => a
  | Some (OneString (String c s)) => [String c s]
  | _ =>
      if truthy (Json.authorization_server prm)
      then [default "" (Json.authorization_server prm)]
      else current
  end.

Section WithWorld.
Variable w : World.

(** Method 1: protected-resource metadata. *)
Fixpoint try_prm (prmUrls : list string) (locals : PrmLocals) : M PrmLocals :=
  match prmUrls with
  | [] => ret locals
  | prmUrl :: rest =>
      r <- attempt
             (response <- do_fetch w (get_json prmUrl) ;;
              if ok response then
                prm <- read_json response ;;
                match prm with
                | None => throw (new_Error "Cannot read properties of null")
                | Some prm =>
                    ret (Some
                           {| authorizationServers :=
                                servers_of_prm prm (authorizationServers locals);
                              scopes :=
                                match Json.scopes_supported prm with
                                | Some s => s
                                | None => scopes locals
                                end;
                              requiresAuth_local := true |})
                end
              else ret None) ;;
      match r with
      | Ok (Some locals') => ret locals'
      | Ok None => try_prm rest locals
      | Throw _ => try_prm rest locals
      end
  end.

(** Method 2: authorization-server metadata.  The URL is built outside the
    [try], so a server name that is not a URL makes the whole function
    throw.  The result is [authMeta] and the value of [scopes]. *)
Fixpoint try_asm (servers : list string) (locals : PrmLocals)
    : M (option Json.Doc * list string) :=
  match servers with
  | [] => ret (None, scopes locals)
  | authServer :: rest =>
      asmUrl <- resolve_URL w "/.well-known/oauth-authorization-server" authServer ;;
      r <- attempt
             (response <- do_fetch w (get_json asmUrl) ;;
              if ok response then
                authMeta <- read_json response ;;
                match authMeta with
                | None => throw (new_Error "Cannot read properties of null")
                | Some authMeta => ret (Some authMeta)
                end
              else ret None) ;;
      match r with
      | Ok (Some authMeta) =>
          ret (Some authMeta,
               match Json.scopes_supported authMeta with
               | Some s => if requiresAuth_local locals then scopes locals else s
               | None => scopes locals
               end)
      | Ok None => try_asm rest locals
      | Throw _ => try_asm rest locals
      end
  end.

(** Method 3: OpenID Connect discovery.  [Some None] is a body that reads
    [null]: it is assigned and the loop stops. *)
Fixpoint try_oidc (servers : list string) : M (option Json.Doc) :=
  match servers with
  | [] => ret None
  | authServer :: rest =>
      oidcUrl <- resolve_URL w "/.well-known/openid-configuration" authServer ;;
      r <- attempt
             (response <- do_fetch w (get_json oidcUrl) ;;
              if ok response then (authMeta <- read_json response ;; ret (Some authMeta))
              else ret None) ;;
      match r with
      | Ok (Some authMeta) => ret authMeta
      | Ok None => try_oidc rest
      | Throw _ => try_oidc rest
      end
  end.

(** Method 4: the probe of the resource itself. *)
Definition probe_last (serverUrl : string) (scopes : list string)
    : M (option OAuthDiscoveryResult) :=
  try_catch
    (probeResponse <- do_fetch w (mkRequest serverUrl GET ∅ NoBody) ;;
     if status probeResponse =? 401 then
       ret (Some {| tokenEndpoint := None;
                    authorizationEndpoint := None;
                    registrationUrl := None;
                    scopesSupported := scopes;
                    requiresAuth := true |})
     else ret None)
    (fun _ => ret None).

Definition discoverOAuthWithMultipleMethods (serverUrl : string)
    : M (option OAuthDiscoveryResult) :=
  match new_URL w serverUrl with
  | None => ret None
  | Some url =>
      let origin := origin url in
      locals <- try_prm [origin +:+ "/.well-known/oauth-protected-resource"]
                  {| authorizationServers := [];
                     scopes := ["openid"; "email"; "profile"];
                     requiresAuth_local := false |} ;;
      let authorizationServers :=
        match authorizationServers locals with
        | [] => [origin]
        | servers => servers
        end in
      found <- try_asm authorizationServers locals ;;
      let scopes := snd found in
      authMeta <- match fst found with
                  | Some authMeta => ret (Some authMeta)
                  | None => try_oidc authorizationServers
                  end ;;
      match authMeta with
      | Some authMeta =>
          ret (Some {| tokenEndpoint := Json.token_endpoint authMeta;
                       authorizationEndpoint := Json.authorization_endpoint authMeta;
                       registrationUrl := Json.registration_endpoint authMeta;
                       scopesSupported := scopes;
                       requiresAuth := requiresAuth_local locals |})
      | None => probe_last serverUrl scopes
      end
  end.

End WithWorld.

End DiscoverRoute.

(** ** The transport manager (services/transport/transport-manager.ts) *)

Module TransportManager.
Import Js Runtime.

Definition isSSEConnectionError (error : Error) : bool :=
  let message := message error in
  includes message "405" || includes message "404" || includes message "202"
  || includes message "Stats" || includes message "Unexpected token".

Definition isAuthenticationError (error : Error) : bool :=
  let message := message error in
  includes message "401" || includes message "Authentication failed".

Section WithWorld.
Variable w : World.

(** [createTransport(serverType, config)]; both constructors are given
    [new URL(config.url)], which may throw. *)
Definition createTransport (serverType : string) (url : option string)
    (headers : option (gmap string string)) : M Transport :=
  _ <- construct_URL w url ;;
  if String.eqb serverType "http-direct" then
    ret (mkTransport StreamableHTTPClientTransport (default "" url) (default ∅ headers))
  else
    ret (mkTransport SSEClientTransport (default "" url) (default ∅ headers)).

Definition createStatelessHTTPTransport (url : option string)
    (headers : gmap string string) : M Transport :=
  _ <- construct_URL w url ;;
  ret (mkTransport StatelessHTTPClientTransport (default "" url) headers).

End WithWorld.

End TransportManager.

(** ** The connection manager (services/connection/connection-manager.ts) *)

Module ConnectionManager.
Import Js Runtime.

(** The result in [MCPToolResult] form. *)
Record MCPToolResult := mkToolResult {
  content : list string;
  isError : bool;
}.

(** [existing && existing.status === 'connected'] *)
Definition already_connected (existing : option MCPConnection) : option MCPConnection :=
  match existing with
  | Some c =>
      match conn_status c with
      | connected => Some c
      | _ => None
      end
  | None => None
  end.

Definition not_connected (serverId : string) : Error :=
  new_Error ("Server " +:+ serverId +:+ " is not connected or client is missing.").

Section WithWorld.
Variable w : World.

Definition registerConnectionState (server : MCPServer) (status : ConnectionStatus)
    (error connectUrl : option string) : M unit :=
  conns <- get_connections ;;
  match conns !! id server with
  | Some existing =>
      put_connections
        (<[id server :=
             {| client := client existing;
                server := Runtime.server existing;
                conn_status := status;
                conn_error := error;
                conn_connectUrl := connectUrl |}]> conns)
  | None =>
      put_connections
        (<[id server :=
             {| client := None;
                server := server;
                conn_status := status;
                conn_error := error;
                conn_connectUrl := connectUrl |}]> conns)
  end.

Definition establishConnection (server : MCPServer) (transport : Transport)
    : M MCPConnection :=
  conns <- get_connections ;;
  match already_connected (conns !! id server) with
  | Some existing => ret existing
  | None =>
      let client := mkClient transport in
      let connection := mkConnection (Some client) server connecting None None in
      put_connections (<[id server := connection]> conns) ;;
      try_catch
        (do_client_connect w transport ;;
         let connection := mkConnection (Some client) server connected None None in
         conns <- get_connections ;;
         put_connections (<[id server := connection]> conns) ;;
         ret connection)
        (fun err =>
           let connection :=
             mkConnection (Some client) server Runtime.error
               (Some (message err)) None in
           conns <- get_connections ;;
           put_connections (<[id server := connection]> conns) ;;
           throw err)
  end.

Definition closeConnection (serverId : string) : M unit :=
  conns <- get_connections ;;
  match conns !! serverId with
  | Some {| client := Some c |} =>
      try_catch (do_client_close w c) (fun _ => ret tt)
  | _ => ret tt
  end ;;
  conns <- get_connections ;;
  put_connections (delete serverId conns).

Definition getConnectionStatus (serverId : string) : M ConnectionStatus :=
  conns <- get_connections ;;
  match conns !! serverId with
  | Some connection => ret (conn_status connection)
  | None => ret disconnected
  end.

Definition getConnection (serverId : string) : M (option MCPConnection) :=
  conns <- get_connections ;; ret (conns !! serverId).

Definition is_connected (s : ConnectionStatus) : bool :=
  match s with
  | connected => true
  | _ => false
  end.

Definition callTool (toolName args serverId : string) : M MCPToolResult :=
  conns <- get_connections ;;
  match conns !! serverId with
  | Some {| client := Some c; conn_status := status |} =>
      if is_connected status then
        try_catch
          (result <- do_callTool w c toolName args ;;
           ret {| content := default [] (raw_content result);
                  isError := default false (raw_isError result) |})
          (fun err => throw err)
      else throw (not_connected serverId)
  | _ => throw (not_connected serverId)
  end.

(** [updateConnectionStatus(serverId, status, error, connectUrl)] *)
Definition updateConnectionStatus (serverId : string) (status : ConnectionStatus)
    (error connectUrl : option string) : M unit :=
  conns <- get_connections ;;
  match conns !! serverId with
  | Some connection =>
      put_connections
        (<[serverId :=
             {| client := client connection;
                server := Runtime.server connection;
                conn_status := status;
                conn_error := error;
                conn_connectUrl := connectUrl |}]> conns)
  | None => ret tt
  end.

(** [closeConnection] for every id of [ids], one after the other. *)
Fixpoint close_each (ids : list string) : M unit :=
  match ids with
  | [] => ret tt
  | serverId :: rest => closeConnection serverId ;; close_each rest
  end.

(** [closeAllConnections()].  [ids] is [Array.from(this.connections.keys())],
    the ids of the registry in the order in which they were inserted, an
    order that the map of this embedding does not keep.  The calls that
    [Promise.all] awaits start in the order of [ids], and each of them
    completes whatever [close] answers; they are run here one after the
    other. *)
Definition closeAllConnections (ids : list string) : M unit := close_each ids.

End WithWorld.

End ConnectionManager.

(** ** The coordinator (services/coordinator.ts) *)

Module MCPCoordinator.
Import Js Runtime.

Definition is_http_type (type : string) : bool :=
  String.eqb type "http" || String.eqb type "sse" || String.eqb type "http-direct".

(** [!oauthConfig?.tokenUrl || !oauthConfig?.authUrl || !oauthConfig?.clientId
     || oauthConfig?.autoDiscover] *)
Definition needsDiscovery (oauthConfig : option OAuth2Config.t) : bool :=
  negb (truthy (oauthConfig ≫= OAuth2Config.tokenUrl))
  || negb (truthy (oauthConfig ≫= OAuth2Config.authUrl))
  || negb (truthy (oauthConfig ≫= OAuth2Config.clientId))
  || match oauthConfig with
     | Some c => OAuth2Config.autoDiscover c
     | None => false
     end.

Definition autoDiscover_of (oauthConfig : option OAuth2Config.t) : bool :=
  match oauthConfig with
  | Some c => OAuth2Config.autoDiscover c
  | None => false
  end.

(** The assignments of the "auto-configuring" branch. *)
Definition apply_discovery (oauth2 : option OAuth2Config.t)
    (discoveredAuth : OAuthHandler.OAuthDiscoveryResult) : OAuth2Config.t :=
  let base := default OAuth2Config.empty oauth2 in
  {| OAuth2Config.clientId := OAuth2Config.clientId base;
     OAuth2Config.clientSecret := OAuth2Config.clientSecret base;
     OAuth2Config.tokenUrl := OAuthHandler.tokenUrl discoveredAuth;
     OAuth2Config.authUrl := OAuthHandler.authUrl discoveredAuth;
     OAuth2Config.registrationUrl := OAuth2Config.registrationUrl base;
     OAuth2Config.scope :=
       if negb (truthy (OAuth2Config.scope base))
          && truthy (OAuthHandler.headerScope discoveredAuth)
       then OAuthHandler.headerScope discoveredAuth
       else OAuth2Config.scope base;
     OAuth2Config.scopes := Some (OAuthHandler.scopes discoveredAuth);
     OAuth2Config.autoDiscover := OAuth2Config.autoDiscover base |}.

Definition with_oauth2 (config : ServerConfig.t) (oauth2 : OAuth2Config.t)
    : ServerConfig.t :=
  {| ServerConfig.url := ServerConfig.url config;
     ServerConfig.headers := ServerConfig.headers config;
     ServerConfig.oauth2 := Some oauth2 |}.

Definition with_credentials (oauth2 : OAuth2Config.t)
    (creds : OAuthHandler.ClientCredentials) : OAuth2Config.t :=
  {| OAuth2Config.clientId := OAuthHandler.cred_clientId creds;
     OAuth2Config.clientSecret := OAuthHandler.cred_clientSecret creds;
     OAuth2Config.tokenUrl := OAuth2Config.tokenUrl oauth2;
     OAuth2Config.authUrl := OAuth2Config.authUrl oauth2;
     OAuth2Config.registrationUrl := OAuth2Config.registrationUrl oauth2;
     OAuth2Config.scope := OAuth2Config.scope oauth2;
     OAuth2Config.scopes := OAuth2Config.scopes oauth2;
     OAuth2Config.autoDiscover := OAuth2Config.autoDiscover oauth2 |}.

(** [headers['Authorization'] = authHeader] where [headers] is
    [config.headers || {}]: when the configuration has a headers object the
    assignment is seen through [config.headers] as well. *)
Definition set_authorization (config : ServerConfig.t) (authHeader : string)
    : ServerConfig.t * gmap string string :=
  let headers := <["Authorization" := authHeader]> (default ∅ (ServerConfig.headers config)) in
  (match ServerConfig.headers config with
   | Some _ =>
       {| ServerConfig.url := ServerConfig.url config;
          ServerConfig.headers := Some headers;
          ServerConfig.oauth2 := ServerConfig.oauth2 config |}
   | None => config
   end, headers).

(** The classification in the [catch] clause of [connect]. *)
Definition isAuthError (err : Error) : bool :=
  negb (String.eqb (message err) "")
  && (includes (message err) "authorize"
      || includes (message err) "token expired"
      || truthy (connectUrl err)).

Definition failure_status (err : Error) : ConnectionStatus :=
  if isAuthError err then auth_required else Runtime.error.

(** The locals of [connect] that its phases hand on. *)
Record Locals := mkLocals {
  the_server : MCPServer;
  the_config : ServerConfig.t;
  discoveredAuth : option OAuthHandler.OAuthDiscoveryResult;
}.

Section WithWorld.
Variable w : World.

Definition with_config (server : MCPServer) (config : ServerConfig.t) : MCPServer :=
  {| id := id server;
     name := name server;
     type := type server;
     config := JSON_stringify_config w config |}.

(** Discovery phase. *)
Definition discoveryPhase (server : MCPServer) (config : ServerConfig.t) : M Locals :=
  let oauthConfig := ServerConfig.oauth2 config in
  let needsDiscovery := needsDiscovery oauthConfig in
  let shouldAttemptDiscovery := bool_decide (is_Some oauthConfig) || needsDiscovery in
  if shouldAttemptDiscovery && (negb (bool_decide (is_Some oauthConfig)) || needsDiscovery) then
    discoveredAuth <-
      match ServerConfig.url config with
      | Some url => OAuthHandler.discoverOAuthConfiguration w url
      | None => throw (new_Error "Invalid URL")
      end ;;
    match discoveredAuth with
    | Some d =>
        if OAuthHandler.requiresAuth d || autoDiscover_of oauthConfig then
          let config := with_oauth2 config (apply_discovery (ServerConfig.oauth2 config) d) in
          ret (mkLocals (with_config server config) config (Some d))
        else ret (mkLocals server config (Some d))
    | None => ret (mkLocals server config None)
    end
  else ret (mkLocals server config None).

(** Dynamic client registration phase. *)
Definition registrationPhase (l : Locals) : M Locals :=
  match discoveredAuth l with
  | Some d =>
      if (OAuthHandler.requiresAuth d || autoDiscover_of (ServerConfig.oauth2 (the_config l)))
         && truthy (OAuthHandler.registrationUrl d)
         && negb (truthy (ServerConfig.oauth2 (the_config l) ≫= OAuth2Config.clientId))
      then
        clientCreds <- OAuthHandler.registerDynamicClient w
                         (default "" (OAuthHandler.registrationUrl d))
                         (OAuthHandler.scopes d) ;;
        match clientCreds with
        | Some creds =>
            match ServerConfig.oauth2 (the_config l) with
            | Some oauth2 =>
                let config := with_oauth2 (the_config l) (with_credentials oauth2 creds) in
                ret (mkLocals (with_config (the_server l) config) config (Some d))
            | None => throw (new_Error "Cannot set properties of undefined")
            end
        | None => ret l
        end
      else ret l
  | None => ret l
  end.

(** Preparation of the headers; the result is the configuration, whose
    headers object may have received the [Authorization] header, and
    [primaryAuthError]. *)
Definition prepareHeaders (serverId : string) (config : ServerConfig.t)
    : M (ServerConfig.t * gmap string string * option Error) :=
  let headers := default ∅ (ServerConfig.headers config) in
  match ServerConfig.oauth2 config with
  | Some oauth2 =>
      if truthy (OAuth2Config.tokenUrl oauth2) then
        r <- attempt (OAuthHandler.getOAuth2TokenHeader w serverId oauth2) ;;
        match r with
        | Ok authHeader =>
            let '(config, headers) := set_authorization config authHeader in
            ret (config, headers, None)
        | Throw err => ret (config, headers, Some err)
        end
      else ret (config, headers, None)
  | None => ret (config, headers, None)
  end.

(** The headers of the fallback, prepared anew; the result is
    [fallbackHeaders] and [fallbackAuthError]. *)
Definition prepareFallbackHeaders (server : MCPServer) (config : ServerConfig.t)
    : M (gmap string string * option Error) :=
  let fallbackHeaders := default ∅ (ServerConfig.headers config) in
  match ServerConfig.oauth2 config with
  | Some oauth2 =>
      r <- attempt (OAuthHandler.getOAuth2TokenHeader w (id server) oauth2) ;;
      match r with
      | Ok authHeader => ret (snd (set_authorization config authHeader), None)
      | Throw e => ret (fallbackHeaders, Some e)
      end
  | None => ret (fallbackHeaders, None)
  end.

(** The error that leaves the fallback when its connection attempt failed
    with [fallbackError]. *)
Definition fallback_failure (fallbackAuthError : option Error) (fallbackError : Error)
    : Error :=
  match fallbackAuthError with
  | Some e =>
      if TransportManager.isAuthenticationError fallbackError then e else fallbackError
  | None => fallbackError
  end.

(** The fallback to the stateless transport. *)
Definition fallback (server : MCPServer) (config : ServerConfig.t) : M unit :=
  prepared <- prepareFallbackHeaders server config ;;
  let fallbackHeaders := fst prepared in
  let fallbackAuthError : option Error := snd prepared in
  transport <- TransportManager.createStatelessHTTPTransport w
                 (ServerConfig.url config) fallbackHeaders ;;
  try_catch
    (ConnectionManager.establishConnection w server transport ;; ret tt)
    (fun fallbackError => throw (fallback_failure fallbackAuthError fallbackError)).

(** Creation of the transport and the connection attempt with its single
    fallback. *)
Definition transportPhase (server : MCPServer) (config : ServerConfig.t)
    (headers : gmap string string) (primaryAuthError : option Error) : M unit :=
  transport <- TransportManager.createTransport w (type server)
                 (ServerConfig.url config) (Some headers) ;;
  try_catch
    (ConnectionManager.establishConnection w server transport ;; ret tt)
    (fun connectError =>
       match primaryAuthError with
       | Some e =>
           if TransportManager.isAuthenticationError connectError
           then throw e
           else if TransportManager.isSSEConnectionError connectError
           then fallback server config
           else throw connectError
       | None =>
           if TransportManager.isSSEConnectionError connectError
           then fallback server config
           else throw connectError
       end).

(** What follows the registration phase inside the [try] block. *)
Definition connectPhase (l : Locals) : M unit :=
  prepared <- prepareHeaders (id (the_server l)) (the_config l) ;;
  let '(config, headers, primaryAuthError) := prepared in
  match primaryAuthError with
  | Some e =>
      if bool_decide (is_Some (ServerConfig.oauth2 config))
         || match discoveredAuth l with
            | Some d => OAuthHandler.requiresAuth d
            | None => false
            end
      then throw e
      else transportPhase (the_server l) config headers primaryAuthError
  | None => transportPhase (the_server l) config headers primaryAuthError
  end.

(** The [try] block of [connect].  It completes with the server object as
    the block left it, since the [catch] clause registers that object. *)
Definition connect_try (server : MCPServer) (config : ServerConfig.t)
    : M (MCPServer * Result unit) :=
  if is_http_type (type server) then
    r <- attempt (discoveryPhase server config) ;;
    match r with
    | Throw e => ret (server, Throw e)
    | Ok l =>
        r <- attempt (registrationPhase l) ;;
        match r with
        | Throw e => ret (the_server l, Throw e)
        | Ok l =>
            r <- attempt (connectPhase l) ;;
            ret (the_server l, r)
        end
    end
  else ret (server, Ok tt).

Definition connect (server : MCPServer) : M unit :=
  status <- ConnectionManager.getConnectionStatus (id server) ;;
  if ConnectionManager.is_connected status then ret tt
  else
    match JSON_parse_config w (or_default (Some (config server)) "{}") with
    | ParseThrows => throw (new_Error "Unexpected token in JSON")
    | ParseNull => throw (new_Error "Cannot read properties of null (reading 'oauth2')")
    | ParseValue config =>
        done <- connect_try server config ;;
        match snd done with
        | Ok _ => ret tt
        | Throw err =>
            ConnectionManager.registerConnectionState (fst done)
              (failure_status err) (Some (message err)) (connectUrl err) ;;
            throw err
        end
    end.

Definition disconnect (serverId : string) : M unit :=
  ConnectionManager.closeConnection w serverId ;;
  OAuthHandler.clearOAuth2Token serverId.

Definition getConnectionStatus (serverId : string) : M ConnectionStatus :=
  ConnectionManager.getConnectionStatus serverId.

Definition callTool (toolName args serverId : string)
    : M ConnectionManager.MCPToolResult :=
  if String.eqb serverId "" then
    throw (new_Error "ServerId is required to call a tool.")
  else ConnectionManager.callTool w toolName args serverId.

(** [disconnectAll()]; [ids] as in [closeAllConnections]. *)
Definition disconnectAll (ids : list string) : M unit :=
  ConnectionManager.closeAllConnections w ids.

(** [registerConnectionState(server, status, error, connectUrl)] *)
Definition registerConnectionState (server : MCPServer) (status : ConnectionStatus)
    (error connectUrl : option string) : M unit :=
  ConnectionManager.registerConnectionState server status error connectUrl.

End WithWorld.

End MCPCoordinator.

(** ** The earlier manager (lib/mcp/mcp-manager.ts)

    [McpManager] carries copies of the token store, of the discovery and of
    the tool call.  Its [setOAuth2Token] and [resolveScopes] have the text
    of the handler's; the methods below are the ones that differ. *)

Module McpManager.
Import Js Runtime.

Definition not_connected (serverId : string) : Error :=
  new_Error ("Server " +:+ serverId +:+ " is not connected.").

Section WithWorld.
Variable w : World.

Definition setOAuth2Token := OAuthHandler.setOAuth2Token w.

(** Step 1 of the discovery: every failure of the probe lets the discovery
    go on. *)
Definition probe_resource (serverUrl : string) : M OAuthHandler.ProbeResult :=
  try_catch
    (probe <- do_fetch w (OAuthHandler.get serverUrl) ;;
     if status probe =? 401 then
       if truthy (www_authenticate probe) then
         let wwwAuth := default "" (www_authenticate probe) in
         ret (OAuthHandler.ProbeContinues
                (OAuthHandler.exec_quoted "scope" wwwAuth)
                (OAuthHandler.exec_quoted "resource_metadata" wwwAuth) true)
       else ret (OAuthHandler.ProbeContinues None None true)
     else if ok probe then ret OAuthHandler.ProbeReturnsNull
     else ret (OAuthHandler.ProbeContinues None None false))
    (fun _ => ret (OAuthHandler.ProbeContinues None None false)).

Definition discoverOAuthConfiguration (serverUrl : string)
    : M (option OAuthHandler.OAuthDiscoveryResult) :=
  OAuthHandler.discover_with w probe_resource serverUrl.

(** The refresh inside [getOAuth2TokenHeader]: the body of its [try]
    block; [None] stands for falling out of the block. *)
Definition refresh_inline (serverId refreshToken : string)
    (oauth2Config : OAuth2Config.t) : M (option string) :=
  response <- do_fetch w (OAuthHandler.refresh_request refreshToken oauth2Config) ;;
  response <-
    (if negb (ok response) && truthy (OAuth2Config.clientSecret oauth2Config) then
       if OAuthHandler.rejects_client response then
         do_fetch w (OAuthHandler.refresh_retry_request refreshToken oauth2Config)
       else ret response
     else ret response) ;;
  if ok response then
    tokenData <- read_json response ;;
    match tokenData with
    | None => throw (new_Error "Cannot read properties of null")
    | Some tokenData =>
        setOAuth2Token serverId tokenData ;;
        ret (Some (or_default (Json.token_type tokenData) "Bearer"
                   +:+ " " +:+ show (Json.access_token tokenData)))
    end
  else ret None.

Definition getOAuth2TokenHeader (serverId : string) (oauth2Config : OAuth2Config.t)
    : M string :=
  tokens <- get_tokens ;;
  let cached := tokens !! serverId in
  now <- now w ;;
  match cached with
  | Some tok =>
      if expires_at tok >? now + 60000 then
        ret (token_type tok +:+ " " +:+ show (access_token tok))
      else
        r <- (if truthy (refresh_token tok)
                 && truthy (OAuth2Config.tokenUrl oauth2Config) then
                try_catch
                  (refresh_inline serverId (default "" (refresh_token tok)) oauth2Config)
                  (fun _ => ret None)
              else ret None) ;;
        match r with
        | Some header => ret header
        | None => OAuthHandler.require_authorization w oauth2Config
        end
  | None => OAuthHandler.require_authorization w oauth2Config
  end.

Definition callTool (toolName args : string) (serverId : option string)
    : M RawToolResult :=
  if truthy serverId then
    conns <- get_connections ;;
    match conns !! default "" serverId with
    | Some targetConnection =>
        if ConnectionManager.is_connected (conn_status targetConnection) then
          match client targetConnection with
          | Some c =>
              try_catch (do_callTool w c toolName args) (fun err => throw err)
          | None => throw (new_Error "Cannot read properties of null")
          end
        else throw (not_connected (default "" serverId))
    | None => throw (not_connected (default "" serverId))
    end
  else throw (new_Error "ServerId is required to call a tool.").

(** [disconnect(serverId)] *)
Definition disconnect (serverId : string) : M unit :=
  conns <- get_connections ;;
  match conns !! serverId with
  | Some {| client := Some c |} =>
      try_catch (do_client_close w c) (fun _ => ret tt)
  | _ => ret tt
  end ;;
  conns <- get_connections ;;
  put_connections (delete serverId conns) ;;
  tokens <- get_tokens ;;
  put_tokens (delete serverId tokens).

(** [disconnectAll()]; [ids] is [Array.from(this.connections.keys())], and
    the calls are run one after the other, as in [closeAllConnections]. *)
Fixpoint disconnect_each (ids : list string) : M unit :=
  match ids with
  | [] => ret tt
  | serverId :: rest => disconnect serverId ;; disconnect_each rest
  end.

Definition disconnectAll (ids : list string) : M unit := disconnect_each ids.

(** [getConnectionStatus(serverId)] *)
Definition getConnectionStatus (serverId : string) : M ConnectionStatus :=
  conns <- get_connections ;;
  match conns !! serverId with
  | Some connection => ret (conn_status connection)
  | None => ret disconnected
  end.

End WithWorld.

End McpManager.

(** ** Observations on traces *)

Module Observe.
Import Js Runtime.

Definition is_fetch (ev : Event) : bool :=
  match ev with
  | EvFetch _ _ => true
  | _ => false
  end.

Definition is_client_connect (ev : Event) : bool :=
  match ev with
  | EvClientConnect _ _ => true
  | _ => false
  end.

Definition is_stateless (t : Transport) : bool :=
  match kind t with
  | StatelessHTTPClientTransport => true
  | _ => false
  end.

(** State [s] after the events [evs] were recorded. *)
Definition logged (s : State) (evs : list Event) : State :=
  mkState (connections s) (oauth2Tokens s) (trace s ++ evs).

(** What a run from [s] to [s'] added to the trace. *)
Definition new_events (s s' : State) : list Event :=
  drop (length (trace s)) (trace s').

(** The requests of a list of events, in order. *)
Definition requests (evs : list Event) : list Request :=
  omap (fun ev => match ev with EvFetch req _ => Some req | _ => None end) evs.

(** The connection attempts of a list of events, in order. *)
Definition connect_attempts (evs : list Event) : list (Transport * option Error) :=
  omap (fun ev => match ev with
                  | EvClientConnect t failure => Some (t, failure)
                  | _ => None
                  end) evs.

(** The status that a status query reports in state [s]. *)
Definition status_of (s : State) (serverId : string) : ConnectionStatus :=
  match connections s !! serverId with
  | Some connection => conn_status connection
  | None => disconnected
  end.

(** What [getOAuth2TokenHeader] throws in the world [w] when no credential
    is usable: the authorization error, or else what [getEnvConfig()]
    throws, when the redirect URI is needed and the environment is not
    valid. *)
Definition refusal (w : World) (oauth2Config : OAuth2Config.t) : Error :=
  if truthy (OAuth2Config.authUrl oauth2Config)
     && truthy (OAuth2Config.clientId oauth2Config) then
    match Env.validateEnv (process_env w) with
    | Ok envConfig =>
        OAuthHandler.authorization_required w (Env.redirect_uri envConfig)
          oauth2Config
    | Throw e => e
    end
  else new_Error OAuthHandler.authMessage.


(** A computation that only fetches: it extends the trace by fetch events,
    leaves the connection registry alone, and completes within [Q]. *)
Definition quiet {A} (Q : Result A -> Prop) (m : M A) : Prop :=
  forall s, exists evs,
    trace (snd (m s)) = trace s ++ evs
    /\ Forall (fun ev => is_fetch ev = true) evs
    /\ connections (snd (m s)) = connections s
    /\ Q (fst (m s)).

Definition anything {A} : Result A -> Prop := fun _ => True.

Definition succeeds {A} : Result A -> Prop := fun r => exists a, r = Ok a.

(** The only error of [getOAuth2TokenHeader] is [refusal]. *)
Definition only_authorization_required (w : World) (cfg : OAuth2Config.t)
    (r : Result string) : Prop :=
  forall e, r = Throw e -> e = refusal w cfg.

(** The state in which the fallback begins: [s] after the attempt of
    [server] on the transport [t] failed with [e]. *)
Definition after_failure (server : MCPServer) (s : State) (t : Transport)
    (e : Error) : State :=
  mkState
    (<[id server := mkConnection (Some (mkClient t)) server Runtime.error
                      (Some (message e)) None]> (connections s))
    (oauth2Tokens s) (trace s ++ [EvClientConnect t (Some e)]).

(** [fallbackAuthError]: what [getOAuth2TokenHeader] throws when the
    headers of the fallback are prepared in state [s], if the
    configuration has an [oauth2] member and the call throws. *)
Definition fallbackAuthError (w : World) (server : MCPServer)
    (config : ServerConfig.t) (s : State) : option Error :=
  match ServerConfig.oauth2 config with
  | Some oauth2 =>
      match fst (OAuthHandler.getOAuth2TokenHeader w (id server) oauth2 s) with
      | Throw e => Some e
      | Ok _ => None
      end
  | None => None
  end.

(** The error suppressed, if any, when [connectPhase] on the locals [l]
    from state [s] comes to its fallback, after the attempt on [t] failed
    with [e]: the headers of the first attempt were prepared without
    error, and the fallback begins in the state that the failed attempt
    left. *)
Definition suppressed_in_phase (w : World) (l : MCPCoordinator.Locals) (s : State)
    (t : Transport) (e : Error) (suppressed : option Error) : Prop :=
  exists config headers s1,
    MCPCoordinator.prepareHeaders w (id (MCPCoordinator.the_server l))
      (MCPCoordinator.the_config l) s
    = (Ok (config, headers, None), s1)
    /\ suppressed
       = fallbackAuthError w (MCPCoordinator.the_server l) config
           (after_failure (MCPCoordinator.the_server l) s1 t e).

(** The same for the [try] block of [connect] on the configuration
    [config], whose first two phases give the locals, and for [connect]
    itself, which reads the configuration from the server object. *)
Definition suppressed_in_try (w : World) (server : MCPServer)
    (config : ServerConfig.t) (s : State)
    (t : Transport) (e : Error) (suppressed : option Error) : Prop :=
  exists l1 s1 l s2,
    MCPCoordinator.discoveryPhase w server config s = (Ok l1, s1)
    /\ MCPCoordinator.registrationPhase w l1 s1 = (Ok l, s2)
    /\ suppressed_in_phase w l s2 t e suppressed.

Definition suppressed_in_connect (w : World) (server : MCPServer) (s : State)
    (t : Transport) (e : Error) (suppressed : option Error) : Prop :=
  exists config,
    JSON_parse_config w (or_default (Some (Runtime.config server)) "{}")
    = ParseValue config
    /\ suppressed_in_try w server config s t e suppressed.

(** The ways in which a call may have tried to connect.  [evs] is what the
    call added to the trace, [r] its completion, [s'] the state it left;
    [failed_status] tells the status that a failure leaves in the
    registry, and [suppressed_after t e] which error, if any, was
    suppressed while the headers of the fallback were prepared, after the
    attempt on [t] had failed with [e]. *)
Inductive Attempts (w : World) (failed_status : Error -> ConnectionStatus)
    (suppressed_after : Transport -> Error -> option Error -> Prop)
    (serverId : string) (r : Result unit) (s' : State) : list Event -> Prop :=
| no_attempt evs :
    Forall (fun ev => is_fetch ev = true) evs ->
    Attempts w failed_status suppressed_after serverId r s' evs
| primary_connected pre t :
    Forall (fun ev => is_fetch ev = true) pre ->
    is_stateless t = false ->
    r = Ok tt ->
    status_of s' serverId = connected ->
    Attempts w failed_status suppressed_after serverId r s' (pre ++ [EvClientConnect t None])
| primary_failed pre t e :
    Forall (fun ev => is_fetch ev = true) pre ->
    is_stateless t = false ->
    TransportManager.isSSEConnectionError e = false ->
    r = Throw e ->
    status_of s' serverId = failed_status e ->
    Attempts w failed_status suppressed_after serverId r s' (pre ++ [EvClientConnect t (Some e)])
| fallback_connected pre t e mid t2 :
    Forall (fun ev => is_fetch ev = true) pre ->
    Forall (fun ev => is_fetch ev = true) mid ->
    is_stateless t = false ->
    TransportManager.isSSEConnectionError e = true ->
    is_stateless t2 = true ->
    r = Ok tt ->
    status_of s' serverId = connected ->
    Attempts w failed_status suppressed_after serverId r s'
      (pre ++ [EvClientConnect t (Some e)] ++ mid ++ [EvClientConnect t2 None])
| fallback_failed pre t e mid t2 e2 suppressed :
    Forall (fun ev => is_fetch ev = true) pre ->
    Forall (fun ev => is_fetch ev = true) mid ->
    is_stateless t = false ->
    TransportManager.isSSEConnectionError e = true ->
    is_stateless t2 = true ->
    suppressed_after t e suppressed ->
    r = Throw (MCPCoordinator.fallback_failure suppressed e2) ->
    status_of s' serverId
    = failed_status (MCPCoordinator.fallback_failure suppressed e2) ->
    Attempts w failed_status suppressed_after serverId r s'
      (pre ++ [EvClientConnect t (Some e)] ++ mid ++ [EvClientConnect t2 (Some e2)]).

End Observe.

(** ** Scenarios: concrete worlds and servers on which runs are computed *)

Module Scenarios.
Import Js Runtime.

(** A world given by its HTTP answers and by the answers of the SDK client
    to connection attempts; URLs are taken to be of the form
    [origin/path] with the origin up to the third slash. *)
Fixpoint split_url (slashes : nat) (s : string) : string * string :=
  match s with
  | EmptyString => (EmptyString, "/")
  | String c rest =>
      if Ascii.eqb c "/" then
        match slashes with
        | O => (EmptyString, s)
        | S n => let '(o, p) := split_url n rest in (String c o, p)
        end
      else let '(o, p) := split_url slashes rest in (String c o, p)
  end.

Definition parse_url (s : string) : option URL :=
  if String.prefix "http" s
  then let '(o, p) := split_url 2 s in Some (mkURL o p)
  else None.

Definition world_of (fetch : list Event -> Request -> FetchOutcome)
    (client_connect : list Event -> Transport -> option Error)
    (parse : string -> option ServerConfig.t) : World :=
  {| Runtime.fetch := fetch;
     Runtime.client_connect := client_connect;
     client_close := fun _ _ => None;
     client_callTool := fun _ _ _ _ => Ok (mkRaw (Some []) None);
     Date_now := fun t => 1000 * Z.of_nat (length t);
     new_URL := parse_url;
     JSON_parse_config :=
       fun text => match parse text with
                   | Some config => ParseValue config
                   | None => ParseThrows
                   end;
     JSON_stringify_config := fun _ => "{}";
     encodeURIComponent := fun s => s;
     process_env := Env.env_of None None None |}.

(** The configuration that the validation gives in these worlds. *)
Definition development : Env.EnvironmentConfig :=
  Env.mkEnvironmentConfig "development" "http://localhost:9002" None None None None.

(** The world [w] in a production deployment that names no application
    URL: the validation of the environment fails. *)
Definition in_production (w : World) : World :=
  {| Runtime.fetch := fetch w;
     Runtime.client_connect := Runtime.client_connect w;
     client_close := client_close w;
     client_callTool := client_callTool w;
     Date_now := Date_now w;
     new_URL := new_URL w;
     JSON_parse_config := JSON_parse_config w;
     JSON_stringify_config := JSON_stringify_config w;
     encodeURIComponent := encodeURIComponent w;
     process_env := Env.env_of (Some "production") None None |}.

(** The world [w] with a parser that reads every text as [null]. *)
Definition parsing_null (w : World) : World :=
  {| Runtime.fetch := fetch w;
     Runtime.client_connect := Runtime.client_connect w;
     client_close := client_close w;
     client_callTool := client_callTool w;
     Date_now := Date_now w;
     new_URL := new_URL w;
     JSON_parse_config := fun _ => ParseNull;
     JSON_stringify_config := JSON_stringify_config w;
     encodeURIComponent := encodeURIComponent w;
     process_env := process_env w |}.

Definition respond (status : Z) (www_authenticate : option string) (text : string)
    (json : JsonRead) : FetchOutcome :=
  FetchResponse (mkResponse status www_authenticate text json).

(** An authorization server that answers every token request with 401. *)
Definition refusing_world : World :=
  world_of (fun _ _ => respond 401 None "invalid_client" JsonNull)
    (fun _ _ => None) (fun _ => Some ServerConfig.empty).

Definition confidential_client : OAuth2Config.t :=
  {| OAuth2Config.clientId := Some "cid";
     OAuth2Config.clientSecret := Some "secret";
     OAuth2Config.tokenUrl := Some "https://as/token";
     OAuth2Config.authUrl := Some "https://as/authorize";
     OAuth2Config.registrationUrl := None;
     OAuth2Config.scope := None;
     OAuth2Config.scopes := None;
     OAuth2Config.autoDiscover := false |}.

(** An authorization server that renews the access token and sends no new
    refresh token. *)
Definition renewed : Json.Doc :=
  Json.token_set (Some "new-access") None (Some 120) None None.

Definition renewing_world : World :=
  world_of (fun _ _ => respond 200 None "{}" (JsonObject renewed))
    (fun _ _ => None) (fun _ => Some ServerConfig.empty).

(** A vault that holds an expired token with a refresh token for ["S1"]. *)
Definition expired_token : OAuth2Token :=
  {| access_token := Some "old-access";
     token_type := "Bearer";
     expires_in := 3600;
     expires_at := 0;
     refresh_token := Some "old-refresh" |}.

Definition vault_with_expired_token : State :=
  mkState ∅ {[ "S1" := expired_token ]} [].

(** A resource that needs no authentication. *)
Definition open_world : World :=
  world_of (fun _ _ => respond 200 None "ok" JsonNull)
    (fun _ _ => None) (fun _ => Some ServerConfig.empty).

(** A resource at [https://r/mcp] that answers 401 and publishes no
    metadata: every other request is answered with 404. *)
Definition protected_world : World :=
  world_of
    (fun _ req =>
       if String.eqb (req_url req) "https://r/mcp"
       then respond 401 (Some "Bearer") "" JsonNull
       else respond 404 None "" JsonNull)
    (fun _ _ => None) (fun _ => Some ServerConfig.empty).

(** The same resource publishing its metadata, which lists the scope
    [read] and names no authorization server. *)
Definition resource_metadata : Json.Doc :=
  Json.mkDoc None None (Some ["read"]) None None None None None None None None
    None None.


(** A server that offers no event stream: every attempt on a transport
    other than the stateless one fails with [e], the stateless one
    succeeds; nothing can be fetched. *)
Definition plain_config : ServerConfig.t :=
  {| ServerConfig.url := Some "https://r/mcp";
     ServerConfig.headers := None;
     ServerConfig.oauth2 := None |}.

Definition without_event_stream (e : Error) : World :=
  world_of (fun _ _ => FetchThrows (new_Error "fetch failed"))
    (fun _ t => if Observe.is_stateless t then None else Some e)
    (fun _ => Some plain_config).

(** The resource of [protected_world] behind an event stream: every
    request and every handshake is answered with 401. *)
Definition protected_stream_world (e : Error) : World :=
  world_of (fetch protected_world) (fun _ _ => Some e) (fun _ => Some plain_config).

Definition not_found : Error := new_Error "SSE error: Non-200 status code (404)".

Definition unauthorized : Error := new_Error "SSE error: Non-200 status code (401)".

Definition sse_server : MCPServer :=
  {| id := "S1"; name := "demo"; type := "sse"; config := "{}" |}.

(** A runtime whose JSON parser refuses the text of an unfinished object. *)
Definition strict_parser_world : World :=
  world_of (fun _ _ => FetchThrows (new_Error "fetch failed"))
    (fun _ _ => None)
    (fun text => if String.eqb text "{" then None else Some ServerConfig.empty).

(** A stdio server whose configuration text is cut short, and one whose
    configuration text is a JSON object. *)
Definition stdio_server : MCPServer :=
  {| id := "S2"; name := "local"; type := "stdio"; config := "{" |}.

Definition local_server : MCPServer :=
  {| id := "S3"; name := "local"; type := "stdio"; config := "{}" |}.

(** A registry in which ["S1"] is connected through an event stream. *)
Definition event_stream : Transport :=
  mkTransport SSEClientTransport "https://r/mcp" ∅.

Definition connected_state : State :=
  mkState
    {[ "S1" := mkConnection (Some (mkClient event_stream)) sse_server connected
                 None None ]}
    {[ "S1" := expired_token ]} [].

End Scenarios.

(** ** The authorization endpoint (app/api/mcp/oauth-authorize/route.ts) *)

Module AuthorizeRoute.
Import Js Base64 StateCodec.

(** An entry of the in-memory store [pkceStore]. *)
Record PKCEData := mkPKCEData {
  stored_verifier : string;
  stored_serverId : string;
  stored_createdAt : Z;
}.

Definition TEN_MINUTES : Z := 10 * 60 * 1000.

(** [cleanupExpiredEntries()], run at time [now]: the loop visits every
    entry of the store and deletes the expired ones from it. *)
Definition cleanupExpiredEntries (now : Z) (pkceStore : gmap string PKCEData)
    : gmap string PKCEData :=
  map_fold
    (fun key value store =>
       if now - stored_createdAt value >? TEN_MINUTES then delete key store
       else store)
    pkceStore pkceStore.

(** The members of the request body; [serverId] is taken to be a string. *)
Record Body := mkBody {
  authUrl : option string;
  clientId : option string;
  scope : option string;
  redirectUri : option string;
  serverId : string;
}.

(** The URL that [authorizationUrl.toString()] prints: the URL given, and
    the parameters appended to its query, in order. *)
Record AuthorizationUrl := mkAuthorizationUrl {
  base : string;
  appended : list (string * string);
}.

Inductive Reply :=
| Authorize (authorizationUrl : AuthorizationUrl) (state : string)
| BadRequest
| ServerError (e : Error).

Section Route.

(** The runtime's cryptography and serialisation, as in [StateCodec];
    [valid_URL] tells whether [new URL(s)] accepts [s]. *)
Variable key : list byte.
Variable aes_256_gcm_encrypt : list byte -> list byte -> list byte -> list byte * list byte.
Variable JSON_stringify : PKCEStateData -> string.
Variable utf8_encode : string -> list byte.
Variable sha256 : string -> list byte.
Variable valid_URL : string -> bool.

(** [POST(req)].  The three readings of [Date.now()] (in the clean-up, in
    [encodeState] and when the entry is stored) and the three draws of
    random bytes (for the verifier, the nonce and the initialisation
    vector) are arguments, and so are the [origin] header, the completion
    of [getEnvConfig()] and the body, which is [Throw] when [req.json()]
    throws.  The result is the reply and the store as the call leaves
    it. *)
Definition POST (now_cleanup now_state now_store : Z)
    (random_verifier random_nonce random_iv : list byte)
    (origin : option string) (getEnvConfig : Result Env.EnvironmentConfig)
    (body : Result Body)
    (pkceStore : gmap string PKCEData) : Reply * gmap string PKCEData :=
  let pkceStore := cleanupExpiredEntries now_cleanup pkceStore in
  match body with
  | Throw e => (ServerError e, pkceStore)
  | Ok body =>
      if negb (truthy (authUrl body)) || negb (truthy (clientId body)) then
        (BadRequest, pkceStore)
      else
        let verifier := generateCodeVerifier random_verifier in
        let challenge := generateCodeChallenge sha256 verifier in
        let state :=
          encodeState key aes_256_gcm_encrypt JSON_stringify utf8_encode
            random_nonce random_iv now_state verifier (serverId body) in
        let pkceStore :=
          <[state := mkPKCEData verifier (serverId body) now_store]> pkceStore in
        match getEnvConfig with
        | Throw e => (ServerError e, pkceStore)
        | Ok envConfig =>
            let fallbackOrigin := or_default origin (Env.appUrl envConfig) in
            let resolvedRedirect :=
              or_default (redirectUri body)
                (fallbackOrigin +:+ "/api/mcp/oauth-callback") in
            if valid_URL (default "" (authUrl body)) then
              (Authorize
                 {| base := default "" (authUrl body);
                    appended :=
                      [ ("response_type", "code");
                        ("client_id", default "" (clientId body));
                        ("redirect_uri", resolvedRedirect);
                        ("code_challenge", challenge);
                        ("code_challenge_method", "S256");
                        ("state", state);
                        ("scope", or_default (scope body) "openid email profile") ] |}
                 state,
               pkceStore)
            else (ServerError (new_Error "Invalid URL"), pkceStore)
        end
  end.

End Route.

End AuthorizeRoute.

(** ** The callback endpoint (app/api/mcp/oauth-callback/route.ts) *)

Module CallbackRoute.
Import Js StateCodec AuthorizeRoute.

(** The retrieval of the PKCE data in [GET(req)], given the [state]
    parameter of the request and [decodeState] as a function: the value
    of [pkceData] and the store as the retrieval leaves it. *)
Definition retrieve_pkce (decodeState : string -> Result (option PKCEStateData))
    (state : option string) (pkceStore : gmap string PKCEData)
    : Result (option (string * string)) * gmap string PKCEData :=
  if truthy state then
    let state := default "" state in
    match decodeState state with
    | Throw e => (Throw e, pkceStore)
    | Ok (Some decodedState) =>
        (Ok (Some (verifier decodedState, StateCodec.serverId decodedState)),
         pkceStore)
    | Ok None =>
        match pkceStore !! state with
        | Some stored =>
            (Ok (Some (stored_verifier stored, stored_serverId stored)),
             delete state pkceStore)
        | None => (Ok None, pkceStore)
        end
    end
  else (Ok None, pkceStore).

End CallbackRoute.

(** ** The token endpoint (app/api/mcp/oauth-token/route.ts) *)

Module TokenRoute.
Import Js Runtime.

(** The members of the request body. *)
Record Body := mkBody {
  tokenUrl : option string;
  code : option string;
  verifier : option string;
  clientId : option string;
  clientSecret : option string;
  redirectUri : option string;
}.

(** The replies: the token set with status 200, status 400, and status 500
    with the message of the error caught. *)
Inductive Reply :=
| TokenSet (tokenSet : Json.Doc)
| BadRequest
| ServerError (message : string).

(** Reading the body of a response a second time: the runtime rejects it
    with a [TypeError]. *)
Definition body_unusable : Error :=
  new_Error "Body is unusable: Body has already been read".

(** [params] before the client secret is appended. *)
Definition exchange_params (body : Body) (resolvedRedirect : string)
    : list (string * string) :=
  [ ("grant_type", "authorization_code");
    ("code", default "" (code body));
    ("client_id", default "" (clientId body));
    ("redirect_uri", resolvedRedirect) ]
  ++ (if truthy (verifier body)
      then [("code_verifier", default "" (verifier body))] else []).

(** The token set of the reply for the response body [tokenData]. *)
Definition exchanged_token_set (tokenData : Json.Doc) : Json.Doc :=
  Json.token_set
    (Json.access_token tokenData)
    (Some (or_default (Json.token_type tokenData) "Bearer"))
    (Some (OAuthHandler.expires_in_or_default (Json.expires_in tokenData)))
    (Json.refresh_token tokenData)
    (Json.scope tokenData).

(** The end of the [try] block once [response], [responseText] and the
    reading of the text are known. *)
Definition exchange_completion (response : Response) (responseText : string)
    (was_read : bool) : Result Reply :=
  if negb (ok response) then
    if String.eqb responseText "" then
      if was_read then Throw body_unusable
      else Throw (new_Error ("Token exchange failed: "
                             +:+ number_text (status response)
                             +:+ " - " +:+ text response))
    else Throw (new_Error ("Token exchange failed: "
                           +:+ number_text (status response)
                           +:+ " - " +:+ responseText))
  else
    match json response with
    | JsonThrows e => Throw e
    | JsonNull => Throw (new_Error "Cannot read properties of null")
    | JsonObject tokenData => Ok (TokenSet (exchanged_token_set tokenData))
    end.


(** [!tokenUrl || !code || !clientId] *)
Definition missing_parameters (body : Body) : bool :=
  negb (truthy (tokenUrl body)) || negb (truthy (code body))
  || negb (truthy (clientId body)).

Section WithWorld.
Variable w : World.

Definition resolved_redirect (appUrl : string) (origin : option string)
    (body : Body) : string :=
  let fallbackOrigin := or_default origin appUrl in
  or_default (redirectUri body) (fallbackOrigin +:+ "/api/mcp/oauth-callback").

(** The first request: HTTP-Basic credentials when there is a client
    secret and the client is not a public one. *)
Definition first_request (appUrl : string) (origin : option string) (body : Body)
    : Request :=
  let isPublicClient := truthy (verifier body) && negb (truthy (clientSecret body)) in
  let headers :=
    if truthy (clientSecret body) && negb isPublicClient then
      <[ "Authorization" :=
           "Basic " +:+ OAuthHandler.basic_credentials (clientId body)
                          (default "" (clientSecret body)) ]>
        OAuthHandler.form_headers
    else OAuthHandler.form_headers in
  mkRequest (default "" (tokenUrl body)) POST headers
    (FormBody (exchange_params body (resolved_redirect appUrl origin body))).

(** The second request: no credentials in the headers, the secret appended
    to the parameters. *)
Definition second_request (appUrl : string) (origin : option string) (body : Body)
    : Request :=
  mkRequest (default "" (tokenUrl body)) POST OAuthHandler.form_headers
    (FormBody (exchange_params body (resolved_redirect appUrl origin body)
               ++ [("client_secret", default "" (clientSecret body))])).

(** The [try] block of [POST(req)] after the body was read.  The middle
    step gives [response], [responseText] and whether the text of
    [response] has been read. *)
Definition POST_try (origin : option string) (body : Body) : M Reply :=
  if missing_parameters body then ret BadRequest
  else
    envConfig <- getEnvConfig w ;;
    let appUrl := Env.appUrl envConfig in
    response <- do_fetch w (first_request appUrl origin body) ;;
    r <- (if negb (ok response) && truthy (clientSecret body) then
            let responseText := text response in
            if (status response =? 401) || includes responseText "invalid_client" then
              response <- do_fetch w (second_request appUrl origin body) ;;
              if negb (ok response) then ret (response, text response, true)
              else ret (response, responseText, false)
            else ret (response, responseText, true)
          else ret (response, "", false)) ;;
    let '(response, responseText, was_read) := r in
    if negb (ok response) then
      responseText <-
        (if String.eqb responseText "" then
           if was_read : bool then throw body_unusable else ret (text response)
         else ret responseText) ;;
      throw (new_Error ("Token exchange failed: " +:+ number_text (status response)
                        +:+ " - " +:+ responseText))
    else
      tokenData <- read_json response ;;
      match tokenData with
      | None => throw (new_Error "Cannot read properties of null")
      | Some tokenData => ret (TokenSet (exchanged_token_set tokenData))
      end.

(** [POST(req)]; [body] is [Throw] when [req.json()] throws. *)
Definition POST (origin : option string) (body : Result Body) : M Reply :=
  try_catch
    (match body with
     | Ok body => POST_try origin body
     | Throw e => throw e
     end)
    (fun err => ret (ServerError (message err))).

End WithWorld.

End TokenRoute.

(** ** The handler of the discovery endpoint (discover-oauth/route.ts, [POST]) *)

Module DiscoverEndpoint.
Import Js Runtime.

(** The replies: status 400, status 404, status 206 with the scopes found,
    status 200 with the discovery, and status 500 with the details. *)
Inductive Reply :=
| BadRequest
| NotFound
| PartialDiscovery (scopesSupported : list string)
| Success (discovery : DiscoverRoute.OAuthDiscoveryResult)
| ServerError (details : string).

Definition status_code (reply : Reply) : Z :=
  match reply with
  | BadRequest => 400
  | NotFound => 404
  | PartialDiscovery _ => 206
  | Success _ => 200
  | ServerError _ => 500
  end.

(** [discovery.requiresAuth && !discovery.tokenEndpoint
     && !discovery.authorizationEndpoint] *)
Definition is_partial (discovery : DiscoverRoute.OAuthDiscoveryResult) : bool :=
  DiscoverRoute.requiresAuth discovery
  && negb (truthy (DiscoverRoute.tokenEndpoint discovery))
  && negb (truthy (DiscoverRoute.authorizationEndpoint discovery)).

Section WithWorld.
Variable w : World.

(** [POST(req)]; [body] is the member [baseUrl] of the request body, and
    [Throw] when [req.json()] throws. *)
Definition POST (body : Result (option string)) : M Reply :=
  try_catch
    (match body with
     | Throw e => throw e
     | Ok baseUrl =>
         if negb (truthy baseUrl) then ret BadRequest
         else
           discovery <- DiscoverRoute.discoverOAuthWithMultipleMethods w
                          (default "" baseUrl) ;;
           match discovery with
           | None => ret NotFound
           | Some discovery =>
               if is_partial discovery
               then ret (PartialDiscovery (DiscoverRoute.scopesSupported discovery))
               else ret (Success discovery)
           end
     end)
    (fun error =>
       ret (ServerError (if String.eqb (message error) "" then "Unknown error"
                         else message error))).

End WithWorld.

End DiscoverEndpoint.

(** ** The session hook (hooks/use-mcp-auth-session.ts): what
    [refreshStatus] computes from the answer of the backend *)

Module AuthSession.
Import Js Runtime.

Module MCPServerStatus.
Record t := mk {
  id : string;
  name : string;
  status : ConnectionStatus;
  error : option string;
  connectUrl : option string;
  hasToken : option bool;
}.
End MCPServerStatus.

(** The entry pushed for a server that the answer did not mention. *)
Definition absent (server : MCPServer) : MCPServerStatus.t :=
  MCPServerStatus.mk (Runtime.id server) (Runtime.name server) disconnected
    None None None.

(** The loop "include servers not in backend response": a server is pushed
    when no entry of the array, as it is by then, has its id. *)
Definition include_missing (mappedStatuses : list MCPServerStatus.t)
    (servers : list MCPServer) : list MCPServerStatus.t :=
  fold_left
    (fun mappedStatuses server =>
       if existsb (fun s => String.eqb (MCPServerStatus.id s) (Runtime.id server))
            mappedStatuses
       then mappedStatuses
       else mappedStatuses ++ [absent server])
    servers mappedStatuses.

(** [mappedStatuses] at the end of the [try] block; the [map] copies the
    six members of each status. *)
Definition mappedStatuses (servers : list MCPServer)
    (statuses : list MCPServerStatus.t) : list MCPServerStatus.t :=
  let serverIds : gset string := list_to_set (List.map Runtime.id servers) in
  include_missing
    (List.filter (fun s => bool_decide (MCPServerStatus.id s ∈ serverIds)) statuses)
    servers.

Definition is_auth_required (status : ConnectionStatus) : bool :=
  match status with auth_required => true | _ => false end.

Definition hasAuthRequired (mappedStatuses : list MCPServerStatus.t) : bool :=
  existsb (fun s => is_auth_required (MCPServerStatus.status s)) mappedStatuses.

Definition allConnected (mappedStatuses : list MCPServerStatus.t) : bool :=
  (0 <? length mappedStatuses)%nat
  && forallb (fun s => ConnectionManager.is_connected (MCPServerStatus.status s))
       mappedStatuses.

End AuthSession.

(** ** Fixtures: concrete stores and requests on which runs are computed *)

Module Fixtures.
Import Js Runtime StateCodec.

(** A store with an entry made at time 0 and one made at time 500000. *)
Definition two_entries : gmap string AuthorizeRoute.PKCEData :=
  {[ "old" := AuthorizeRoute.mkPKCEData "v1" "S1" 0;
     "new" := AuthorizeRoute.mkPKCEData "v2" "S2" 500000 ]}.

(** A request to the authorization endpoint, and a toy runtime for it:
    the cipher of [StateCodec]'s toy runtime, a digest that is always
    zero, and a serialiser that knows the one document of the request. *)
Definition authorize_body : AuthorizeRoute.Body :=
  {| AuthorizeRoute.authUrl := Some "https://as/authorize";
     AuthorizeRoute.clientId := Some "cid";
     AuthorizeRoute.scope := None;
     AuthorizeRoute.redirectUri := None;
     AuthorizeRoute.serverId := "S1" |}.

Definition zero_digest (text : string) : list byte := repeat x00 32.

Definition authorize_document : PKCEStateData :=
  {| verifier := generateCodeVerifier (repeat x2a 32);
     serverId := "S1";
     nonce := generateNonce (repeat x01 16);
     createdAt := 1000 |}.

Definition authorize_parse (s : string) : option PKCEStateData :=
  if String.eqb s (toy_stringify authorize_document)
  then Some authorize_document else None.

Definition authorized : AuthorizeRoute.Reply * gmap string AuthorizeRoute.PKCEData :=
  AuthorizeRoute.POST toy_key toy_encrypt toy_stringify list_byte_of_string
    zero_digest (fun _ => true) 1000 1000 1000
    (repeat x2a 32) (repeat x01 16) (repeat x07 16)
    None (Env.validateEnv (Env.env_of None None None)) (Ok authorize_body)
    two_entries.

Definition authorized_url : AuthorizeRoute.AuthorizationUrl :=
  match fst authorized with
  | AuthorizeRoute.Authorize url _ => url
  | _ => AuthorizeRoute.mkAuthorizationUrl "" []
  end.

Definition authorized_state : string :=
  match fst authorized with
  | AuthorizeRoute.Authorize _ state => state
  | _ => ""
  end.

(** A code exchange by a confidential client that also holds a PKCE
    verifier. *)
Definition confidential_exchange : TokenRoute.Body :=
  {| TokenRoute.tokenUrl := Some "https://as/token";
     TokenRoute.code := Some "code-1";
     TokenRoute.verifier := Some "verifier-1";
     TokenRoute.clientId := Some "cid";
     TokenRoute.clientSecret := Some "secret";
     TokenRoute.redirectUri := None |}.

(** A server whose configuration names a registered OAuth client, behind
    a network that cannot be reached. *)
Definition oauth_config : ServerConfig.t :=
  {| ServerConfig.url := Some "https://r/mcp";
     ServerConfig.headers := None;
     ServerConfig.oauth2 := Some Scenarios.confidential_client |}.

Definition configured_world : World :=
  Scenarios.world_of (fun _ _ => FetchThrows (new_Error "fetch failed"))
    (fun _ _ => None) (fun _ => Some oauth_config).

(** A server whose configuration names a client and an authorization URL
    but no token URL, with no event stream and a stateless endpoint that
    answers the handshake with 401; nothing can be fetched. *)
Definition unregistered_client : OAuth2Config.t :=
  {| OAuth2Config.clientId := Some "cid";
     OAuth2Config.clientSecret := None;
     OAuth2Config.tokenUrl := None;
     OAuth2Config.authUrl := Some "https://as/authorize";
     OAuth2Config.registrationUrl := None;
     OAuth2Config.scope := None;
     OAuth2Config.scopes := None;
     OAuth2Config.autoDiscover := false |}.

Definition guarded_config : ServerConfig.t :=
  {| ServerConfig.url := Some "https://r/mcp";
     ServerConfig.headers := None;
     ServerConfig.oauth2 := Some unregistered_client |}.

Definition guarded_world : World :=
  Scenarios.world_of (fun _ _ => FetchThrows (new_Error "fetch failed"))
    (fun _ t => if Observe.is_stateless t then Some Scenarios.unauthorized
                else Some Scenarios.not_found)
    (fun _ => Some guarded_config).

(** A resource at the origin [https://r] that publishes its metadata [prm]
    and the metadata of an authorization server, which lists the scope
    [admin]; every other request is answered with 404. *)
Definition server_metadata : Json.Doc :=
  Json.mkDoc None None (Some ["admin"]) (Some "https://r/token")
    (Some "https://r/authorize") None None None None None None None None.

Definition metadata_world (prm : Json.Doc) : World :=
  Scenarios.world_of
    (fun _ req =>
       if String.eqb (req_url req) "https://r/.well-known/oauth-protected-resource"
       then Scenarios.respond 200 None "" (JsonObject prm)
       else if String.eqb (req_url req)
                 "https://r/.well-known/oauth-authorization-server"
       then Scenarios.respond 200 None "" (JsonObject server_metadata)
       else Scenarios.respond 404 None "" JsonNull)
    (fun _ _ => None) (fun _ => Some ServerConfig.empty).

(** Resource metadata that names an authorization server by a host name. *)
Definition misnamed_server : Json.Doc :=
  Json.mkDoc (Some "as.example") None (Some ["read"]) None None None None None
    None None None None None.

(** Three statuses of the backend and two servers of the application. *)
Definition backend_statuses : list AuthSession.MCPServerStatus.t :=
  [ AuthSession.MCPServerStatus.mk "S1" "demo" connected None None (Some true);
    AuthSession.MCPServerStatus.mk "S9" "gone" auth_required None None None ].

Definition known_servers : list MCPServer :=
  [Scenarios.sse_server; Scenarios.local_server].

End Fixtures.

(** * Properties *)

(** ** Base64 round trip *)

Module Base64Facts.
Import Js Base64.

Lemma nbyte_to_N (b : byte) : nbyte (Byte.to_N b) = b.
Proof. unfold nbyte. now rewrite Byte.of_to_N. Qed.

Lemma sextet_enum (n : N) :
  (n < 64)%N -> In n (map N.of_nat (seq 0 64)).
Proof.
  intros Hn. apply in_map_iff. exists (N.to_nat n). split.
  - apply N2Nat.id.
  - apply in_seq. lia.
Qed.

Ltac each_sextet n H :=
  apply sextet_enum in H; cbn in H;
  repeat (destruct H as [<- | H]; [ | ]); [ .. | contradiction ].

Ltac divmod := zify; Z.to_euclidean_division_equations; lia.

Lemma sextets_digit (n : N) (rest : string) :
  (n < 64)%N -> sextets (String (char_of_sextet n) rest) = n :: sextets rest.
Proof. intros Hn. each_sextet n Hn; reflexivity. Qed.

Lemma bytes_group (n0 n1 n2 : N) :
  (n0 <= 255 -> n1 <= 255 -> n2 <= 255 ->
   (n0 / 4 < 64 /\ (n0 mod 4) * 16 + n1 / 16 < 64 /\
    (n1 mod 16) * 4 + n2 / 64 < 64 /\ n2 mod 64 < 64) /\
   (n0 / 4) * 4 + ((n0 mod 4) * 16 + n1 / 16) / 16 = n0 /\
   (((n0 mod 4) * 16 + n1 / 16) mod 16) * 16
     + ((n1 mod 16) * 4 + n2 / 64) / 4 = n1 /\
   (((n1 mod 16) * 4 + n2 / 64) mod 4) * 64 + n2 mod 64 = n2)%N.
Proof. intros. repeat split; divmod. Qed.

Lemma bytes_tail (n0 n1 : N) :
  (n0 <= 255 -> n1 <= 255 ->
   ((n0 mod 4) * 16 < 64 /\ (n1 mod 16) * 4 < 64) /\
   (n0 / 4) * 4 + ((n0 mod 4) * 16) / 16 = n0 /\
   (((n0 mod 4) * 16 + n1 / 16) mod 16) * 16 + ((n1 mod 16) * 4) / 4 = n1)%N.
Proof. intros. repeat split; divmod. Qed.

(** Induction on a buffer three bytes at a time. *)
Lemma buffer_ind3 (P : list byte -> Prop) :
  P [] -> (forall a, P [a]) -> (forall a b, P [a; b]) ->
  (forall a b c l, P l -> P (a :: b :: c :: l)) ->
  forall l, P l.
Proof.
  intros H0 H1 H2 H3 l.
  cut (P l /\ (forall a, P (a :: l)) /\ (forall a b, P (a :: b :: l))).
  { tauto. }
  induction l as [| x l (IH0 & IH1 & IH2)]; auto.
Qed.

Section View.

(** A reading of a Base64 text as digits: any composition of character
    substitutions with [sextets] that reads an alphabet character as its
    digit and stops at the padding. *)
Variable view : string -> list N.
Hypothesis view_digit :
  forall n rest, (n < 64)%N -> view (String (char_of_sextet n) rest) = n :: view rest.
Hypothesis view_end : view "" = [].
Hypothesis view_pad1 : view "=" = [].
Hypothesis view_pad2 : view "==" = [].

Lemma view_toString_base64 (buf : list byte) :
  bytes_of_sextets (view (toString_base64 buf)) = buf.
Proof.
  induction buf as [| a | a b | a b c l IH] using buffer_ind3.
  - cbn. now rewrite view_end.
  - pose proof (Byte.to_N_bounded a) as Ha.
    destruct (bytes_group (Byte.to_N a) 0 0 Ha) as ((S0 & _) & _); try lia.
    destruct (bytes_tail (Byte.to_N a) 0 Ha) as ((S1 & _) & E0 & _); try lia.
    cbn [toString_base64].
    rewrite !view_digit, view_pad2 by assumption.
    cbn [bytes_of_sextets]. now rewrite E0, nbyte_to_N.
  - pose proof (Byte.to_N_bounded a) as Ha.
    pose proof (Byte.to_N_bounded b) as Hb.
    destruct (bytes_group (Byte.to_N a) (Byte.to_N b) 0 Ha Hb)
      as ((S0 & S1 & _) & E0 & _); try lia.
    destruct (bytes_tail (Byte.to_N a) (Byte.to_N b) Ha Hb) as ((_ & S2) & _ & E1).
    cbn [toString_base64].
    rewrite !view_digit, view_pad1 by assumption.
    cbn [bytes_of_sextets]. now rewrite E0, E1, !nbyte_to_N.
  - pose proof (Byte.to_N_bounded a) as Ha.
    pose proof (Byte.to_N_bounded b) as Hb.
    pose proof (Byte.to_N_bounded c) as Hc.
    destruct (bytes_group (Byte.to_N a) (Byte.to_N b) (Byte.to_N c) Ha Hb Hc)
      as ((S0 & S1 & S2 & S3) & E0 & E1 & E2).
    cbn [toString_base64].
    rewrite !view_digit by assumption.
    cbn [bytes_of_sextets]. now rewrite E0, E1, E2, !nbyte_to_N, IH.
Qed.

End View.

(** [Buffer.from(buf.toString('base64'), 'base64')] gives [buf] back. *)
Lemma from_base64_toString (buf : list byte) :
  from_base64 (toString_base64 buf) = buf.
Proof.
  unfold from_base64.
  apply (view_toString_base64 sextets); auto using sextets_digit.
Qed.

End Base64Facts.

(** ** The state codec *)

Module StateCodecFacts.
Import Js Base64 Base64Facts StateCodec.

Lemma sextets_append_pad (s : string) : sextets (s +:+ "=") = sextets s.
Proof.
  induction s as [| c s IH]; [reflexivity |].
  simpl.
  destruct (Ascii.eqb c "="); [reflexivity |].
  destruct (sextet_of_char c); now rewrite IH.
Qed.

Lemma append_empty (s : string) : s +:+ "" = s.
Proof.
  induction s as [| c s IH]; [reflexivity |].
  change (String c (s +:+ "") = String c s). now rewrite IH.
Qed.

Lemma sextets_pad_loop (fuel : nat) (s : string) :
  sextets (pad_loop fuel s) = sextets s.
Proof.
  revert s. induction fuel as [| fuel IH]; intros s; [reflexivity |].
  cbn [pad_loop].
  destruct (Nat.eqb _ _); [reflexivity |].
  now rewrite IH, sextets_append_pad.
Qed.

(** The loop has stopped when its fuel is spent: the padded text has a
    length that is a multiple of four. *)
Lemma pad_loop_aligned (s : string) :
  (String.length (pad_loop 3 s) mod 4 = 0)%nat.
Proof.
  assert (Happ : forall t, String.length (t +:+ "=") = S (String.length t)).
  { intros t. induction t as [| c t IHt]; simpl; congruence. }
  cbn [pad_loop].
  repeat match goal with
  | |- context [Nat.eqb ?a 0] => destruct (Nat.eqb_spec a 0); [assumption |]
  end.
  rewrite !Happ in *.
  repeat match goal with H : (_ mod 4 <> _)%nat |- _ => revert H end.
  generalize (String.length s). clear. intros len.
  change (S (S (S len))) with (3 + len)%nat.
  change (S (S len)) with (2 + len)%nat.
  change (S len) with (1 + len)%nat.
  rewrite <- (Nat.Div0.add_mod_idemp_r 1 len 4),
    <- (Nat.Div0.add_mod_idemp_r 2 len 4),
    <- (Nat.Div0.add_mod_idemp_r 3 len 4).
  pose proof (Nat.mod_upper_bound len 4 ltac:(lia)) as Hr.
  revert Hr. generalize (len mod 4)%nat. intros r Hr.
  destruct r as [| [| [| [| r]]]]; cbn; lia.
Qed.

Lemma url_view_digit (n : N) (rest : string) :
  (n < 64)%N -> url_view (String (char_of_sextet n) rest) = n :: url_view rest.
Proof. intros Hn. each_sextet n Hn; reflexivity. Qed.

Lemma base64URL_round_trip (buffer : list byte) :
  base64URLDecode (base64URLEncode buffer) = buffer.
Proof.
  unfold base64URLDecode, base64URLEncode, from_base64.
  rewrite sextets_pad_loop.
  apply (view_toString_base64 url_view); auto using url_view_digit.
Qed.

(** The three slices that [decodeState] cuts cover the whole envelope. *)
Lemma slices_cover (combined : list byte) :
  subarray 0 16 combined ++ subarray 16 32 combined ++ subarray_from 32 combined
  = combined.
Proof.
  unfold subarray, subarray_from. cbn [Nat.sub skipn].
  replace (skipn 32 combined) with (skipn 16 (skipn 16 combined))
    by now rewrite skipn_skipn.
  rewrite (firstn_skipn 16 (skipn 16 combined)).
  apply firstn_skipn.
Qed.

Lemma slices_of_layout (iv authTag data : list byte) :
  length iv = 16%nat -> length authTag = 16%nat ->
  subarray 0 16 (iv ++ authTag ++ data) = iv /\
  subarray 16 32 (iv ++ authTag ++ data) = authTag /\
  subarray_from 32 (iv ++ authTag ++ data) = data.
Proof.
  intros Hiv Htag. unfold subarray, subarray_from.
  change (16 - 0)%nat with 16%nat. change (32 - 16)%nat with 16%nat.
  rewrite drop_0.
  repeat split.
  - now apply take_app_length'.
  - rewrite drop_app_length' by done. now apply take_app_length'.
  - rewrite app_assoc. apply drop_app_length'. rewrite length_app. lia.
Qed.

Section CodecFacts.

Context (key : list byte)
  (aes_256_gcm_encrypt : list byte -> list byte -> list byte -> list byte * list byte)
  (aes_256_gcm_decrypt : list byte -> list byte -> list byte -> list byte -> option (list byte))
  (JSON_stringify : PKCEStateData -> string)
  (JSON_parse : string -> option PKCEStateData)
  (utf8_encode : string -> list byte)
  (utf8_decode : list byte -> string).

Abbreviation encode := (encodeState key aes_256_gcm_encrypt JSON_stringify utf8_encode).
Abbreviation decode := (decodeState key aes_256_gcm_decrypt JSON_parse utf8_decode).
Abbreviation decrypt_slices combined :=
  (aes_256_gcm_decrypt key (subarray 0 16 combined) (subarray 16 32 combined)
     (subarray_from 32 combined)).

(** The opaque string carries exactly [iv ++ authTag ++ ciphertext]. *)
Lemma encodeState_layout random_nonce iv now v id ciphertext authTag :
  aes_256_gcm_encrypt key iv
    (utf8_encode (JSON_stringify
       {| verifier := v; serverId := id;
          nonce := generateNonce random_nonce; createdAt := now |}))
  = (ciphertext, authTag) ->
  base64URLDecode (encode random_nonce iv now v id) = iv ++ authTag ++ ciphertext.
Proof.
  intros Henc. unfold encodeState. rewrite Henc.
  rewrite base64URL_round_trip.
  change (toString_base64 []) with "".
  now rewrite append_empty, from_base64_toString.
Qed.

Lemma decodeState_never_throws now state :
  exists r, decode now state = Ok r.
Proof.
  unfold decodeState. destruct (decodeState_try _ _ _ _ _ _) as [r | e]; eauto.
Qed.

Lemma decodeState_rejected now state :
  decrypt_slices (base64URLDecode state) = None -> decode now state = Ok None.
Proof. intros H. unfold decodeState, decodeState_try. now rewrite H. Qed.

Lemma decodeState_unparsable now state plaintext :
  decrypt_slices (base64URLDecode state) = Some plaintext ->
  JSON_parse (utf8_decode plaintext) = None ->
  decode now state = Ok None.
Proof. intros H1 H2. unfold decodeState, decodeState_try. now rewrite H1, H2. Qed.

Lemma decodeState_expired now state plaintext data :
  decrypt_slices (base64URLDecode state) = Some plaintext ->
  JSON_parse (utf8_decode plaintext) = Some data ->
  now - createdAt data > TEN_MINUTES ->
  decode now state = Ok None.
Proof.
  intros H1 H2 Hold. unfold decodeState, decodeState_try. rewrite H1, H2.
  destruct (Z.gtb_spec (now - createdAt data) TEN_MINUTES); [reflexivity | lia].
Qed.

Lemma decodeState_fresh now state plaintext data :
  decrypt_slices (base64URLDecode state) = Some plaintext ->
  JSON_parse (utf8_decode plaintext) = Some data ->
  now - createdAt data <= TEN_MINUTES ->
  decode now state = Ok (Some data).
Proof.
  intros H1 H2 Hnew. unfold decodeState, decodeState_try. rewrite H1, H2.
  destruct (Z.gtb_spec (now - createdAt data) TEN_MINUTES); [lia | reflexivity].
Qed.

(** A character that the decoder skips at the head of a state. *)
Lemma base64URLDecode_skips (c : ascii) (state : string) :
  sextet_of_char c = None -> c <> "="%char ->
  base64URLDecode (String c state) = base64URLDecode state.
Proof.
  intros Hskip Hpad. unfold base64URLDecode, from_base64.
  rewrite !sextets_pad_loop. f_equal.
  assert (Hminus : Ascii.eqb c "-" = false).
  { destruct (Ascii.eqb_spec c "-") as [-> |]; [discriminate Hskip | reflexivity]. }
  assert (Hlow : Ascii.eqb c "_" = false).
  { destruct (Ascii.eqb_spec c "_") as [-> |]; [discriminate Hskip | reflexivity]. }
  cbn [replace_all]. rewrite Hminus. cbn [replace_all]. rewrite Hlow.
  cbn [sextets]. rewrite Hskip.
  destruct (Ascii.eqb_spec c "=") as [-> |]; [now elim Hpad | reflexivity].
Qed.

(** C1 (amended).  Decoding what [encodeState] produced no later than ten
    minutes after its creation gives an envelope with the same verifier
    and server id, provided the runtime's cipher decrypts what it
    encrypted and its JSON and UTF-8 codecs read back what they wrote.
    [decodeState] never throws, and it returns an envelope exactly when
    the cipher accepts the initialisation vector, the tag and the
    ciphertext that the decoder reads from the state, the plaintext is
    JSON and [createdAt] is at most ten minutes old; in every other case
    it returns [null].  An encoded envelope is read back byte for byte, and
    envelopes that differ in a byte put different triples before the
    cipher.  The text itself is not checked: a character outside the
    Base64 alphabet at the head of a state is skipped, so that such a
    state is decoded exactly as the state without it. *)
Theorem state_codec_round_trip_and_rejection :
  (forall v id random_nonce iv now now' ciphertext authTag,
      let data := {| verifier := v; serverId := id;
                     nonce := generateNonce random_nonce; createdAt := now |} in
      let plaintext := utf8_encode (JSON_stringify data) in
      length iv = 16%nat ->
      aes_256_gcm_encrypt key iv plaintext = (ciphertext, authTag) ->
      length authTag = 16%nat ->
      aes_256_gcm_decrypt key iv authTag ciphertext = Some plaintext ->
      JSON_parse (utf8_decode plaintext) = Some data ->
      now' - now <= TEN_MINUTES ->
      exists envelope,
        decode now' (encode random_nonce iv now v id) = Ok (Some envelope)
        /\ verifier envelope = v /\ serverId envelope = id)
  /\ (forall now state, exists r, decode now state = Ok r)
  /\ (forall now state data,
        decode now state = Ok (Some data)
        <-> exists plaintext,
              decrypt_slices (base64URLDecode state) = Some plaintext
              /\ JSON_parse (utf8_decode plaintext) = Some data
              /\ now - createdAt data <= TEN_MINUTES)
  /\ (forall now state,
        decrypt_slices (base64URLDecode state) = None ->
        decode now state = Ok None)
  /\ (forall now state plaintext,
        decrypt_slices (base64URLDecode state) = Some plaintext ->
        JSON_parse (utf8_decode plaintext) = None ->
        decode now state = Ok None)
  /\ (forall now state plaintext data,
        decrypt_slices (base64URLDecode state) = Some plaintext ->
        JSON_parse (utf8_decode plaintext) = Some data ->
        now - createdAt data > TEN_MINUTES ->
        decode now state = Ok None)
  /\ (forall combined combined',
        base64URLDecode (base64URLEncode combined) = combined
        /\ (combined' <> combined ->
            (subarray 0 16 combined', subarray 16 32 combined',
             subarray_from 32 combined')
            <> (subarray 0 16 combined, subarray 16 32 combined,
                subarray_from 32 combined)))
  /\ (forall now state c,
        sextet_of_char c = None -> c <> "="%char ->
        decode now (String c state) = decode now state).
Proof.
  split; [| split; [| split; [| split; [| split; [| split; [| split]]]]]].
  - intros v id random_nonce iv now now' ciphertext authTag data plaintext
      Hiv Henc Htag Hdec Hparse Hfresh.
    exists data. split; [| split; reflexivity].
    pose proof (encodeState_layout random_nonce iv now v id _ _ Henc) as Hlay.
    destruct (slices_of_layout iv authTag ciphertext Hiv Htag) as (S1 & S2 & S3).
    apply (decodeState_fresh now' _ plaintext data).
    + now rewrite Hlay, S1, S2, S3.
    + exact Hparse.
    + exact Hfresh.
  - apply decodeState_never_throws.
  - intros now state data. split.
    + unfold decodeState, decodeState_try.
      destruct (decrypt_slices (base64URLDecode state)) as [plaintext |];
        [| discriminate].
      destruct (JSON_parse (utf8_decode plaintext)) as [found |] eqn:Hparse;
        [| discriminate].
      destruct (Z.gtb_spec (now - createdAt found) TEN_MINUTES); [discriminate |].
      intros [= <-]. exists plaintext.
      split; [reflexivity |]. split; [exact Hparse | lia].
    + intros (plaintext & Hdec & Hparse & Hfresh).
      exact (decodeState_fresh now state plaintext data Hdec Hparse Hfresh).
  - apply decodeState_rejected.
  - apply decodeState_unparsable.
  - apply decodeState_expired.
  - intros combined combined'. split; [apply base64URL_round_trip |].
    intros Hne Heq. apply Hne.
    pose proof (slices_cover combined') as E'.
    pose proof (slices_cover combined) as E.
    revert Heq E E'.
    generalize (subarray 0 16 combined') (subarray 16 32 combined')
      (subarray_from 32 combined') (subarray 0 16 combined)
      (subarray 16 32 combined) (subarray_from 32 combined).
    congruence.
  - intros now state c Hskip Hpad. unfold decodeState, decodeState_try.
    now rewrite (base64URLDecode_skips c state Hskip Hpad).
Qed.

End CodecFacts.

(** The claim as stated fails: a state that is not URL-safe Base64 text
    is not refused for that.  The state below is an encoded state with a
    space before it; the decoder skips the space, whatever the cipher, and
    the envelope is returned. *)
Lemma malformed_state_is_accepted :
  ~ (forall key aes_256_gcm_decrypt JSON_parse utf8_decode now state,
       (exists c, In c (list_ascii_of_string state) /\ url_safe c = false) ->
       decodeState key aes_256_gcm_decrypt JSON_parse utf8_decode now state
       = Ok None).
Proof.
  intros H.
  specialize (H toy_key toy_decrypt toy_parse string_of_list_byte 2000
                (String " "
                   (encodeState toy_key toy_encrypt toy_stringify
                      list_byte_of_string [x01; x02] (repeat x07 16) 1000 "v" "s"))).
  assert (Hmalformed :
            exists c,
              In c (list_ascii_of_string
                      (String " "
                         (encodeState toy_key toy_encrypt toy_stringify
                            list_byte_of_string [x01; x02] (repeat x07 16) 1000
                            "v" "s")))
              /\ url_safe c = false).
  { exists " "%char. split; [now left | reflexivity]. }
  specialize (H Hmalformed). vm_compute in H. discriminate H.
Qed.

Lemma state_codec_round_trip_witness :
  (exists envelope,
     decodeState toy_key toy_decrypt toy_parse string_of_list_byte 601000
       (encodeState toy_key toy_encrypt toy_stringify list_byte_of_string
          [x01; x02] (repeat x07 16) 1000 "v" "s")
     = Ok (Some envelope)
     /\ verifier envelope = "v" /\ serverId envelope = "s")
  /\ decodeState toy_key toy_decrypt toy_parse string_of_list_byte 601001
       (encodeState toy_key toy_encrypt toy_stringify list_byte_of_string
          [x01; x02] (repeat x07 16) 1000 "v" "s") = Ok None
  /\ decodeState toy_key toy_decrypt toy_parse string_of_list_byte 2000 "" = Ok None
  /\ decodeState toy_key toy_decrypt toy_parse string_of_list_byte 2000
       (base64URLEncode (repeat x07 16 ++ repeat x2a 16 ++ [x7a; x7a])) = Ok None
  /\ decodeState toy_key toy_decrypt toy_parse string_of_list_byte 2000
       (base64URLEncode (repeat x07 16 ++ repeat x2b 16 ++ list_byte_of_string "v,s"))
     = Ok None
  /\ decodeState toy_key toy_decrypt toy_parse string_of_list_byte 2000
       (String " "
          (encodeState toy_key toy_encrypt toy_stringify list_byte_of_string
             [x01; x02] (repeat x07 16) 1000 "v" "s"))
     = decodeState toy_key toy_decrypt toy_parse string_of_list_byte 2000
         (encodeState toy_key toy_encrypt toy_stringify list_byte_of_string
            [x01; x02] (repeat x07 16) 1000 "v" "s").
Proof.
  pose proof (state_codec_round_trip_and_rejection toy_key toy_encrypt toy_decrypt
                toy_stringify toy_parse list_byte_of_string string_of_list_byte)
    as (Hround & _ & _ & Hrejected & Hunparsable & Hexpired & Hbytes & Hlenient).
  split; [| split; [| split; [| split; [| split]]]].
  - refine (Hround "v" "s" [x01; x02] (repeat x07 16) 1000 601000
              (list_byte_of_string "v,s") (repeat x2a 16) _ _ _ _ _ _);
      first [ vm_compute; reflexivity | unfold TEN_MINUTES; lia ].
  - refine (Hexpired 601001 _ (list_byte_of_string "v,s") toy_document _ _ _);
      first [ vm_compute; reflexivity ].
  - refine (Hrejected 2000 "" _). vm_compute. reflexivity.
  - refine (Hunparsable 2000 _ [x7a; x7a] _ _); vm_compute; reflexivity.
  - refine (Hrejected 2000 _ _).
    rewrite (proj1 (Hbytes (repeat x07 16 ++ repeat x2b 16
                            ++ list_byte_of_string "v,s") [])).
    vm_compute. reflexivity.
  - refine (Hlenient 2000 _ " "%char _ _); [reflexivity | discriminate].
Defined.

End StateCodecFacts.

(** ** Scope resolution *)

Module ScopesFacts.
Import Js Scopes.

Example split_ws_examples :
  split_ws "a b" = ["a"; "b"] /\ split_ws " a" = [""; "a"] /\
  split_ws "a  " = ["a"; ""] /\ split_ws "" = [""] /\
  words "read  write " = ["read"; "write"] /\ words "  " = [].
Proof. repeat split; reflexivity. Qed.

Lemma has_length_cons (o : option (list string)) :
  has_length o = true -> exists x l, o = Some (x :: l).
Proof. destruct o as [[| x l] |]; cbn; try discriminate; eauto. Qed.

(** The claim as stated fails: an empty array given as the user scope is
    returned as it is, although the header hint is the first source that
    is not empty. *)
Lemma resolveScopes_not_first_nonempty :
  ~ (forall input, resolveScopes input = first_nonempty_source input).
Proof.
  intros H.
  specialize (H {| userScope := Some (ScopeArray []);
                   headerScope := Some "c";
                   prmScopes := Some ["d"];
                   asmScopes := None;
                   registrationScopes := None |}).
  vm_compute in H. discriminate H.
Qed.

(** C2 (amended).  [resolveScopes] returns the first source that is
    present, in the order user scope, [WWW-Authenticate] hint, PRM, DCR,
    ASM, fallback.  A user scope is present when it is an array (even an
    empty one) or a non-empty string; the header hint when it is a non-empty
    string; a metadata list when it has an element.  A string is returned as
    its white-space separated words.  Whenever the source that is present
    first denotes at least one scope, this is the first non-empty source. *)
Theorem resolveScopes_priority :
  (forall input a,
      userScope input = Some (ScopeArray a) -> resolveScopes input = a)
  /\ (forall input s,
        userScope input = Some (ScopeString s) -> s <> "" ->
        resolveScopes input = words s)
  /\ (forall input h,
        user_truthy (userScope input) = false ->
        headerScope input = Some h -> h <> "" ->
        resolveScopes input = words h)
  /\ (forall input x l,
        user_truthy (userScope input) = false ->
        truthy (headerScope input) = false ->
        prmScopes input = Some (x :: l) ->
        resolveScopes input = x :: l)
  /\ (forall input x l,
        user_truthy (userScope input) = false ->
        truthy (headerScope input) = false ->
        has_length (prmScopes input) = false ->
        registrationScopes input = Some (x :: l) ->
        resolveScopes input = x :: l)
  /\ (forall input x l,
        user_truthy (userScope input) = false ->
        truthy (headerScope input) = false ->
        has_length (prmScopes input) = false ->
        has_length (registrationScopes input) = false ->
        asmScopes input = Some (x :: l) ->
        resolveScopes input = x :: l)
  /\ (forall input,
        user_truthy (userScope input) = false ->
        truthy (headerScope input) = false ->
        has_length (prmScopes input) = false ->
        has_length (registrationScopes input) = false ->
        has_length (asmScopes input) = false ->
        resolveScopes input = ["openid"; "email"; "profile"])
  /\ (forall input,
        (user_truthy (userScope input) = true ->
         scopes_of_user (userScope input) <> []) ->
        (user_truthy (userScope input) = false ->
         truthy (headerScope input) = true ->
         scopes_of_header (headerScope input) <> []) ->
        resolveScopes input = first_nonempty_source input)
  /\ (forall prm asm reg,
        resolveScopes {| userScope := Some (ScopeString "a b");
                         headerScope := Some "c";
                         prmScopes := Some ["d"];
                         asmScopes := asm;
                         registrationScopes := reg |} = ["a"; "b"]
        /\ resolveScopes {| userScope := None;
                            headerScope := Some "c";
                            prmScopes := prm;
                            asmScopes := asm;
                            registrationScopes := reg |} = ["c"]).
Proof.
  repeat apply conj.
  - intros input a Hu. unfold resolveScopes. now rewrite Hu.
  - intros input s Hu Hs. unfold resolveScopes. rewrite Hu. cbn.
    now destruct (String.eqb_spec s "").
  - intros input h Hu Hh Hne. unfold resolveScopes. rewrite Hu, Hh. cbn.
    now destruct (String.eqb_spec h "").
  - intros input x l Hu Hh Hp. unfold resolveScopes. now rewrite Hu, Hh, Hp.
  - intros input x l Hu Hh Hp Hr. unfold resolveScopes.
    now rewrite Hu, Hh, Hp, Hr.
  - intros input x l Hu Hh Hp Hr Ha. unfold resolveScopes.
    now rewrite Hu, Hh, Hp, Hr, Ha.
  - intros input Hu Hh Hp Hr Ha. unfold resolveScopes.
    now rewrite Hu, Hh, Hp, Hr, Ha.
  - intros [u h p a r] Hu Hh. unfold resolveScopes, first_nonempty_source.
    cbn [userScope headerScope prmScopes asmScopes registrationScopes] in *.
    destruct (user_truthy u) eqn:Eu.
    + specialize (Hu eq_refl).
      destruct u as [[s | ar] |]; cbn in Eu; try discriminate;
        cbn [scopes_of_user] in *.
      * destruct (words s); [congruence | reflexivity].
      * destruct ar; [congruence | reflexivity].
    + assert (scopes_of_user u = []) as ->.
      { destruct u as [[s | ar] |]; cbn in *; try discriminate; [| reflexivity].
        destruct (String.eqb_spec s ""); [now subst | discriminate]. }
      cbn [first_nonempty].
      destruct (truthy h) eqn:Eh.
      * specialize (Hh eq_refl eq_refl).
        destruct h as [s |]; [| discriminate Eh].
        cbn [scopes_of_header] in *. change (default "" (Some s)) with s.
        destruct (words s); [congruence | reflexivity].
      * assert (scopes_of_header h = []) as ->.
        { destruct h as [s |]; cbn in *; [| reflexivity].
          destruct (String.eqb_spec s ""); [now subst | discriminate]. }
        cbn [first_nonempty].
        destruct p as [[| x l] |], r as [[| y k] |], a as [[| z m] |];
          reflexivity.
  - intros prm asm reg. split; reflexivity.
Qed.

Lemma resolveScopes_priority_witness :
  resolveScopes (mkScopeInput (Some (ScopeArray [])) (Some "c") (Some ["d"]) None None)
  = []
  /\ resolveScopes (mkScopeInput (Some (ScopeString "a b")) (Some "c") None None None)
     = ["a"; "b"]
  /\ resolveScopes (mkScopeInput (Some (ScopeString "")) (Some "read write")
                      (Some ["d"]) None None)
     = ["read"; "write"]
  /\ resolveScopes (mkScopeInput None None (Some ["d"]) (Some ["e"]) (Some ["f"]))
     = ["d"]
  /\ resolveScopes (mkScopeInput None (Some "") (Some []) (Some ["e"]) (Some ["f"]))
     = ["f"]
  /\ resolveScopes (mkScopeInput None None None (Some ["e"]) None) = ["e"]
  /\ resolveScopes (mkScopeInput None None None None (Some []))
     = ["openid"; "email"; "profile"]
  /\ resolveScopes (mkScopeInput None (Some "c") (Some ["d"]) None None)
     = first_nonempty_source (mkScopeInput None (Some "c") (Some ["d"]) None None).
Proof.
  destruct resolveScopes_priority
    as (Harray & Hstring & Hheader & Hprm & Hreg & Hasm & Hfallback & Hfirst & _).
  repeat apply conj.
  - refine (Harray _ [] _); reflexivity.
  - refine (Hstring _ "a b" _ _); first [reflexivity | discriminate].
  - refine (Hheader _ "read write" _ _ _); first [reflexivity | discriminate].
  - refine (Hprm _ "d" [] _ _ _); reflexivity.
  - refine (Hreg _ "f" [] _ _ _ _); reflexivity.
  - refine (Hasm _ "e" [] _ _ _ _ _); reflexivity.
  - refine (Hfallback _ _ _ _ _ _); reflexivity.
  - apply Hfirst; cbn; discriminate.
Defined.

End ScopesFacts.

(** ** Computations *)

Module RuntimeFacts.
Import Js Runtime Observe.

Lemma bind_run {A B} (m : M A) (k : A -> M B) (s : State) :
  bind m k s =
  match m s with
  | (Ok a, s') => k a s'
  | (Throw e, s') => (Throw e, s')
  end.
Proof. reflexivity. Qed.

Lemma bind_ok {A B} (m : M A) (k : A -> M B) s a s' :
  m s = (Ok a, s') -> bind m k s = k a s'.
Proof. intros H. unfold bind. now rewrite H. Qed.

Lemma bind_throw {A B} (m : M A) (k : A -> M B) s e s' :
  m s = (Throw e, s') -> bind m k s = (Throw e, s').
Proof. intros H. unfold bind. now rewrite H. Qed.

Lemma try_catch_ok {A} (m : M A) h s a s' :
  m s = (Ok a, s') -> try_catch m h s = (Ok a, s').
Proof. intros H. unfold try_catch. now rewrite H. Qed.

Lemma try_catch_throw {A} (m : M A) h s e s' :
  m s = (Throw e, s') -> try_catch m h s = h e s'.
Proof. intros H. unfold try_catch. now rewrite H. Qed.

Lemma attempt_run {A} (m : M A) s :
  attempt m s = (Ok (fst (m s)), snd (m s)).
Proof. unfold attempt. now destruct (m s). Qed.


Lemma logged_app s evs evs' : logged (logged s evs) evs' = logged s (evs ++ evs').
Proof. unfold logged. cbn. now rewrite app_assoc. Qed.

Section Primitives.
Context (w : World).

Lemma do_fetch_run req s :
  do_fetch w req s =
  (match fetch w (trace s) req with
   | FetchResponse r => Ok r
   | FetchThrows e => Throw e
   end, logged s [EvFetch req (fetch w (trace s) req)]).
Proof.
  unfold do_fetch, bind, get_trace, log, logged.
  now destruct (fetch w (trace s) req).
Qed.

Lemma do_client_connect_run t s :
  do_client_connect w t s =
  (match client_connect w (trace s) t with
   | None => Ok tt
   | Some e => Throw e
   end, logged s [EvClientConnect t (client_connect w (trace s) t)]).
Proof.
  unfold do_client_connect, bind, get_trace, log, logged.
  now destruct (client_connect w (trace s) t).
Qed.

Lemma do_client_close_run c s :
  do_client_close w c s =
  (match client_close w (trace s) c with
   | None => Ok tt
   | Some e => Throw e
   end, logged s [EvClientClose c (client_close w (trace s) c)]).
Proof.
  unfold do_client_close, bind, get_trace, log, logged.
  now destruct (client_close w (trace s) c).
Qed.

Lemma do_callTool_run c n a s :
  do_callTool w c n a s =
  (client_callTool w (trace s) c n a,
   logged s [EvCallTool c n a (client_callTool w (trace s) c n a)]).
Proof.
  unfold do_callTool, bind, get_trace, log, logged.
  now destruct (client_callTool w (trace s) c n a).
Qed.

Lemma getEnvConfig_run s :
  getEnvConfig w s = (Env.validateEnv (process_env w), s).
Proof.
  unfold getEnvConfig, Env.getEnvConfig.
  now destruct (Env.validateEnv (process_env w)).
Qed.

End Primitives.

(** *** Computations that only fetch *)

Lemma quiet_weaken {A} (Q Q' : Result A -> Prop) (m : M A) :
  quiet Q m -> (forall r, Q r -> Q' r) -> quiet Q' m.
Proof.
  intros Hm HQ s. destruct (Hm s) as (evs & H1 & H2 & H3 & H4). eauto 10.
Qed.

Lemma quiet_ret {A} (Q : Result A -> Prop) (a : A) : Q (Ok a) -> quiet Q (ret a).
Proof.
  intros HQ s. exists []. cbn. rewrite app_nil_r. auto.
Qed.

Lemma quiet_throw {A} (Q : Result A -> Prop) (e : Error) :
  Q (Throw e) -> quiet Q (throw e).
Proof.
  intros HQ s. exists []. cbn. rewrite app_nil_r. auto.
Qed.

Lemma quiet_bind {A B} (P : Result A -> Prop) (Q : Result B -> Prop)
    (m : M A) (k : A -> M B) :
  quiet P m ->
  (forall a, P (Ok a) -> quiet Q (k a)) ->
  (forall e, P (Throw e) -> Q (Throw e)) ->
  quiet Q (bind m k).
Proof.
  intros Hm Hk He s. destruct (Hm s) as (evs & H1 & H2 & H3 & H4).
  unfold bind. destruct (m s) as [[a | e] s1]; cbn in *.
  - destruct (Hk a H4 s1) as (evs' & K1 & K2 & K3 & K4).
    exists (evs ++ evs'). rewrite K1, H1, app_assoc, K3, H3.
    repeat split; auto. now apply Forall_app.
  - exists evs. auto.
Qed.

Lemma quiet_try_catch {A} (P Q : Result A -> Prop) (m : M A) (h : Error -> M A) :
  quiet P m ->
  (forall a, P (Ok a) -> Q (Ok a)) ->
  (forall e, P (Throw e) -> quiet Q (h e)) ->
  quiet Q (try_catch m h).
Proof.
  intros Hm Ha Hh s. destruct (Hm s) as (evs & H1 & H2 & H3 & H4).
  unfold try_catch. destruct (m s) as [[a | e] s1]; cbn in *.
  - exists evs. auto.
  - destruct (Hh e H4 s1) as (evs' & K1 & K2 & K3 & K4).
    exists (evs ++ evs'). rewrite K1, H1, app_assoc, K3, H3.
    repeat split; auto. now apply Forall_app.
Qed.

Lemma quiet_attempt {A} (P : Result A -> Prop) (Q : Result (Result A) -> Prop)
    (m : M A) :
  quiet P m -> (forall r, P r -> Q (Ok r)) -> quiet Q (attempt m).
Proof.
  intros Hm HQ s. destruct (Hm s) as (evs & H1 & H2 & H3 & H4).
  rewrite attempt_run. cbn. exists evs. auto.
Qed.

Lemma quiet_do_fetch w req : quiet anything (do_fetch w req).
Proof.
  intros s. rewrite do_fetch_run. cbn.
  exists [EvFetch req (fetch w (trace s) req)]. repeat split; auto.
Qed.

Lemma quiet_get_tokens : quiet succeeds get_tokens.
Proof.
  intros s. exists []. cbn. rewrite app_nil_r.
  split; [reflexivity |]. split; [constructor |]. split; [reflexivity |].
  now eexists.
Qed.

Lemma quiet_attempt_succeeds {A} (m : M A) :
  quiet anything m -> quiet succeeds (attempt m).
Proof. intros Hm. eapply quiet_attempt; [exact Hm | intros r _; now exists r]. Qed.

Lemma succeeds_throw {A} (e : Error) (P : Prop) : succeeds (@Throw A e) -> P.
Proof. intros (a & H). discriminate H. Qed.

Lemma quiet_put_tokens t : quiet (fun r => r = Ok tt) (put_tokens t).
Proof. intros s. exists []. cbn. rewrite app_nil_r. repeat split; auto. Qed.

Lemma quiet_now w : quiet succeeds (now w).
Proof.
  intros s. exists []. cbn. rewrite app_nil_r.
  split; [reflexivity |]. split; [constructor |]. split; [reflexivity |].
  now eexists.
Qed.

Lemma quiet_getEnvConfig w : quiet anything (getEnvConfig w).
Proof.
  intros s. rewrite getEnvConfig_run. exists []. cbn. rewrite app_nil_r.
  repeat split; auto.
Qed.

Lemma quiet_read_json r : quiet anything (read_json r).
Proof.
  unfold read_json. destruct (json r);
    [apply quiet_throw | apply quiet_ret | apply quiet_ret]; exact I.
Qed.

Lemma quiet_construct_URL w o : quiet anything (construct_URL w o).
Proof.
  unfold construct_URL. destruct o as [u |]; [destruct (new_URL w u) |];
    [apply quiet_ret | apply quiet_throw | apply quiet_throw]; exact I.
Qed.

Lemma quiet_resolve_URL w p b : quiet anything (resolve_URL w p b).
Proof.
  unfold resolve_URL. eapply quiet_bind.
  - apply quiet_construct_URL.
  - intros a _. now apply quiet_ret.
  - intros; exact I.
Qed.

(** Chains of binds whose post-condition is [anything]. *)
Lemma quiet_bind_any {A B} (m : M A) (k : A -> M B) :
  quiet anything m -> (forall a, quiet anything (k a)) -> quiet anything (bind m k).
Proof.
  intros Hm Hk. eapply quiet_bind; [exact Hm | intros; apply Hk | intros; exact I].
Qed.

Lemma quiet_try_catch_any {A} (m : M A) (h : Error -> M A) :
  quiet anything m -> (forall e, quiet anything (h e)) ->
  quiet anything (try_catch m h).
Proof.
  intros Hm Hh. eapply quiet_try_catch;
    [exact Hm | intros; exact I | intros; apply Hh].
Qed.

Lemma quiet_attempt_any {A} (m : M A) :
  quiet anything m -> quiet anything (attempt m).
Proof. intros Hm. eapply quiet_attempt; [exact Hm | intros; exact I]. Qed.

Lemma quiet_any {A} (Q : Result A -> Prop) (m : M A) :
  quiet Q m -> quiet anything m.
Proof. intros H. eapply quiet_weaken; [exact H | intros; exact I]. Qed.

Create HintDb quiet.
#[export] Hint Resolve quiet_do_fetch quiet_read_json quiet_construct_URL
  quiet_resolve_URL quiet_getEnvConfig : quiet.
#[export] Hint Extern 1 (quiet anything get_tokens) =>
  apply (quiet_any _ _ quiet_get_tokens) : quiet.
#[export] Hint Extern 1 (quiet anything (ret _)) => apply quiet_ret; exact I : quiet.
#[export] Hint Extern 1 (quiet anything (throw _)) => apply quiet_throw; exact I : quiet.
#[export] Hint Extern 1 (quiet anything (put_tokens _)) =>
  apply (quiet_any _ _ (quiet_put_tokens _)) : quiet.
#[export] Hint Extern 1 (quiet anything (now _)) =>
  apply (quiet_any _ _ (quiet_now _)) : quiet.

(** Decompose a computation along its structure. *)
Ltac quiet_step :=
  match goal with
  | |- quiet anything (bind _ _) => apply quiet_bind_any; [| intros ?]
  | |- quiet anything (try_catch _ _) => apply quiet_try_catch_any; [| intros ?]
  | |- quiet anything (attempt _) => apply quiet_attempt_any
  | |- quiet anything (if ?b then _ else _) => destruct b
  | |- quiet anything (match ?x with _ => _ end) => destruct x
  | |- quiet anything (let '(_, _) := ?x in _) => destruct x
  | |- quiet anything _ => solve [auto with quiet]
  end.

Ltac quiet_auto := repeat quiet_step.

End RuntimeFacts.

(** ** The token vault *)

Module TokenFacts.
Import Js Runtime Observe RuntimeFacts OAuthHandler.

Section WithWorld.
Context (w : World).

Lemma getRedirectUri_run s :
  getRedirectUri w s
  = (match Env.validateEnv (process_env w) with
     | Ok envConfig => Ok (Env.redirect_uri envConfig)
     | Throw e => Throw e
     end, s).
Proof.
  unfold getRedirectUri. rewrite bind_run, getEnvConfig_run.
  now destruct (Env.validateEnv (process_env w)).
Qed.

Lemma require_authorization_run {A} cfg s :
  require_authorization (A := A) w cfg s = (Throw (refusal w cfg), s).
Proof.
  unfold require_authorization, refusal.
  destruct (truthy (OAuth2Config.authUrl cfg) && truthy (OAuth2Config.clientId cfg));
    [| reflexivity].
  rewrite bind_run, getRedirectUri_run.
  now destruct (Env.validateEnv (process_env w)).
Qed.

(** In a valid environment [refusal] is the authorization error, and
    without an authorization URL or a client id it is so in every
    environment; otherwise it is the error of the environment. *)
Lemma refusal_cases cfg :
  (forall envConfig,
      Env.validateEnv (process_env w) = Ok envConfig ->
      refusal w cfg = authorization_required w (Env.redirect_uri envConfig) cfg)
  /\ (truthy (OAuth2Config.authUrl cfg) && truthy (OAuth2Config.clientId cfg) = false ->
      refusal w cfg = new_Error authMessage)
  /\ (forall e,
        Env.validateEnv (process_env w) = Throw e ->
        truthy (OAuth2Config.authUrl cfg) && truthy (OAuth2Config.clientId cfg) = true ->
        refusal w cfg = e).
Proof.
  unfold refusal, authorization_required. split; [| split].
  - intros envConfig ->.
    now destruct (truthy (OAuth2Config.authUrl cfg)
                  && truthy (OAuth2Config.clientId cfg)).
  - now intros ->.
  - now intros e -> ->.
Qed.

Lemma setOAuth2Token_run serverId tokenData s :
  setOAuth2Token w serverId tokenData s =
  (Ok tt,
   mkState (connections s)
     (<[serverId := token_of (Date_now w (trace s)) tokenData]> (oauth2Tokens s))
     (trace s)).
Proof. reflexivity. Qed.

Lemma completion_run refreshToken response (s : State) :
  (if negb (ok response) then
     throw (new_Error ("Token refresh failed: "
                       +:+ number_text (status response) +:+ " " +:+ text response))
   else
     tokenData <- read_json response ;;
     match tokenData with
     | None => throw (new_Error "Cannot read properties of null")
     | Some tokenData => ret (refreshed_token_set refreshToken tokenData)
     end) s
  = (refresh_completion refreshToken response, s).
Proof.
  unfold refresh_completion, read_json. destruct (negb (ok response)); [reflexivity |].
  now destruct (json response).
Qed.

(** The run of [refreshToken], step by step. *)
Lemma refreshToken_run rt cfg s :
  refreshToken w rt cfg s =
  if negb (truthy (OAuth2Config.tokenUrl cfg)) then
    (Throw (new_Error "OAuth token URL not configured"), s)
  else
    let o1 := fetch w (trace s) (refresh_request rt cfg) in
    let s1 := logged s [EvFetch (refresh_request rt cfg) o1] in
    match o1 with
    | FetchThrows e => (Throw e, s1)
    | FetchResponse r1 =>
        if negb (ok r1) && truthy (OAuth2Config.clientSecret cfg) then
          if rejects_client r1 then
            let o2 := fetch w (trace s1) (refresh_retry_request rt cfg) in
            let s2 := logged s [EvFetch (refresh_request rt cfg) o1;
                                EvFetch (refresh_retry_request rt cfg) o2] in
            match o2 with
            | FetchThrows e => (Throw e, s2)
            | FetchResponse r2 => (refresh_completion rt r2, s2)
            end
          else
            (Throw (new_Error ("Token refresh failed: "
                               +:+ number_text (status r1) +:+ " " +:+ text r1)), s1)
        else (refresh_completion rt r1, s1)
    end.
Proof.
  unfold refreshToken.
  destruct (negb (truthy (OAuth2Config.tokenUrl cfg))); [reflexivity |].
  rewrite bind_run, do_fetch_run. cbv zeta.
  destruct (fetch w (trace s) (refresh_request rt cfg)) as [r1 | e1]; [| reflexivity].
  rewrite bind_run.
  destruct (negb (ok r1) && truthy (OAuth2Config.clientSecret cfg)).
  - destruct (rejects_client r1); [| reflexivity].
    rewrite do_fetch_run, logged_app. cbn [app].
    destruct (fetch w _ (refresh_retry_request rt cfg)) as [r2 | e2]; [| reflexivity].
    apply completion_run.
  - cbn [ret]. apply completion_run.
Qed.


(** The run of the handler's [getOAuth2TokenHeader]. *)
Lemma getOAuth2TokenHeader_run serverId cfg s :
  getOAuth2TokenHeader w serverId cfg s =
  match oauth2Tokens s !! serverId with
  | Some tok =>
      if expires_at tok >? Date_now w (trace s) + 60000 then
        (Ok (token_type tok +:+ " " +:+ show (access_token tok)), s)
      else if truthy (refresh_token tok) && truthy (OAuth2Config.tokenUrl cfg) then
        match refreshToken w (default "" (refresh_token tok)) cfg s with
        | (Ok tokenData, s1) =>
            (Ok (or_default (Json.token_type tokenData) "Bearer"
                 +:+ " " +:+ show (Json.access_token tokenData)),
             mkState (connections s1)
               (<[serverId := token_of (Date_now w (trace s1)) tokenData]>
                  (oauth2Tokens s1))
               (trace s1))
        | (Throw _, s1) => (Throw (refusal w cfg), s1)
        end
      else (Throw (refusal w cfg), s)
  | None => (Throw (refusal w cfg), s)
  end.
Proof.
  unfold getOAuth2TokenHeader.
  rewrite bind_run. cbn [get_tokens]. rewrite bind_run. unfold now at 1.
  rewrite bind_run. cbn [get_trace ret].
  destruct (oauth2Tokens s !! serverId) as [tok |];
    [| apply require_authorization_run].
  destruct (expires_at tok >? _); [reflexivity |].
  rewrite bind_run.
  destruct (truthy (refresh_token tok) && truthy (OAuth2Config.tokenUrl cfg));
    [| apply require_authorization_run].
  unfold try_catch. rewrite bind_run.
  destruct (refreshToken w _ cfg s) as [[tokenData | e] s1];
    [| apply require_authorization_run].
  rewrite bind_run, setOAuth2Token_run. reflexivity.
Qed.




Lemma manager_getOAuth2TokenHeader_run serverId cfg s :
  McpManager.getOAuth2TokenHeader w serverId cfg s =
  match oauth2Tokens s !! serverId with
  | Some tok =>
      if expires_at tok >? Date_now w (trace s) + 60000 then
        (Ok (token_type tok +:+ " " +:+ show (access_token tok)), s)
      else if truthy (refresh_token tok) && truthy (OAuth2Config.tokenUrl cfg) then
        match McpManager.refresh_inline w serverId (default "" (refresh_token tok)) cfg s with
        | (Ok (Some header), s1) => (Ok header, s1)
        | (Ok None, s1) => (Throw (refusal w cfg), s1)
        | (Throw _, s1) => (Throw (refusal w cfg), s1)
        end
      else (Throw (refusal w cfg), s)
  | None => (Throw (refusal w cfg), s)
  end.
Proof.
  unfold McpManager.getOAuth2TokenHeader.
  rewrite bind_run. cbn [get_tokens]. rewrite bind_run. unfold now at 1.
  rewrite bind_run. cbn [get_trace ret].
  destruct (oauth2Tokens s !! serverId) as [tok |];
    [| apply require_authorization_run].
  destruct (expires_at tok >? _); [reflexivity |].
  rewrite bind_run.
  destruct (truthy (refresh_token tok) && truthy (OAuth2Config.tokenUrl cfg));
    [| apply require_authorization_run].
  unfold try_catch.
  destruct (McpManager.refresh_inline w serverId _ cfg s) as [[[h |] | e] s1];
    [reflexivity | apply require_authorization_run | apply require_authorization_run].
Qed.

End WithWorld.





(** A refresh that succeeds returns the token set made from the body of the
    last response. *)
Lemma refreshToken_ok (w : World) rt cfg s tokenSet s' :
  refreshToken w rt cfg s = (Ok tokenSet, s') ->
  exists req response tokenData,
    last (trace s') = Some (EvFetch req (FetchResponse response))
    /\ ok response = true
    /\ json response = JsonObject tokenData
    /\ tokenSet = refreshed_token_set rt tokenData
    /\ connections s' = connections s /\ oauth2Tokens s' = oauth2Tokens s.
Proof.
  assert (Hc : forall response, refresh_completion rt response = Ok tokenSet ->
            exists tokenData, ok response = true
              /\ json response = JsonObject tokenData
              /\ tokenSet = refreshed_token_set rt tokenData).
  { intros response. unfold refresh_completion.
    destruct (ok response); cbn; [| discriminate].
    destruct (json response); try discriminate. intros [= <-]. eauto. }
  rewrite refreshToken_run.
  destruct (negb (truthy (OAuth2Config.tokenUrl cfg))); [discriminate |].
  cbv zeta.
  destruct (fetch w (trace s) (refresh_request rt cfg)) as [r1 | e1] eqn:E1;
    [| discriminate].
  destruct (negb (ok r1) && truthy (OAuth2Config.clientSecret cfg)).
  - destruct (rejects_client r1); [| discriminate].
    destruct (fetch w _ (refresh_retry_request rt cfg)) as [r2 | e2] eqn:E2;
      [| discriminate].
    intros [= Hr <-]. destruct (Hc _ Hr) as (td & ? & ? & ?).
    exists (refresh_retry_request rt cfg), r2, td. cbn.
    rewrite last_app. cbn. auto 10.
  - intros [= Hr <-]. destruct (Hc _ Hr) as (td & ? & ? & ?).
    exists (refresh_request rt cfg), r1, td. cbn.
    rewrite last_app. cbn. auto 10.
Qed.

(** The claim as stated fails: [setOAuth2Token] stores the refresh token of
    the response as it is, so a response without one erases the refresh
    token that was stored before. *)
Lemma setOAuth2Token_forgets_refresh_token :
  ~ (forall (w : World) serverId tokenData s previous,
       oauth2Tokens s !! serverId = Some previous ->
       Json.refresh_token tokenData = None ->
       exists token,
         oauth2Tokens (snd (setOAuth2Token w serverId tokenData s)) !! serverId
         = Some token
         /\ refresh_token token = refresh_token previous).
Proof.
  intros H.
  destruct (H Scenarios.refusing_world "S1" Scenarios.renewed
              Scenarios.vault_with_expired_token Scenarios.expired_token)
    as (token & Hlookup & Hkept); [reflexivity | reflexivity |].
  rewrite setOAuth2Token_run in Hlookup. cbn in Hlookup.
  rewrite lookup_insert_eq in Hlookup. injection Hlookup as <-.
  discriminate Hkept.
Qed.

(** C5 (amended).  [setOAuth2Token] stores, under the server id and
    without touching any other entry, a record that expires
    [expires_in] seconds after the time of the call (3600 seconds when
    [expires_in] is absent or zero) and that holds the refresh token of the
    response as it is.  The previous refresh token is kept by the refresh
    path of the handler's [getOAuth2TokenHeader]: [refreshToken] puts it
    into the token set when the response has none, before the token set is
    stored. *)
Theorem token_store_set (w : World) :
  (forall serverId tokenData s,
      let s' := snd (setOAuth2Token w serverId tokenData s) in
      let seconds :=
        match Json.expires_in tokenData with
        | Some n => if n =? 0 then 3600 else n
        | None => 3600
        end in
      fst (setOAuth2Token w serverId tokenData s) = Ok tt
      /\ (exists token,
            oauth2Tokens s' !! serverId = Some token
            /\ expires_at token = Date_now w (trace s) + seconds * 1000
            /\ expires_in token = seconds
            /\ access_token token = Json.access_token tokenData
            /\ refresh_token token = Json.refresh_token tokenData)
      /\ (forall other, other <> serverId ->
            oauth2Tokens s' !! other = oauth2Tokens s !! other)
      /\ connections s' = connections s /\ trace s' = trace s)
  /\ (forall serverId cfg s previous header s',
        oauth2Tokens s !! serverId = Some previous ->
        expires_at previous <= Date_now w (trace s) + 60000 ->
        getOAuth2TokenHeader w serverId cfg s = (Ok header, s') ->
        exists req response tokenData token,
          last (trace s') = Some (EvFetch req (FetchResponse response))
          /\ json response = JsonObject tokenData
          /\ oauth2Tokens s' !! serverId = Some token
          /\ refresh_token token
             = (if truthy (Json.refresh_token tokenData)
                then Json.refresh_token tokenData
                else refresh_token previous)
          /\ access_token token = Json.access_token tokenData).
Proof.
  split.
  - intros serverId tokenData s s' seconds. subst s'.
    rewrite setOAuth2Token_run. cbn.
    assert (Hsec : expires_in_or_default (Json.expires_in tokenData) = seconds).
    { subst seconds. unfold expires_in_or_default.
      destruct (Json.expires_in tokenData) as [[| p | p] |]; reflexivity. }
    repeat split.
    + eexists. rewrite lookup_insert_eq. split; [reflexivity |].
      cbn. now rewrite Hsec.
    + intros other Hne. now rewrite lookup_insert_ne.
  - intros serverId cfg s previous header s' Hprev Hexpired.
    rewrite getOAuth2TokenHeader_run, Hprev.
    destruct (Z.gtb_spec (expires_at previous) (Date_now w (trace s) + 60000));
      [lia |].
    destruct (truthy (refresh_token previous)) eqn:Hrt; [| discriminate]. cbn [andb].
    destruct (truthy (OAuth2Config.tokenUrl cfg)); [| discriminate].
    destruct (refreshToken w _ cfg s) as [[tokenSet | e] s1] eqn:Hrun; [| discriminate].
    intros [= <- <-].
    destruct (refreshToken_ok w _ cfg s tokenSet s1 Hrun)
      as (req & response & tokenData & Hlast & _ & Hjson & -> & _ & _).
    exists req, response, tokenData. eexists. cbn.
    split; [exact Hlast |]. split; [exact Hjson |].
    rewrite lookup_insert_eq. split; [reflexivity |]. cbn. split; [| reflexivity].
    unfold or_else. destruct (truthy (Json.refresh_token tokenData)); [reflexivity |].
    destruct (refresh_token previous) as [rt |]; [reflexivity | discriminate].
Qed.

Lemma token_store_set_witness :
  exists token,
    oauth2Tokens
      (snd (getOAuth2TokenHeader Scenarios.renewing_world "S1"
              Scenarios.confidential_client Scenarios.vault_with_expired_token))
    !! "S1" = Some token
    /\ refresh_token token = Some "old-refresh"
    /\ access_token token = Some "new-access".
Proof.
  destruct (proj2 (token_store_set Scenarios.renewing_world) "S1"
              Scenarios.confidential_client Scenarios.vault_with_expired_token
              Scenarios.expired_token
              (match fst (getOAuth2TokenHeader Scenarios.renewing_world "S1"
                            Scenarios.confidential_client
                            Scenarios.vault_with_expired_token) with
               | Ok h => h
               | Throw _ => ""
               end)
              (snd (getOAuth2TokenHeader Scenarios.renewing_world "S1"
                      Scenarios.confidential_client
                      Scenarios.vault_with_expired_token)))
    as (req & response & tokenData & token & Hlast & Hjson & Htok & Hrt & Hat).
  - reflexivity.
  - vm_compute. discriminate.
  - vm_compute. reflexivity.
  - exists token. split; [exact Htok |].
    vm_compute in Hlast. injection Hlast as _ <-.
    vm_compute in Hjson. injection Hjson as <-.
    split; [exact Hrt | exact Hat].
Defined.

End TokenFacts.

(** ** Discovery *)

Module DiscoveryFacts.
Import Js Runtime Observe RuntimeFacts.

Section WithWorld.
Context (w : World).

Lemma construct_URL_run u url s :
  new_URL w u = Some url -> construct_URL w (Some u) s = (Ok url, s).
Proof. intros H. unfold construct_URL. now rewrite H. Qed.


(** C7.  When the unauthenticated probe of the resource is answered with
    status 200, the discovery returns [null] and the probe is the only
    request it has sent; this holds for the handler and for the manager. *)
Theorem probe_200_returns_null serverUrl s url response :
  new_URL w serverUrl = Some url ->
  fetch w (trace s) (OAuthHandler.get serverUrl) = FetchResponse response ->
  status response = 200 ->
  let probe := EvFetch (OAuthHandler.get serverUrl) (FetchResponse response) in
  OAuthHandler.discoverOAuthConfiguration w serverUrl s = (Ok None, logged s [probe])
  /\ McpManager.discoverOAuthConfiguration w serverUrl s = (Ok None, logged s [probe])
  /\ requests (new_events s (logged s [probe])) = [OAuthHandler.get serverUrl].
Proof.
  intros Hurl Hfetch Hstatus probe.
  assert (Hok : ok response = true) by (unfold ok; now rewrite Hstatus).
  assert (Hrun : forall probe_step,
    probe_step serverUrl s = (Ok OAuthHandler.ProbeReturnsNull, logged s [probe]) ->
    OAuthHandler.discover_with w probe_step serverUrl s = (Ok None, logged s [probe])).
  { intros probe_step Hstep. unfold OAuthHandler.discover_with.
    rewrite bind_run, (construct_URL_run _ _ _ Hurl).
    unfold try_catch. now rewrite bind_run, Hstep. }
  split; [| split].
  - apply Hrun. unfold OAuthHandler.probe_resource, try_catch.
    rewrite bind_run, do_fetch_run, Hfetch, Hstatus, Hok. reflexivity.
  - apply Hrun. unfold McpManager.probe_resource, try_catch.
    rewrite bind_run, do_fetch_run, Hfetch, Hstatus, Hok. reflexivity.
  - unfold new_events, logged. cbn [trace].
    now rewrite drop_app_length.
Qed.







End WithWorld.

Lemma probe_200_returns_null_witness :
  OAuthHandler.discoverOAuthConfiguration Scenarios.open_world "https://r/mcp" initial
  = (Ok None,
     logged initial
       [EvFetch (OAuthHandler.get "https://r/mcp")
          (Scenarios.respond 200 None "ok" JsonNull)]).
Proof.
  refine (proj1 (probe_200_returns_null Scenarios.open_world "https://r/mcp" initial
                   (mkURL "https://r" "/mcp")
                   (mkResponse 200 None "ok" JsonNull) _ _ _));
    reflexivity.
Defined.




End DiscoveryFacts.

(** ** The connection registry *)

Module ConnectionFacts.
Import Js Runtime Observe RuntimeFacts.

Section WithWorld.
Context (w : World).

Lemma new_events_logged s evs : new_events s (logged s evs) = evs.
Proof. unfold new_events, logged. cbn [trace]. apply drop_app_length. Qed.

Lemma new_events_same s : new_events s s = [].
Proof. unfold new_events. apply drop_all. Qed.

Lemma getConnectionStatus_run serverId s :
  ConnectionManager.getConnectionStatus serverId s = (Ok (status_of s serverId), s).
Proof.
  unfold ConnectionManager.getConnectionStatus, status_of.
  rewrite bind_run. cbn [get_connections].
  now destruct (connections s !! serverId).
Qed.

(** [closeConnection] closes the client when the record has one, swallows
    the failure of [close], and removes the record. *)
Lemma closeConnection_run serverId s :
  ConnectionManager.closeConnection w serverId s =
  (Ok tt,
   match connections s !! serverId with
   | Some {| client := Some c |} =>
       mkState (delete serverId (connections s)) (oauth2Tokens s)
         (trace s ++ [EvClientClose c (client_close w (trace s) c)])
   | _ => mkState (delete serverId (connections s)) (oauth2Tokens s) (trace s)
   end).
Proof.
  unfold ConnectionManager.closeConnection.
  rewrite bind_run. cbn [get_connections]. rewrite bind_run.
  destruct (connections s !! serverId) as [[[c |] srv st er cu] |]; try reflexivity.
  unfold try_catch. rewrite do_client_close_run.
  now destruct (client_close w (trace s) c).
Qed.

Lemma disconnect_run serverId s :
  MCPCoordinator.disconnect w serverId s =
  (Ok tt,
   mkState (delete serverId (connections s)) (delete serverId (oauth2Tokens s))
     (trace s ++
      match connections s !! serverId with
      | Some {| client := Some c |} => [EvClientClose c (client_close w (trace s) c)]
      | _ => []
      end)).
Proof.
  unfold MCPCoordinator.disconnect.
  rewrite bind_run, closeConnection_run.
  destruct (connections s !! serverId) as [[[c |] srv st er cu] |]; cbn;
    rewrite ?app_nil_r; reflexivity.
Qed.

(** C9.  [disconnect] never fails.  It removes the connection record and
    the token record of the id, so that the status of the id is
    [disconnected] afterwards, and it closes the client of the record when
    there is one.  On an id without a record it sends nothing and leaves
    the registry as it was, and it leaves the whole state as it was when
    the id has no token either; disconnecting a second time changes
    nothing. *)
Theorem disconnect_idempotent serverId s :
  let s' := snd (MCPCoordinator.disconnect w serverId s) in
  fst (MCPCoordinator.disconnect w serverId s) = Ok tt
  /\ connections s' = delete serverId (connections s)
  /\ oauth2Tokens s' = delete serverId (oauth2Tokens s)
  /\ oauth2Tokens s' !! serverId = None
  /\ fst (MCPCoordinator.getConnectionStatus serverId s') = Ok disconnected
  /\ (forall connection c,
        connections s !! serverId = Some connection ->
        client connection = Some c ->
        new_events s s' = [EvClientClose c (client_close w (trace s) c)])
  /\ (connections s !! serverId = None ->
      new_events s s' = [] /\ connections s' = connections s)
  /\ (connections s !! serverId = None -> oauth2Tokens s !! serverId = None ->
      s' = s)
  /\ MCPCoordinator.disconnect w serverId s' = (Ok tt, s').
Proof.
  intros s'. subst s'. rewrite disconnect_run. cbn [fst snd].
  repeat apply conj.
  - reflexivity.
  - reflexivity.
  - reflexivity.
  - cbn. apply lookup_delete_eq.
  - unfold MCPCoordinator.getConnectionStatus. rewrite getConnectionStatus_run.
    unfold status_of. cbn. now rewrite lookup_delete_eq.
  - intros connection c Hc Hclient. rewrite Hc.
    destruct connection as [cl srv st er cu]. cbn in Hclient. subst cl.
    apply (new_events_logged s).
  - intros Hnone. rewrite Hnone. split.
    + apply (new_events_logged s).
    + cbn. now apply delete_id.
  - intros Hnone Htok. rewrite Hnone, app_nil_r.
    rewrite (delete_id _ _ Hnone), (delete_id _ _ Htok). now destruct s.
  - rewrite disconnect_run. cbn [connections oauth2Tokens trace].
    rewrite lookup_delete_eq, app_nil_r, !delete_delete_eq. reflexivity.
Qed.

Lemma callTool_run toolName args serverId s :
  ConnectionManager.callTool w toolName args serverId s =
  match connections s !! serverId with
  | Some {| client := Some c; conn_status := connected |} =>
      (match client_callTool w (trace s) c toolName args with
       | Ok result =>
           Ok {| ConnectionManager.content := default [] (raw_content result);
                 ConnectionManager.isError := default false (raw_isError result) |}
       | Throw e => Throw e
       end,
       logged s [EvCallTool c toolName args (client_callTool w (trace s) c toolName args)])
  | _ => (Throw (ConnectionManager.not_connected serverId), s)
  end.
Proof.
  unfold ConnectionManager.callTool. rewrite bind_run. cbn [get_connections].
  destruct (connections s !! serverId) as [[[c |] srv st er cu] |]; try reflexivity.
  destruct st; try reflexivity. cbn [ConnectionManager.is_connected].
  unfold try_catch. rewrite bind_run, do_callTool_run.
  now destruct (client_callTool w (trace s) c toolName args).
Qed.

Lemma manager_callTool_rejects toolName args serverId s :
  status_of s serverId <> connected ->
  exists e, McpManager.callTool w toolName args (Some serverId) s = (Throw e, s).
Proof.
  unfold status_of, McpManager.callTool. intros Hst.
  destruct (truthy (Some serverId)); [| eauto].
  rewrite bind_run. cbn [get_connections].
  change (default "" (Some serverId)) with serverId.
  destruct (connections s !! serverId) as [conn |]; [| eauto].
  destruct (conn_status conn); try (now contradiction Hst); cbn; eauto.
Qed.

(** C8.  [callTool] on a server id whose record is absent or not in the
    [connected] state fails with the not-connected error and leaves the
    state, its trace included, as it was; a tool is invoked only through
    the client of a record in the [connected] state.  The facade of the
    coordinator and the method of the manager reject the same calls, also
    without sending anything. *)
Theorem callTool_requires_connection toolName args serverId s :
  (status_of s serverId <> connected ->
   ConnectionManager.callTool w toolName args serverId s
   = (Throw (ConnectionManager.not_connected serverId), s)
   /\ (exists e, MCPCoordinator.callTool w toolName args serverId s = (Throw e, s))
   /\ (exists e, McpManager.callTool w toolName args (Some serverId) s = (Throw e, s)))
  /\ (forall c name a outcome,
        In (EvCallTool c name a outcome)
           (new_events s (snd (ConnectionManager.callTool w toolName args serverId s))) ->
        exists connection,
          connections s !! serverId = Some connection
          /\ conn_status connection = connected
          /\ client connection = Some c)
  /\ (new_events s (snd (ConnectionManager.callTool w toolName args serverId s)) = []
      \/ exists c outcome,
           new_events s (snd (ConnectionManager.callTool w toolName args serverId s))
           = [EvCallTool c toolName args outcome]).
Proof.
  split; [| split].
  - intros Hst.
    assert (Hcm : ConnectionManager.callTool w toolName args serverId s
                  = (Throw (ConnectionManager.not_connected serverId), s)).
    { rewrite callTool_run. unfold status_of in Hst.
      destruct (connections s !! serverId) as [[[c |] srv st er cu] |]; try reflexivity.
      cbn in Hst. destruct st; try reflexivity. now contradiction Hst. }
    split; [exact Hcm |]. split.
    + unfold MCPCoordinator.callTool.
      destruct (String.eqb serverId ""); [eauto | rewrite Hcm; eauto].
    + now apply manager_callTool_rejects.
  - intros c name a outcome. rewrite callTool_run.
    destruct (connections s !! serverId) as [[[c' |] srv st er cu] |];
      try (cbn [snd]; rewrite new_events_same; intros []).
    destruct st; try (cbn [snd]; rewrite new_events_same; intros []).
    cbn [snd]. rewrite new_events_logged. intros [[= <- <- <- <-] | []]. eauto.
  - rewrite callTool_run.
    destruct (connections s !! serverId) as [[[c' |] srv st er cu] |];
      try (cbn [snd]; rewrite new_events_same; now left).
    destruct st; try (cbn [snd]; rewrite new_events_same; now left).
    cbn [snd]. rewrite new_events_logged. right. eauto.
Qed.

End WithWorld.

Lemma disconnect_idempotent_witness :
  new_events Scenarios.connected_state
    (snd (MCPCoordinator.disconnect Scenarios.open_world "S1" Scenarios.connected_state))
  = [EvClientClose (mkClient Scenarios.event_stream) None]
  /\ snd (MCPCoordinator.disconnect Scenarios.open_world "S9" initial) = initial.
Proof.
  pose proof (disconnect_idempotent Scenarios.open_world "S1" Scenarios.connected_state)
    as H1.
  pose proof (disconnect_idempotent Scenarios.open_world "S9" initial) as H9.
  cbv zeta in H1, H9.
  destruct H1 as (_ & _ & _ & _ & _ & Hclose & _).
  destruct H9 as (_ & _ & _ & _ & _ & _ & _ & Hsame & _).
  split.
  - exact (Hclose _ (mkClient Scenarios.event_stream) eq_refl eq_refl).
  - exact (Hsame eq_refl eq_refl).
Defined.

Lemma callTool_requires_connection_witness :
  ConnectionManager.callTool Scenarios.open_world "echo" "{}" "S1" initial
  = (Throw (ConnectionManager.not_connected "S1"), initial)
  /\ exists connection,
       connections Scenarios.connected_state !! "S1" = Some connection
       /\ conn_status connection = connected
       /\ client connection = Some (mkClient Scenarios.event_stream).
Proof.
  split.
  - refine (proj1 (proj1 (callTool_requires_connection Scenarios.open_world
                            "echo" "{}" "S1" initial) _)).
    vm_compute. discriminate.
  - refine (proj1 (proj2 (callTool_requires_connection Scenarios.open_world
                            "echo" "{}" "S1" Scenarios.connected_state))
              (mkClient Scenarios.event_stream) "echo" "{}"
              (Ok (mkRaw (Some []) None)) _).
    vm_compute. left. reflexivity.
Defined.

End ConnectionFacts.

(** ** The coordinator *)

Module CoordinatorFacts.
Import Js Runtime Observe RuntimeFacts.

Section WithWorld.
Context (w : World).

(** *** What happens before a transport is created only fetches *)

Lemma quiet_probe_resource serverUrl :
  quiet anything (OAuthHandler.probe_resource w serverUrl).
Proof. unfold OAuthHandler.probe_resource. quiet_auto. Qed.

Lemma quiet_find_prm candidates : quiet anything (OAuthHandler.find_prm w candidates).
Proof.
  induction candidates as [| candidate rest IH]; cbn [OAuthHandler.find_prm];
    [quiet_auto |].
  apply quiet_bind_any; [quiet_auto |].
  intros [[prm |] | e]; [quiet_auto | exact IH | exact IH].
Qed.

Lemma quiet_fetch_auth_meta authServer :
  quiet anything (OAuthHandler.fetch_auth_meta w authServer).
Proof. unfold OAuthHandler.fetch_auth_meta. quiet_auto. Qed.

Lemma quiet_discover serverUrl :
  quiet anything (OAuthHandler.discoverOAuthConfiguration w serverUrl).
Proof.
  unfold OAuthHandler.discoverOAuthConfiguration, OAuthHandler.discover_with.
  apply quiet_bind_any; [quiet_auto |]. intros url.
  apply quiet_try_catch_any; [| intros ?; quiet_auto].
  apply quiet_bind_any; [apply quiet_probe_resource |].
  intros [| h m a]; [quiet_auto |].
  apply quiet_bind_any; [apply quiet_find_prm |].
  intros [prm |]; [| quiet_auto].
  apply quiet_bind_any; [apply quiet_fetch_auth_meta |].
  intros authMeta. quiet_auto.
Qed.

Lemma quiet_getRedirectUri : quiet anything (OAuthHandler.getRedirectUri w).
Proof. unfold OAuthHandler.getRedirectUri. quiet_auto. Qed.

Lemma quiet_registerDynamicClient registrationUrl scopes :
  quiet anything (OAuthHandler.registerDynamicClient w registrationUrl scopes).
Proof.
  unfold OAuthHandler.registerDynamicClient.
  apply quiet_try_catch_any; [| intros ?; quiet_auto].
  apply quiet_bind_any; [apply quiet_getRedirectUri |]. intros redirectUri.
  quiet_auto.
Qed.

Lemma quiet_require_authorization {A} cfg (Q : Result A -> Prop) :
  Q (Throw (refusal w cfg)) ->
  quiet Q (OAuthHandler.require_authorization w cfg).
Proof.
  intros HQ s. rewrite TokenFacts.require_authorization_run.
  exists []. cbn. rewrite app_nil_r. auto.
Qed.

Lemma quiet_refreshToken rt cfg : quiet anything (OAuthHandler.refreshToken w rt cfg).
Proof. unfold OAuthHandler.refreshToken. quiet_auto. Qed.

Lemma quiet_setOAuth2Token serverId tokenData :
  quiet anything (OAuthHandler.setOAuth2Token w serverId tokenData).
Proof. unfold OAuthHandler.setOAuth2Token. quiet_auto. Qed.

Lemma quiet_getOAuth2TokenHeader serverId cfg :
  quiet (only_authorization_required w cfg)
    (OAuthHandler.getOAuth2TokenHeader w serverId cfg).
Proof.
  unfold OAuthHandler.getOAuth2TokenHeader.
  eapply quiet_bind; [apply quiet_get_tokens | | intros e H; apply (succeeds_throw _ _ H)].
  intros tokens _.
  eapply quiet_bind; [apply quiet_now | | intros e H; apply (succeeds_throw _ _ H)].
  intros now _.
  destruct (tokens !! serverId) as [tok |].
  2:{ apply quiet_require_authorization. now intros e [= <-]. }
  destruct (expires_at tok >? now + 60000).
  { apply quiet_ret. intros e [=]. }
  eapply (quiet_bind succeeds).
  - destruct (truthy (refresh_token tok) && truthy (OAuth2Config.tokenUrl cfg)).
    + eapply quiet_try_catch.
      * apply quiet_bind_any; [apply quiet_refreshToken |]. intros tokenData.
        apply quiet_bind_any; [apply quiet_setOAuth2Token |]. intros _. quiet_auto.
      * intros a _. now exists a.
      * intros e _. apply quiet_ret. now eexists.
    + apply quiet_ret. now eexists.
  - intros [header |] _.
    + apply quiet_ret. intros e [=].
    + apply quiet_require_authorization. now intros e [= <-].
  - intros e H. apply (succeeds_throw _ _ H).
Qed.

Lemma quiet_discoveryPhase server config :
  quiet (fun r => forall l, r = Ok l -> id (MCPCoordinator.the_server l) = id server)
    (MCPCoordinator.discoveryPhase w server config).
Proof.
  unfold MCPCoordinator.discoveryPhase.
  destruct (_ && _).
  2:{ apply quiet_ret. now intros l [= <-]. }
  eapply (quiet_bind anything).
  - destruct (ServerConfig.url config); [apply quiet_discover | quiet_auto].
  - intros [d |] _.
    + destruct (_ || _); apply quiet_ret; now intros l [= <-].
    + apply quiet_ret. now intros l [= <-].
  - intros e _ l [=].
Qed.

Lemma quiet_registrationPhase l :
  quiet (fun r => forall l', r = Ok l' ->
                  id (MCPCoordinator.the_server l') = id (MCPCoordinator.the_server l))
    (MCPCoordinator.registrationPhase w l).
Proof.
  unfold MCPCoordinator.registrationPhase.
  destruct (MCPCoordinator.discoveredAuth l) as [d |].
  2:{ apply quiet_ret. now intros l' [= <-]. }
  destruct (_ && _).
  2:{ apply quiet_ret. now intros l' [= <-]. }
  eapply (quiet_bind anything).
  - apply quiet_registerDynamicClient.
  - intros [creds |] _.
    + destruct (ServerConfig.oauth2 _).
      * apply quiet_ret. now intros l' [= <-].
      * apply quiet_throw. intros l' [=].
    + apply quiet_ret. now intros l' [= <-].
  - intros e _ l' [=].
Qed.

(** [prepareHeaders] never throws; an authorization error is suppressed
    only when the configuration has an [oauth2] member. *)
Lemma quiet_prepareHeaders serverId config :
  quiet (fun r => exists config' headers primaryAuthError,
                    r = Ok (config', headers, primaryAuthError)
                    /\ ServerConfig.url config' = ServerConfig.url config
                    /\ (is_Some primaryAuthError ->
                        is_Some (ServerConfig.oauth2 config')))
    (MCPCoordinator.prepareHeaders w serverId config).
Proof.
  unfold MCPCoordinator.prepareHeaders.
  destruct (ServerConfig.oauth2 config) as [oauth2 |] eqn:Hoauth.
  2:{ apply quiet_ret. do 3 eexists. split; [reflexivity |]. split; [reflexivity |].
      intros [? [=]]. }
  destruct (truthy (OAuth2Config.tokenUrl oauth2)).
  2:{ apply quiet_ret. do 3 eexists. split; [reflexivity |]. split; [reflexivity |].
      intros [? [=]]. }
  eapply (quiet_bind succeeds).
  - apply quiet_attempt_succeeds. apply (quiet_any _ _ (quiet_getOAuth2TokenHeader _ _)).
  - intros [authHeader | e] _.
    + unfold MCPCoordinator.set_authorization.
      apply quiet_ret. do 3 eexists. split; [reflexivity |].
      split; [now destruct (ServerConfig.headers config) |]. intros [? [=]].
    + apply quiet_ret. do 3 eexists. split; [reflexivity |]. split; [reflexivity |].
      intros _. rewrite Hoauth. now eexists.
  - intros e H. apply (succeeds_throw _ _ H).
Qed.

(** [prepareFallbackHeaders] never throws, and the error it suppresses is
    the one that [getOAuth2TokenHeader] throws. *)
Lemma quiet_prepareFallbackHeaders server config :
  quiet (fun r => exists headers fallbackAuthError,
                    r = Ok (headers, fallbackAuthError))
    (MCPCoordinator.prepareFallbackHeaders w server config).
Proof.
  unfold MCPCoordinator.prepareFallbackHeaders.
  destruct (ServerConfig.oauth2 config) as [oauth2 |].
  2:{ apply quiet_ret. eauto. }
  eapply (quiet_bind succeeds).
  - apply quiet_attempt_succeeds.
    apply (quiet_any _ _ (quiet_getOAuth2TokenHeader _ _)).
  - intros [authHeader | e] _; apply quiet_ret; eauto.
  - intros e H. apply (succeeds_throw _ _ H).
Qed.

Lemma prepareFallbackHeaders_run server config s :
  exists headers,
    fst (MCPCoordinator.prepareFallbackHeaders w server config s)
    = Ok (headers, fallbackAuthError w server config s).
Proof.
  unfold MCPCoordinator.prepareFallbackHeaders, fallbackAuthError.
  destruct (ServerConfig.oauth2 config) as [oauth2 |]; [| cbn; eauto].
  rewrite bind_run, attempt_run.
  destruct (OAuthHandler.getOAuth2TokenHeader w (id server) oauth2 s)
    as [[authHeader | e] s1]; cbn; eauto.
Qed.

(** *** Connection attempts *)

Lemma not_connected_yet s serverId :
  status_of s serverId <> connected ->
  ConnectionManager.already_connected (connections s !! serverId) = None.
Proof.
  unfold status_of, ConnectionManager.already_connected.
  destruct (connections s !! serverId) as [c |]; [| reflexivity].
  destruct (conn_status c); try reflexivity. intros H. now contradiction H.
Qed.

Lemma establishConnection_run server transport s :
  ConnectionManager.already_connected (connections s !! id server) = None ->
  ConnectionManager.establishConnection w server transport s =
  match client_connect w (trace s) transport with
  | None =>
      (Ok (mkConnection (Some (mkClient transport)) server connected None None),
       mkState
         (<[id server := mkConnection (Some (mkClient transport)) server connected
                           None None]> (connections s))
         (oauth2Tokens s) (trace s ++ [EvClientConnect transport None]))
  | Some e =>
      (Throw e,
       mkState
         (<[id server := mkConnection (Some (mkClient transport)) server Runtime.error
                           (Some (message e)) None]> (connections s))
         (oauth2Tokens s) (trace s ++ [EvClientConnect transport (Some e)]))
  end.
Proof.
  intros Hnot. unfold ConnectionManager.establishConnection.
  rewrite bind_run. cbn [get_connections]. rewrite Hnot.
  rewrite bind_run. cbn [put_connections].
  unfold try_catch. rewrite bind_run, do_client_connect_run.
  destruct (client_connect w _ transport) as [e |]; cbn;
    now rewrite insert_insert_eq.
Qed.

Lemma status_of_insert conns tokens tr serverId connection :
  status_of (mkState (<[serverId := connection]> conns) tokens tr) serverId
  = conn_status connection.
Proof. unfold status_of. cbn. now rewrite lookup_insert_eq. Qed.

(** The fallback makes exactly one connection attempt, on a stateless
    transport, after having fetched at most what a token refresh needs. *)
Lemma fallback_run server config url u s :
  ServerConfig.url config = Some url ->
  new_URL w url = Some u ->
  status_of s (id server) <> connected ->
  exists mid t2 outcome,
    let r := fst (MCPCoordinator.fallback w server config s) in
    let s' := snd (MCPCoordinator.fallback w server config s) in
    trace s' = trace s ++ mid ++ [EvClientConnect t2 outcome]
    /\ Forall (fun ev => is_fetch ev = true) mid
    /\ is_stateless t2 = true
    /\ match outcome with
       | None => r = Ok tt /\ status_of s' (id server) = connected
       | Some e2 =>
           r = Throw (MCPCoordinator.fallback_failure
                        (fallbackAuthError w server config s) e2)
           /\ status_of s' (id server) = Runtime.error
       end.
Proof.
  intros Hurl Hu Hstatus.
  unfold MCPCoordinator.fallback. rewrite bind_run.
  destruct (quiet_prepareFallbackHeaders server config s)
    as (mid & Htrace & Hmid & Hconns & (headers & suppressed & Hr)).
  destruct (prepareFallbackHeaders_run server config s) as (headers' & Hsup).
  destruct (MCPCoordinator.prepareFallbackHeaders w server config s) as [r1 s1].
  cbn [fst snd] in *. subst r1. injection Hsup as _ Hsup. subst suppressed.
  cbn [fst snd].
  unfold TransportManager.createStatelessHTTPTransport.
  rewrite !bind_run, Hurl, (DiscoveryFacts.construct_URL_run _ _ _ _ Hu).
  cbn [ret]. unfold try_catch. rewrite bind_run.
  rewrite establishConnection_run.
  2:{ apply not_connected_yet. unfold status_of in *. now rewrite Hconns. }
  set (t2 := mkTransport StatelessHTTPClientTransport (default "" (Some url)) headers).
  exists mid, t2, (client_connect w (trace s1) t2).
  destruct (client_connect w (trace s1) t2) as [e2 |]; cbn [fst snd trace].
  - rewrite Htrace, <- app_assoc. repeat split; auto. apply status_of_insert.
  - rewrite Htrace, <- app_assoc. repeat split; auto. apply status_of_insert.
Qed.

Lemma Attempts_prepend failed_status suppressed_after serverId r s' pre0 evs :
  Forall (fun ev => is_fetch ev = true) pre0 ->
  Attempts w failed_status suppressed_after serverId r s' evs ->
  Attempts w failed_status suppressed_after serverId r s' (pre0 ++ evs).
Proof.
  intros Hpre0 H. destruct H.
  - apply no_attempt. now apply Forall_app.
  - rewrite (app_assoc pre0 pre). apply primary_connected; auto. now apply Forall_app.
  - rewrite (app_assoc pre0 pre). apply primary_failed; auto. now apply Forall_app.
  - rewrite (app_assoc pre0 pre). apply fallback_connected; auto. now apply Forall_app.
  - rewrite (app_assoc pre0 pre). eapply fallback_failed; eauto. now apply Forall_app.
Qed.

Lemma Attempts_suppressed failed_status (P P' : Transport -> Error -> option Error -> Prop)
    serverId r s' evs :
  Attempts w failed_status P serverId r s' evs ->
  (forall t e x, P t e x -> P' t e x) ->
  Attempts w failed_status P' serverId r s' evs.
Proof.
  intros H HP. destruct H.
  - now apply no_attempt.
  - now apply primary_connected.
  - now apply primary_failed.
  - now apply fallback_connected.
  - eapply fallback_failed; eauto.
Qed.

(** The transport phase: one attempt on the transport of the declared
    type, and, when it fails with the pattern of an unsupported event
    stream, one attempt on the stateless transport. *)
Lemma transportPhase_run server config headers s :
  status_of s (id server) <> connected ->
  let r := fst (MCPCoordinator.transportPhase w server config headers None s) in
  let s' := snd (MCPCoordinator.transportPhase w server config headers None s) in
  exists evs,
    trace s' = trace s ++ evs
    /\ Attempts w (fun _ => Runtime.error)
         (fun t e x => x = fallbackAuthError w server config (after_failure server s t e))
         (id server) r s' evs.
Proof.
  intros Hstatus. unfold MCPCoordinator.transportPhase, TransportManager.createTransport.
  rewrite !bind_run. unfold construct_URL.
  destruct (ServerConfig.url config) as [url |] eqn:Hurl.
  2:{ exists []. cbn. rewrite app_nil_r. split; [reflexivity |]. now apply no_attempt. }
  destruct (new_URL w url) as [u |] eqn:Hu.
  2:{ exists []. cbn. rewrite app_nil_r. split; [reflexivity |]. now apply no_attempt. }
  cbn [ret].
  set (t := if String.eqb (type server) "http-direct"
            then mkTransport StreamableHTTPClientTransport (default "" (Some url))
                   (default ∅ (Some headers))
            else mkTransport SSEClientTransport (default "" (Some url))
                   (default ∅ (Some headers))).
  assert (Ht : is_stateless t = false).
  { subst t. now destruct (String.eqb (type server) "http-direct"). }
  assert (Hrun : forall s0 : State,
    (if String.eqb (type server) "http-direct"
     then ret (mkTransport StreamableHTTPClientTransport (default "" (Some url))
                 (default ∅ (Some headers)))
     else ret (mkTransport SSEClientTransport (default "" (Some url))
                 (default ∅ (Some headers)))) s0 = (Ok t, s0)).
  { intros s0. subst t. now destruct (String.eqb (type server) "http-direct"). }
  rewrite Hrun. clear Hrun.
  unfold try_catch. rewrite bind_run.
  rewrite establishConnection_run by now apply not_connected_yet.
  destruct (client_connect w (trace s) t) as [e |] eqn:Hconnect.
  2:{ exists [EvClientConnect t None]. cbn [fst snd trace ret].
      split; [reflexivity |].
      apply (primary_connected _ _ _ _ _ _ []); auto. apply status_of_insert. }
  destruct (TransportManager.isSSEConnectionError e) eqn:Hsse.
  2:{ exists [EvClientConnect t (Some e)]. cbn [fst snd trace throw].
      split; [reflexivity |].
      apply (primary_failed _ _ _ _ _ _ []); auto. apply status_of_insert. }
  fold (after_failure server s t e).
  destruct (fallback_run server config url u (after_failure server s t e) Hurl Hu)
    as (mid & t2 & outcome & Htrace & Hmid & Ht2 & Hout).
  { unfold after_failure. rewrite status_of_insert. discriminate. }
  cbn [trace after_failure] in Htrace.
  exists ([EvClientConnect t (Some e)] ++ mid ++ [EvClientConnect t2 outcome]).
  split; [now rewrite Htrace, <- !app_assoc |].
  destruct outcome as [e2 |].
  - destruct Hout as [Hr Hst].
    eapply (fallback_failed _ _ _ _ _ _ []); eauto.
  - destruct Hout as [Hr Hst].
    apply (fallback_connected _ _ _ _ _ _ []); auto.
Qed.

Lemma connectPhase_run l s :
  status_of s (id (MCPCoordinator.the_server l)) <> connected ->
  let r := fst (MCPCoordinator.connectPhase w l s) in
  let s' := snd (MCPCoordinator.connectPhase w l s) in
  exists evs,
    trace s' = trace s ++ evs
    /\ Attempts w (fun _ => Runtime.error) (suppressed_in_phase w l s)
         (id (MCPCoordinator.the_server l)) r s' evs.
Proof.
  intros Hstatus. unfold MCPCoordinator.connectPhase. rewrite bind_run.
  destruct (quiet_prepareHeaders (id (MCPCoordinator.the_server l))
              (MCPCoordinator.the_config l) s)
    as (evs1 & Htrace & Hevs1 & Hconns & (config' & headers & perr & Hr & _ & Hperr)).
  unfold suppressed_in_phase.
  destruct (MCPCoordinator.prepareHeaders w _ _ s) as [r1 s1].
  cbn [fst snd] in *. subst r1.
  destruct perr as [e |].
  - destruct (Hperr ltac:(eauto)) as [oauth2 Hoauth2].
    rewrite Hoauth2. cbn [bool_decide decide_rel orb].
    rewrite bool_decide_eq_true_2 by eauto. cbn [orb throw fst snd].
    exists evs1. split; [exact Htrace |]. now apply no_attempt.
  - destruct (transportPhase_run (MCPCoordinator.the_server l) config' headers s1)
      as (evs2 & Htrace2 & Hatt).
    { unfold status_of in *. now rewrite Hconns. }
    exists (evs1 ++ evs2). split.
    + now rewrite Htrace2, Htrace, app_assoc.
    + apply Attempts_prepend; [assumption |].
      eapply Attempts_suppressed; [exact Hatt |].
      intros t e x ->. exists config', headers, s1. now split.
Qed.

Lemma registerConnectionState_run server st err cu s :
  exists s',
    ConnectionManager.registerConnectionState server st err cu s = (Ok tt, s')
    /\ status_of s' (id server) = st
    /\ trace s' = trace s
    /\ oauth2Tokens s' = oauth2Tokens s.
Proof.
  unfold ConnectionManager.registerConnectionState.
  rewrite bind_run. cbn [get_connections].
  destruct (connections s !! id server) as [existing |];
    (eexists; split; [reflexivity |]; split; [apply status_of_insert | split; reflexivity]).
Qed.

Lemma Attempts_status failed_status failed_status' suppressed_after serverId r s' s''
    evs :
  Attempts w failed_status suppressed_after serverId r s' evs ->
  (forall e, r = Throw e -> status_of s'' serverId = failed_status' e) ->
  (r = Ok tt -> s'' = s') ->
  Attempts w failed_status' suppressed_after serverId r s'' evs.
Proof.
  intros H Hfail Hok. destruct H.
  - now apply no_attempt.
  - apply primary_connected; auto. now rewrite Hok.
  - apply primary_failed; auto.
  - apply fallback_connected; auto. now rewrite Hok.
  - eapply fallback_failed; eauto.
Qed.

(** The [try] block of [connect] never throws; it hands its completion
    over, together with a server object that has the id it was given. *)
Lemma connect_try_run server config s :
  status_of s (id server) <> connected ->
  exists server' r s' evs,
    MCPCoordinator.connect_try w server config s = (Ok (server', r), s')
    /\ id server' = id server
    /\ trace s' = trace s ++ evs
    /\ Attempts w (fun _ => Runtime.error) (suppressed_in_try w server config s)
         (id server) r s' evs
    /\ (MCPCoordinator.is_http_type (type server) = false -> r = Ok tt /\ s' = s).
Proof.
  intros Hstatus. unfold MCPCoordinator.connect_try.
  destruct (MCPCoordinator.is_http_type (type server)).
  2:{ exists server, (Ok tt), s, []. cbn. rewrite app_nil_r.
      repeat split; auto. now apply no_attempt. }
  rewrite bind_run, attempt_run.
  destruct (quiet_discoveryPhase server config s)
    as (evs1 & Htrace1 & Hevs1 & Hconns1 & Hid1).
  unfold suppressed_in_try.
  destruct (MCPCoordinator.discoveryPhase w server config s) as [r1 s1] eqn:Hdisc.
  cbn [fst snd] in *.
  destruct r1 as [l1 | e1].
  2:{ exists server, (Throw e1), s1, evs1. cbn.
      repeat split; auto; try discriminate. now apply no_attempt. }
  specialize (Hid1 l1 eq_refl).
  rewrite bind_run, attempt_run.
  destruct (quiet_registrationPhase l1 s1)
    as (evs2 & Htrace2 & Hevs2 & Hconns2 & Hid2).
  destruct (MCPCoordinator.registrationPhase w l1 s1) as [r2 s2] eqn:Hreg.
  cbn [fst snd] in *.
  destruct r2 as [l2 | e2].
  2:{ exists (MCPCoordinator.the_server l1), (Throw e2), s2, (evs1 ++ evs2). cbn.
      repeat split; auto; try discriminate.
      - now rewrite Htrace2, Htrace1, app_assoc.
      - apply no_attempt. now apply Forall_app. }
  specialize (Hid2 l2 eq_refl).
  rewrite bind_run, attempt_run.
  destruct (connectPhase_run l2 s2) as (evs3 & Htrace3 & Hatt).
  { unfold status_of in *. now rewrite Hconns2, Hconns1, Hid2, Hid1. }
  destruct (MCPCoordinator.connectPhase w l2 s2) as [r3 s3].
  cbn [fst snd ret] in *.
  exists (MCPCoordinator.the_server l2), r3, s3, (evs1 ++ evs2 ++ evs3).
  repeat split; try discriminate.
  - now rewrite Hid2, Hid1.
  - now rewrite Htrace3, Htrace2, Htrace1, !app_assoc.
  - rewrite Hid2, Hid1 in Hatt.
    apply Attempts_prepend; [assumption |]. apply Attempts_prepend; [assumption |].
    eapply Attempts_suppressed; [exact Hatt |].
    intros t e x Hx. exists l1, s1, l2, s2.
    split; [reflexivity |]. split; [exact Hreg | exact Hx].
Qed.

(** Every call of [connect] is of one of the five kinds of [Attempts];
    after a failure the registry holds the status that the message of the
    error selects. *)
Lemma connect_run server s :
  let r := fst (MCPCoordinator.connect w server s) in
  let s' := snd (MCPCoordinator.connect w server s) in
  exists evs,
    trace s' = trace s ++ evs
    /\ Attempts w MCPCoordinator.failure_status (suppressed_in_connect w server s)
         (id server) r s' evs.
Proof.
  unfold MCPCoordinator.connect.
  rewrite bind_run, ConnectionFacts.getConnectionStatus_run.
  destruct (ConnectionManager.is_connected (status_of s (id server))) eqn:Hconn.
  { exists []. cbn. rewrite app_nil_r. split; [reflexivity |]. now apply no_attempt. }
  unfold suppressed_in_connect.
  destruct (JSON_parse_config w _) as [| | config].
  1,2: exists []; cbn; rewrite app_nil_r; split; [reflexivity |]; now apply no_attempt.
  destruct (connect_try_run server config s)
    as (server' & r & s1 & evs & Hrun & Hid & Htrace & Hatt & _).
  { intros H. rewrite H in Hconn. discriminate Hconn. }
  rewrite bind_run, Hrun. cbn [snd fst].
  assert (Hatt' : Attempts w (fun _ => Runtime.error)
                    (fun t e x =>
                       exists config0,
                         ParseValue config = ParseValue config0
                         /\ suppressed_in_try w server config0 s t e x)
                    (id server) r s1 evs).
  { eapply Attempts_suppressed; [exact Hatt |]. intros t e x Hx. eauto. }
  destruct r as [[] | e].
  - exists evs. cbn. split; [exact Htrace |].
    eapply Attempts_status; [exact Hatt' | intros e [=] | reflexivity].
  - rewrite bind_run.
    destruct (registerConnectionState_run server' (MCPCoordinator.failure_status e)
                (Some (message e)) (connectUrl e) s1)
      as (s2 & -> & Hst & Htr & _).
    cbn [throw fst snd]. exists evs. split; [now rewrite Htr |].
    eapply Attempts_status; [exact Hatt' | | intros [=]].
    intros e' [= <-]. now rewrite <- Hid.
Qed.

Lemma connect_attempts_fetches evs :
  Forall (fun ev => is_fetch ev = true) evs -> connect_attempts evs = [].
Proof.
  induction 1 as [| ev evs Hev _ IH]; [reflexivity |].
  destruct ev; try discriminate Hev. exact IH.
Qed.

Lemma connect_attempts_app evs evs' :
  connect_attempts (evs ++ evs') = connect_attempts evs ++ connect_attempts evs'.
Proof. apply omap_app. Qed.

Lemma fetches_or_attempts evs :
  Forall (fun ev => is_fetch ev = true) evs ->
  Forall (fun ev => is_fetch ev = true \/ is_client_connect ev = true) evs.
Proof. intros H. eapply Forall_impl; [exact H | cbv beta; auto]. Qed.

Lemma attempt_is_attempt t o :
  Forall (fun ev => is_fetch ev = true \/ is_client_connect ev = true)
    [EvClientConnect t o].
Proof. constructor; [now right | constructor]. Qed.

End WithWorld.

(** C3 (amended).  During one call of [connect] at most two connection
    attempts are made, and what the call added to the trace is, besides
    them, only fetches.  The first attempt is on the transport of the
    declared type.  A second attempt is made exactly when the first one
    failed with an error whose message matches the pattern of an unsupported
    event stream (404, 405, 202, [Stats], [Unexpected token]); it is on the
    stateless transport and there is no third attempt.  When the first
    attempt fails with another error, a 401 included, there is no fallback:
    that error is thrown as it is, and the registry records
    [auth_required] when its message contains [authorize] or
    [token expired] or it carries a connect URL, and [error] otherwise.
    When the fallback attempt fails, the error thrown is the error
    suppressed while the fallback headers were prepared if there is one
    and the failure is an authentication failure, and the failure itself
    otherwise; the suppressed error is what [getOAuth2TokenHeader] throws
    for the [oauth2] member of the configuration in effect, in the state
    that the failed first attempt left ([suppressed_in_connect]), and the
    registry records the status that the message of the error thrown
    selects.  When the fallback attempt succeeds the call succeeds and
    the registry records [connected]. *)
Theorem connect_falls_back_once (w : World) server s :
  let r := fst (MCPCoordinator.connect w server s) in
  let s' := snd (MCPCoordinator.connect w server s) in
  trace s' = trace s ++ new_events s s'
  /\ Forall (fun ev => is_fetch ev = true \/ is_client_connect ev = true)
       (new_events s s')
  /\ match connect_attempts (new_events s s') with
     | [] => True
     | [(t, None)] =>
         is_stateless t = false /\ r = Ok tt
         /\ status_of s' (id server) = connected
     | [(t, Some e)] =>
         is_stateless t = false
         /\ TransportManager.isSSEConnectionError e = false
         /\ r = Throw e
         /\ status_of s' (id server)
            = (if MCPCoordinator.isAuthError e then auth_required else Runtime.error)
     | [(t, Some e); (t2, None)] =>
         is_stateless t = false
         /\ TransportManager.isSSEConnectionError e = true
         /\ is_stateless t2 = true
         /\ r = Ok tt
         /\ status_of s' (id server) = connected
     | [(t, Some e); (t2, Some e2)] =>
         is_stateless t = false
         /\ TransportManager.isSSEConnectionError e = true
         /\ is_stateless t2 = true
         /\ exists suppressed,
              suppressed_in_connect w server s t e suppressed
              /\ r = Throw (match suppressed with
                            | Some a =>
                                if TransportManager.isAuthenticationError e2
                                then a else e2
                            | None => e2
                            end)
              /\ status_of s' (id server)
                 = MCPCoordinator.failure_status
                     (MCPCoordinator.fallback_failure suppressed e2)
     | _ => False
     end.
Proof.
  intros r s'. subst r s'.
  destruct (connect_run w server s) as (evs & Htrace & Hatt).
  assert (Hnew : new_events s (snd (MCPCoordinator.connect w server s)) = evs).
  { unfold new_events. rewrite Htrace. apply drop_app_length. }
  rewrite Hnew. split; [exact Htrace |].
  destruct Hatt as [evs Hevs | pre t Hpre Ht Hr Hst | pre t e Hpre Ht Hsse Hr Hst
                    | pre t e mid t2 Hpre Hmid Ht Hsse Ht2 Hr Hst
                    | pre t e mid t2 e2 suppressed Hpre Hmid Ht Hsse Ht2 Hsup Hr Hst].
  - split; [now apply fetches_or_attempts |].
    now rewrite connect_attempts_fetches.
  - split.
    + apply Forall_app. split; [now apply fetches_or_attempts |].
      apply attempt_is_attempt.
    + rewrite connect_attempts_app, (connect_attempts_fetches pre Hpre). cbn. auto.
  - split.
    + apply Forall_app. split; [now apply fetches_or_attempts |].
      apply attempt_is_attempt.
    + rewrite connect_attempts_app, (connect_attempts_fetches pre Hpre). cbn. auto.
  - split.
    + repeat (apply Forall_app; split);
        first [now apply fetches_or_attempts | apply attempt_is_attempt].
    + rewrite !connect_attempts_app, (connect_attempts_fetches pre Hpre),
        (connect_attempts_fetches mid Hmid). cbn. auto.
  - split.
    + repeat (apply Forall_app; split);
        first [now apply fetches_or_attempts | apply attempt_is_attempt].
    + rewrite !connect_attempts_app, (connect_attempts_fetches pre Hpre),
        (connect_attempts_fetches mid Hmid). cbn.
      repeat split; auto. exists suppressed. auto.
Qed.

(** The claim as stated fails: a first attempt that fails with a 401 whose
    message names neither [authorize] nor [token expired] leaves the
    registry in the [error] state, not in [auth_required]. *)
Lemma unauthorized_primary_is_error :
  ~ (forall (w : World) server s t e,
       head (connect_attempts
               (new_events s (snd (MCPCoordinator.connect w server s))))
       = Some (t, Some e) ->
       TransportManager.isAuthenticationError e = true ->
       status_of (snd (MCPCoordinator.connect w server s)) (id server)
       = auth_required).
Proof.
  intros H.
  specialize (H (Scenarios.protected_stream_world Scenarios.unauthorized)
                Scenarios.sse_server initial
                (mkTransport SSEClientTransport "https://r/mcp" ∅)
                Scenarios.unauthorized).
  assert (Hst : status_of
                  (snd (MCPCoordinator.connect
                          (Scenarios.protected_stream_world Scenarios.unauthorized)
                          Scenarios.sse_server initial)) "S1" = Runtime.error)
    by (vm_compute; reflexivity).
  change (id Scenarios.sse_server) with "S1" in H.
  rewrite Hst in H. discriminate H; vm_compute; reflexivity.
Qed.

(** A server that answers the event-stream handshake with 404 and accepts
    the stateless transport ends in [connected] after one fallback.  A
    server that answers the first with 404 and the second with 401, and
    for which no token is stored, surfaces the authorization error that
    was suppressed when the headers of the fallback were prepared. *)
Lemma connect_falls_back_once_witness :
  status_of
    (snd (MCPCoordinator.connect (Scenarios.without_event_stream Scenarios.not_found)
            Scenarios.sse_server initial)) "S1" = connected
  /\ length (connect_attempts
               (new_events initial
                  (snd (MCPCoordinator.connect
                          (Scenarios.without_event_stream Scenarios.not_found)
                          Scenarios.sse_server initial)))) = 2%nat
  /\ fst (MCPCoordinator.connect Fixtures.guarded_world Scenarios.sse_server initial)
     = Throw (OAuthHandler.authorization_required Fixtures.guarded_world
                "http://localhost:9002/api/mcp/oauth-callback"
                Fixtures.unregistered_client).
Proof.
  pose proof (connect_falls_back_once
                (Scenarios.without_event_stream Scenarios.not_found)
                Scenarios.sse_server initial) as H.
  cbv zeta in H. destruct H as (_ & _ & H).
  assert (Hlist : connect_attempts
                    (new_events initial
                       (snd (MCPCoordinator.connect
                               (Scenarios.without_event_stream Scenarios.not_found)
                               Scenarios.sse_server initial)))
                  = [(mkTransport SSEClientTransport "https://r/mcp" ∅,
                      Some Scenarios.not_found);
                     (mkTransport StatelessHTTPClientTransport "https://r/mcp" ∅,
                      None)])
    by (vm_compute; reflexivity).
  rewrite Hlist in H |- *. destruct H as (_ & _ & _ & _ & Hst).
  split; [exact Hst |]. split; [reflexivity |].
  pose proof (connect_falls_back_once Fixtures.guarded_world Scenarios.sse_server
                initial) as G.
  cbv zeta in G. destruct G as (_ & _ & G).
  assert (Glist : connect_attempts
                    (new_events initial
                       (snd (MCPCoordinator.connect Fixtures.guarded_world
                               Scenarios.sse_server initial)))
                  = [(mkTransport SSEClientTransport "https://r/mcp" ∅,
                      Some Scenarios.not_found);
                     (mkTransport StatelessHTTPClientTransport "https://r/mcp" ∅,
                      Some Scenarios.unauthorized)])
    by (vm_compute; reflexivity).
  rewrite Glist in G. destruct G as (_ & _ & _ & suppressed & Hsup & Hr & _).
  rewrite Hr.
  destruct Hsup as (config & Hparse & l1 & s1 & l & s2 & Hdisc & Hreg
                    & config' & headers & s3 & Hprep & ->).
  vm_compute in Hparse. injection Hparse as <-.
  vm_compute in Hdisc. injection Hdisc as <- <-.
  vm_compute in Hreg. injection Hreg as <- <-.
  vm_compute in Hprep. injection Hprep as <- _ <-.
  vm_compute. reflexivity.
Defined.

(** The claim as stated fails: the configuration text is parsed before the
    type of the server is looked at, and a text that is not JSON makes
    [connect] throw. *)
Lemma stdio_connect_may_throw :
  ~ (forall (w : World) server s,
       MCPCoordinator.is_http_type (type server) = false ->
       fst (MCPCoordinator.connect w server s) = Ok tt
       /\ status_of (snd (MCPCoordinator.connect w server s)) (id server)
          = disconnected).
Proof.
  intros H.
  destruct (H Scenarios.strict_parser_world Scenarios.stdio_server initial eq_refl)
    as [Hr _].
  vm_compute in Hr. discriminate Hr.
Qed.

(** C10 (amended).  For a server whose type is none of [http], [sse] and
    [http-direct] and whose configuration text is empty or is read by the
    JSON parser as a value other than [null], [connect] succeeds and
    leaves the whole state as it was: nothing is sent, no transport is
    tried and the registry is not touched, so the status of the server is
    what it was before, which is [disconnected] when the id has no
    record.  A configuration text that the parser refuses, and one that
    reads [null], make [connect] throw for a server of every type that is
    not recorded as connected, before the type is looked at and outside
    the [try] block: the state is left as it was and no failure is
    recorded. *)
Theorem connect_ignores_other_types (w : World) server s :
  let text := or_default (Some (Runtime.config server)) "{}" in
  (forall config,
      MCPCoordinator.is_http_type (type server) = false ->
      JSON_parse_config w text = ParseValue config ->
      MCPCoordinator.connect w server s = (Ok tt, s)
      /\ new_events s (snd (MCPCoordinator.connect w server s)) = []
      /\ (connections s !! id server = None ->
          fst (MCPCoordinator.getConnectionStatus (id server)
                 (snd (MCPCoordinator.connect w server s))) = Ok disconnected))
  /\ (status_of s (id server) <> connected ->
      JSON_parse_config w text = ParseNull ->
      MCPCoordinator.connect w server s
      = (Throw (new_Error "Cannot read properties of null (reading 'oauth2')"), s))
  /\ (status_of s (id server) <> connected ->
      JSON_parse_config w text = ParseThrows ->
      MCPCoordinator.connect w server s
      = (Throw (new_Error "Unexpected token in JSON"), s)).
Proof.
  intros text. subst text.
  assert (Hnot : status_of s (id server) <> connected ->
                 ConnectionManager.is_connected (status_of s (id server)) = false).
  { intros H. destruct (status_of s (id server)); try reflexivity. now elim H. }
  split; [| split].
  - intros config Htype Hparse.
    assert (Hrun : MCPCoordinator.connect w server s = (Ok tt, s)).
    { unfold MCPCoordinator.connect.
      rewrite bind_run, ConnectionFacts.getConnectionStatus_run.
      destruct (ConnectionManager.is_connected (status_of s (id server)));
        [reflexivity |].
      rewrite Hparse. unfold MCPCoordinator.connect_try. now rewrite Htype. }
    rewrite Hrun. cbn [snd]. split; [reflexivity |].
    split; [apply ConnectionFacts.new_events_same |].
    intros Hnone. unfold MCPCoordinator.getConnectionStatus.
    rewrite ConnectionFacts.getConnectionStatus_run. unfold status_of.
    now rewrite Hnone.
  - intros Hstatus Hparse. unfold MCPCoordinator.connect.
    rewrite bind_run, ConnectionFacts.getConnectionStatus_run, (Hnot Hstatus).
    now rewrite Hparse.
  - intros Hstatus Hparse. unfold MCPCoordinator.connect.
    rewrite bind_run, ConnectionFacts.getConnectionStatus_run, (Hnot Hstatus).
    now rewrite Hparse.
Qed.

Lemma connect_ignores_other_types_witness :
  MCPCoordinator.connect Scenarios.strict_parser_world Scenarios.local_server initial
  = (Ok tt, initial)
  /\ MCPCoordinator.connect (Scenarios.parsing_null Scenarios.strict_parser_world)
       Scenarios.local_server initial
     = (Throw (new_Error "Cannot read properties of null (reading 'oauth2')"),
        initial)
  /\ MCPCoordinator.connect Scenarios.strict_parser_world Scenarios.stdio_server
       initial
     = (Throw (new_Error "Unexpected token in JSON"), initial).
Proof.
  split; [| split].
  - refine (proj1 (proj1 (connect_ignores_other_types Scenarios.strict_parser_world
                            Scenarios.local_server initial)
                     ServerConfig.empty _ _));
      reflexivity.
  - refine (proj1 (proj2 (connect_ignores_other_types
                            (Scenarios.parsing_null Scenarios.strict_parser_world)
                            Scenarios.local_server initial)) _ _);
      [discriminate | reflexivity].
  - refine (proj2 (proj2 (connect_ignores_other_types Scenarios.strict_parser_world
                            Scenarios.stdio_server initial)) _ _);
      [discriminate | reflexivity].
Defined.

End CoordinatorFacts.

(** ** The PKCE material (lib/oauth-pkce) *)

Module PkceFacts.
Import Js Base64 Base64Facts StateCodec StateCodecFacts.

Lemma url_text_digit (n : N) :
  (n < 64)%N ->
  exists c, url_safe c = true
            /\ forall rest, url_text (String (char_of_sextet n) rest)
                            = String c (url_text rest).
Proof.
  intros Hn. each_sextet n Hn; eexists; (split; [| intros rest; reflexivity]);
    reflexivity.
Qed.

Lemma length_block (n : nat) :
  ((4 * S (S (S n)) + 2) / 3 = 4 + (4 * n + 2) / 3)%nat.
Proof.
  replace (4 * S (S (S n)) + 2)%nat with (4 * 3 + (4 * n + 2))%nat by lia.
  now rewrite Nat.div_add_l.
Qed.

(** The text of a buffer after the three substitutions: its characters
    and its length. *)
Lemma url_text_toString (buf : list byte) :
  Forall (fun c => url_safe c = true)
    (list_ascii_of_string (url_text (toString_base64 buf)))
  /\ String.length (url_text (toString_base64 buf))
     = ((4 * length buf + 2) / 3)%nat.
Proof.
  induction buf as [| a | a b | a b c l [IHc IHl]] using buffer_ind3.
  - split; [constructor | reflexivity].
  - pose proof (Byte.to_N_bounded a) as Ha.
    destruct (bytes_group (Byte.to_N a) 0 0 Ha) as ((S0 & _) & _); try lia.
    destruct (bytes_tail (Byte.to_N a) 0 Ha) as ((S1 & _) & _); try lia.
    destruct (url_text_digit _ S0) as (c0 & H0 & E0).
    destruct (url_text_digit _ S1) as (c1 & H1 & E1).
    cbn [toString_base64]. rewrite E0, E1.
    change (url_text "==") with "". split; [| reflexivity].
    cbn. repeat constructor; assumption.
  - pose proof (Byte.to_N_bounded a) as Ha.
    pose proof (Byte.to_N_bounded b) as Hb.
    destruct (bytes_group (Byte.to_N a) (Byte.to_N b) 0 Ha Hb)
      as ((S0 & S1 & _) & _); try lia.
    destruct (bytes_tail (Byte.to_N a) (Byte.to_N b) Ha Hb) as ((_ & S2) & _).
    destruct (url_text_digit _ S0) as (c0 & H0 & E0).
    destruct (url_text_digit _ S1) as (c1 & H1 & E1).
    destruct (url_text_digit _ S2) as (c2 & H2 & E2).
    cbn [toString_base64]. rewrite E0, E1, E2.
    change (url_text "=") with "". split; [| reflexivity].
    cbn. repeat constructor; assumption.
  - pose proof (Byte.to_N_bounded a) as Ha.
    pose proof (Byte.to_N_bounded b) as Hb.
    pose proof (Byte.to_N_bounded c) as Hc.
    destruct (bytes_group (Byte.to_N a) (Byte.to_N b) (Byte.to_N c) Ha Hb Hc)
      as ((S0 & S1 & S2 & S3) & _).
    destruct (url_text_digit _ S0) as (c0 & H0 & E0).
    destruct (url_text_digit _ S1) as (c1 & H1 & E1).
    destruct (url_text_digit _ S2) as (c2 & H2 & E2).
    destruct (url_text_digit _ S3) as (c3 & H3 & E3).
    cbn [toString_base64]. rewrite E0, E1, E2, E3. split.
    + cbn [list_ascii_of_string]. repeat (constructor; [assumption |]). exact IHc.
    + cbn [String.length length]. rewrite IHl, length_block. reflexivity.
Qed.

(** X1.  Decoding inverts encoding: [base64URLDecode] gives back every
    buffer that [base64URLEncode] was given, whatever its length, although
    the padding was removed from the text. *)
Theorem base64URL_decode_inverts_encode (buffer : list byte) :
  base64URLDecode (base64URLEncode buffer) = buffer.
Proof. apply base64URL_round_trip. Qed.

(** X2.  The text that [base64URLEncode] returns holds only letters,
    digits, [-] and [_] (no [+], [/] or padding), and a buffer of [n]
    bytes gives [(4n + 2) / 3] characters, rounded down. *)
Theorem base64URLEncode_alphabet_and_length (buffer : list byte) :
  Forall (fun c => url_safe c = true)
    (list_ascii_of_string (base64URLEncode buffer))
  /\ String.length (base64URLEncode buffer)
     = ((4 * length buffer + 2) / 3)%nat.
Proof. apply (url_text_toString buffer). Qed.

Section Challenge.
Variable sha256 : string -> list byte.
Hypothesis digest_length : forall text, length (sha256 text) = 32%nat.

(** X3.  A code verifier made from thirty-two random bytes has forty-three
    URL-safe characters, and so has the challenge of every verifier, the
    digest being thirty-two bytes long; a nonce made from sixteen random
    bytes has twenty-two.  Different random bytes give different
    verifiers. *)
Theorem pkce_material_shape :
  (forall random32,
      length random32 = 32%nat ->
      String.length (generateCodeVerifier random32) = 43%nat
      /\ Forall (fun c => url_safe c = true)
           (list_ascii_of_string (generateCodeVerifier random32)))
  /\ (forall verifier,
        String.length (generateCodeChallenge sha256 verifier) = 43%nat
        /\ Forall (fun c => url_safe c = true)
             (list_ascii_of_string (generateCodeChallenge sha256 verifier)))
  /\ (forall random16,
        length random16 = 16%nat ->
        String.length (generateNonce random16) = 22%nat)
  /\ (forall random32 random32',
        generateCodeVerifier random32 = generateCodeVerifier random32' ->
        random32 = random32').
Proof.
  repeat apply conj.
  - intros random32 Hlen. unfold generateCodeVerifier.
    destruct (url_text_toString random32) as [Hc Hl]. split; [| exact Hc].
    unfold base64URLEncode. fold (url_text (toString_base64 random32)).
    now rewrite Hl, Hlen.
  - intros verifier. unfold generateCodeChallenge.
    destruct (url_text_toString (sha256 verifier)) as [Hc Hl]. split; [| exact Hc].
    unfold base64URLEncode. fold (url_text (toString_base64 (sha256 verifier))).
    now rewrite Hl, digest_length.
  - intros random16 Hlen. unfold generateNonce.
    destruct (url_text_toString random16) as [_ Hl].
    unfold base64URLEncode. fold (url_text (toString_base64 random16)).
    now rewrite Hl, Hlen.
  - intros random32 random32' Heq. unfold generateCodeVerifier in Heq.
    rewrite <- (base64URL_round_trip random32),
      <- (base64URL_round_trip random32').
    now rewrite Heq.
Qed.

End Challenge.

Section State.

Context (key : list byte)
  (aes_256_gcm_encrypt : list byte -> list byte -> list byte -> list byte * list byte)
  (JSON_stringify : PKCEStateData -> string)
  (utf8_encode : string -> list byte).

(** X4.  Whatever the cipher produces, the state that [encodeState]
    returns holds only URL-safe characters, and decoding its text gives
    the initialisation vector, then the authentication tag, then the
    ciphertext; its length is that of these three together, four
    characters for three bytes. *)
Theorem encodeState_text random_nonce iv now v id :
  let state :=
    encodeState key aes_256_gcm_encrypt JSON_stringify utf8_encode
      random_nonce iv now v id in
  let sealed :=
    aes_256_gcm_encrypt key iv
      (utf8_encode (JSON_stringify
         {| verifier := v; serverId := id;
            nonce := generateNonce random_nonce; createdAt := now |})) in
  Forall (fun c => url_safe c = true) (list_ascii_of_string state)
  /\ base64URLDecode state = iv ++ snd sealed ++ fst sealed
  /\ String.length state
     = ((4 * (length iv + length (snd sealed) + length (fst sealed)) + 2) / 3)%nat.
Proof.
  intros state sealed. subst state sealed. unfold encodeState.
  destruct (aes_256_gcm_encrypt _ _ _) as [ciphertext authTag]. cbn [fst snd].
  change (toString_base64 []) with "".
  rewrite append_empty, from_base64_toString.
  destruct (url_text_toString (iv ++ authTag ++ ciphertext)) as [Hc Hl].
  split; [exact Hc |]. split; [apply base64URL_round_trip |].
  unfold base64URLEncode. fold (url_text (toString_base64 (iv ++ authTag ++ ciphertext))).
  rewrite Hl, !length_app. f_equal. lia.
Qed.

End State.

Lemma pkce_material_shape_witness :
  String.length (generateCodeVerifier (repeat x2a 32)) = 43%nat
  /\ String.length (generateCodeChallenge (fun _ => repeat x00 32) "v") = 43%nat.
Proof.
  pose proof (pkce_material_shape (fun _ => repeat x00 32) (fun _ => eq_refl))
    as (Hv & Hc & _).
  split.
  - exact (proj1 (Hv (repeat x2a 32) eq_refl)).
  - exact (proj1 (Hc "v")).
Defined.

End PkceFacts.

(** ** The environment configuration *)

Module EnvFacts.
Import Js Env.

Lemma strip_keeps_scheme (s : string) :
  String.prefix "http" s = true ->
  String.prefix "http" (strip_trailing_slash s) = true.
Proof.
  destruct s as [| c1 [| c2 [| c3 [| c4 rest]]]]; cbn [String.prefix];
    repeat match goal with
           | |- context [ascii_dec ?a ?b] =>
               destruct (ascii_dec a b) as [? | ?]; [subst |]
           end;
    try discriminate.
  intros _. destruct rest as [| a rest]; [reflexivity |]. cbn.
  destruct rest; [destruct (Ascii.eqb a "/") |]; reflexivity.
Qed.

Lemma strip_one_slash (s : string) :
  strip_trailing_slash (s +:+ "/") = s.
Proof.
  induction s as [| c s IH]; [reflexivity |].
  change (String c s +:+ "/") with (String c (s +:+ "/")).
  cbn [strip_trailing_slash]. rewrite IH.
  destruct s; reflexivity.
Qed.

Lemma truthy_false (o : option string) :
  truthy o = false -> or_default o "x" = "x" /\ (o = None \/ o = Some "").
Proof.
  destruct o as [[| c s] |]; cbn; try discriminate; auto.
Qed.

(** X5.  When [validateEnv] returns, the application URL is the value of
    [NEXT_PUBLIC_APP_URL] if that is set, without one trailing slash; if it
    is not set the URL always begins with [http]: it is [VERCEL_URL], with
    [https://] put before it unless it begins with [http] already, or
    [http://localhost:9002] when neither variable is set, which never
    happens in production.  A configured URL that ends in a slash loses
    exactly that slash, and a [VERCEL_URL] that begins with [http] is
    taken as it is, without one trailing slash. *)
Theorem validateEnv_appUrl (env : ProcessEnv) (config : EnvironmentConfig) :
  validateEnv env = Ok config ->
  (truthy (NEXT_PUBLIC_APP_URL env) = true ->
   appUrl config = strip_trailing_slash (default "" (NEXT_PUBLIC_APP_URL env)))
  /\ (forall url, NEXT_PUBLIC_APP_URL env = Some (url +:+ "/") -> appUrl config = url)
  /\ (truthy (NEXT_PUBLIC_APP_URL env) = false ->
      String.prefix "http" (appUrl config) = true)
  /\ (truthy (NEXT_PUBLIC_APP_URL env) = false ->
      truthy (VERCEL_URL env) = true ->
      String.prefix "http" (default "" (VERCEL_URL env)) = false ->
      appUrl config
      = strip_trailing_slash ("https://" +:+ default "" (VERCEL_URL env)))
  /\ (truthy (NEXT_PUBLIC_APP_URL env) = false ->
      truthy (VERCEL_URL env) = false ->
      appUrl config = "http://localhost:9002" /\ nodeEnv config <> "production")
  /\ (truthy (NEXT_PUBLIC_APP_URL env) = false ->
      truthy (VERCEL_URL env) = true ->
      String.prefix "http" (default "" (VERCEL_URL env)) = true ->
      appUrl config = strip_trailing_slash (default "" (VERCEL_URL env))).
Proof.
  unfold validateEnv.
  destruct (negb (existsb _ _)); [discriminate |].
  destruct (truthy (NEXT_PUBLIC_APP_URL env)) eqn:Happ; cbn [negb andb].
  - rewrite Happ. cbn [negb]. rewrite andb_false_r.
    intros [= <-]. cbn [appUrl]. repeat split; try discriminate.
    intros url Hurl. rewrite Hurl. apply strip_one_slash.
  - destruct (truthy (VERCEL_URL env)) eqn:Hvercel; cbn [negb andb].
    + rewrite andb_false_r.
      assert (Hscheme :
        String.prefix "http"
          (if String.prefix "http" (default "" (VERCEL_URL env))
           then default "" (VERCEL_URL env)
           else "https://" +:+ default "" (VERCEL_URL env)) = true).
      { destruct (String.prefix "http" (default "" (VERCEL_URL env))) eqn:Hp;
          [exact Hp |].
        destruct (default "" (VERCEL_URL env)); reflexivity. }
      assert (Hnonempty :
        truthy (Some (if String.prefix "http" (default "" (VERCEL_URL env))
                      then default "" (VERCEL_URL env)
                      else "https://" +:+ default "" (VERCEL_URL env))) = true).
      { destruct (String.prefix "http" (default "" (VERCEL_URL env))).
        - destruct (VERCEL_URL env) as [[| c v] |]; try discriminate. reflexivity.
        - reflexivity. }
      rewrite Hnonempty. cbn [negb default].
      intros [= <-]. cbn [appUrl]. repeat split; try discriminate.
      * intros url Hurl. rewrite Hurl in Happ.
        destruct url; discriminate.
      * intros _. now apply strip_keeps_scheme.
      * intros _ _ Hp. now rewrite Hp.
      * intros _ _ Hp. now rewrite Hp.
    + rewrite Happ. cbn [negb]. rewrite andb_true_r.
      destruct (String.eqb_spec (or_default (NODE_ENV env) "development") "production")
        as [Hprod | Hprod]; [discriminate |].
      intros [= <-]. cbn [appUrl nodeEnv]. repeat split; try discriminate.
      * intros url Hurl. rewrite Hurl in Happ. destruct url; discriminate.
      * exact Hprod.
Qed.

Lemma validateEnv_appUrl_witness :
  appUrl {| nodeEnv := "production";
            appUrl := "https://console.vercel.app";
            vercelUrl := Some "console.vercel.app/";
            openaiApiKey := None; googleApiKey := None;
            anthropicApiKey := None |}
  = strip_trailing_slash ("https://" +:+ "console.vercel.app/").
Proof.
  refine (proj1 (proj2 (proj2 (proj2
            (validateEnv_appUrl
               (env_of (Some "production") None (Some "console.vercel.app/"))
               _ _)))) _ _ _);
    reflexivity.
Defined.

(** X6.  [getEnvConfig] validates once: after a call that returned a
    configuration every later call returns that configuration, whatever
    the environment has become; a failed validation leaves nothing in the
    cache, so the next call validates again; and after [resetEnvConfig] the
    call validates the environment of that moment. *)
Theorem getEnvConfig_validates_once (env env' : ProcessEnv)
    (cachedConfig : option EnvironmentConfig) :
  (forall config cached',
      getEnvConfig env cachedConfig = (Ok config, cached') ->
      getEnvConfig env' cached' = (Ok config, cached'))
  /\ (forall e cached',
        getEnvConfig env cachedConfig = (Throw e, cached') ->
        cachedConfig = None /\ cached' = None /\ validateEnv env = Throw e
        /\ fst (getEnvConfig env' cached') = validateEnv env')
  /\ fst (getEnvConfig env' (resetEnvConfig (snd (getEnvConfig env cachedConfig))))
     = validateEnv env'.
Proof.
  unfold getEnvConfig, resetEnvConfig. split; [| split].
  - intros config cached'. destruct cachedConfig as [c |].
    + now intros [= <- <-].
    + destruct (validateEnv env); [| discriminate]. now intros [= <- <-].
  - intros e cached' Hrun.
    destruct cachedConfig; [discriminate |].
    destruct (validateEnv env); [discriminate |].
    injection Hrun as <- <-. repeat split.
    now destruct (validateEnv env').
  - now destruct (validateEnv env').
Qed.

Lemma getEnvConfig_validates_once_witness :
  getEnvConfig (env_of (Some "staging") None None)
    (snd (getEnvConfig (env_of None None None) None))
  = (Ok {| nodeEnv := "development";
           appUrl := "http://localhost:9002";
           vercelUrl := None;
           openaiApiKey := None; googleApiKey := None;
           anthropicApiKey := None |},
     snd (getEnvConfig (env_of None None None) None)).
Proof.
  refine (proj1 (getEnvConfig_validates_once (env_of None None None)
                   (env_of (Some "staging") None None) None) _ _ _).
  reflexivity.
Defined.

End EnvFacts.

(** ** The PKCE flow across the authorization and callback endpoints *)

Module PkceFlowFacts.
Import Js Base64 StateCodec StateCodecFacts AuthorizeRoute CallbackRoute.

(** What the clean-up loop leaves under a key, for any store [acc] that the
    loop deletes from. *)
Lemma cleanup_fold_lookup (now : Z) (acc m : gmap string PKCEData) (key : string) :
  map_fold
    (fun key value store =>
       if now - stored_createdAt value >? AuthorizeRoute.TEN_MINUTES
       then delete key store else store) acc m !! key
  = match m !! key with
    | Some value =>
        if now - stored_createdAt value >? AuthorizeRoute.TEN_MINUTES then None
        else acc !! key
    | None => acc !! key
    end.
Proof.
  revert key.
  apply (map_fold_weak_ind
           (fun r m => forall key,
              r !! key = match m !! key with
                         | Some value =>
                             if now - stored_createdAt value
                                >? AuthorizeRoute.TEN_MINUTES
                             then None else acc !! key
                         | None => acc !! key
                         end)).
  - intros key. now rewrite lookup_empty.
  - intros i x m' r Hi IH key.
    destruct (decide (key = i)) as [-> | Hne].
    + rewrite lookup_insert_eq.
      destruct (now - stored_createdAt x >? AuthorizeRoute.TEN_MINUTES).
      * apply lookup_delete_eq.
      * now rewrite IH, Hi.
    + rewrite lookup_insert_ne by congruence.
      destruct (now - stored_createdAt x >? AuthorizeRoute.TEN_MINUTES).
      * rewrite lookup_delete_ne by congruence. apply IH.
      * apply IH.
Qed.

Lemma cleanup_lookup (now : Z) (pkceStore : gmap string PKCEData) (key : string) :
  cleanupExpiredEntries now pkceStore !! key
  = match pkceStore !! key with
    | Some value =>
        if now - stored_createdAt value >? AuthorizeRoute.TEN_MINUTES then None
        else Some value
    | None => None
    end.
Proof.
  unfold cleanupExpiredEntries. rewrite cleanup_fold_lookup.
  destruct (pkceStore !! key) as [value |] eqn:E; [| reflexivity].
  now destruct (_ >? _).
Qed.

(** X7.  After [cleanupExpiredEntries] at time [now] the store holds
    exactly the entries it held before that are at most ten minutes old,
    unchanged.  Cleaning again at the same time changes nothing, and
    cleaning at two successive times leaves what cleaning at the later
    time alone leaves. *)
Theorem cleanupExpiredEntries_keeps_fresh (now : Z) (pkceStore : gmap string PKCEData) :
  (forall key value,
      cleanupExpiredEntries now pkceStore !! key = Some value
      <-> pkceStore !! key = Some value
          /\ now - stored_createdAt value <= AuthorizeRoute.TEN_MINUTES)
  /\ cleanupExpiredEntries now (cleanupExpiredEntries now pkceStore)
     = cleanupExpiredEntries now pkceStore
  /\ (forall later,
        now <= later ->
        cleanupExpiredEntries later (cleanupExpiredEntries now pkceStore)
        = cleanupExpiredEntries later pkceStore).
Proof.
  split; [| split].
  - intros key value. rewrite cleanup_lookup.
    destruct (pkceStore !! key) as [v |]; [| split; [discriminate | now intros []]].
    destruct (Z.gtb_spec (now - stored_createdAt v) AuthorizeRoute.TEN_MINUTES).
    + split; [discriminate |]. intros [[= ->] ?]. lia.
    + split.
      * intros [= ->]. split; [reflexivity | lia].
      * now intros [? _].
  - apply map_eq. intros key. rewrite !cleanup_lookup.
    destruct (pkceStore !! key) as [v |]; [| reflexivity].
    destruct (now - stored_createdAt v >? AuthorizeRoute.TEN_MINUTES) eqn:E;
      [reflexivity |]. now rewrite E.
  - intros later Hlater. apply map_eq. intros key. rewrite !cleanup_lookup.
    destruct (pkceStore !! key) as [v |]; [| reflexivity].
    destruct (Z.gtb_spec (now - stored_createdAt v) AuthorizeRoute.TEN_MINUTES);
      [| reflexivity].
    destruct (Z.gtb_spec (later - stored_createdAt v) AuthorizeRoute.TEN_MINUTES);
      [reflexivity | lia].
Qed.

Lemma cleanupExpiredEntries_keeps_fresh_witness :
  cleanupExpiredEntries 700000 Fixtures.two_entries !! "new"
  = Some (mkPKCEData "v2" "S2" 500000)
  /\ cleanupExpiredEntries 800000 (cleanupExpiredEntries 700000 Fixtures.two_entries)
     = cleanupExpiredEntries 800000 Fixtures.two_entries.
Proof.
  pose proof (cleanupExpiredEntries_keeps_fresh 700000 Fixtures.two_entries)
    as (Hkept & _ & Hlater).
  split.
  - apply Hkept. split; [reflexivity |]. unfold AuthorizeRoute.TEN_MINUTES. cbn. lia.
  - apply Hlater. lia.
Defined.

Lemma retrieve_pkce_run decodeState (state : string) (pkceStore : gmap string PKCEData) :
  state <> "" ->
  retrieve_pkce decodeState (Some state) pkceStore
  = match decodeState state with
    | Throw e => (Throw e, pkceStore)
    | Ok (Some decodedState) =>
        (Ok (Some (verifier decodedState, StateCodec.serverId decodedState)),
         pkceStore)
    | Ok None =>
        match pkceStore !! state with
        | Some stored =>
            (Ok (Some (stored_verifier stored, stored_serverId stored)),
             delete state pkceStore)
        | None => (Ok None, pkceStore)
        end
    end.
Proof. intros Hne. destruct state; [now contradiction Hne | reflexivity]. Qed.

Section Flow.

Context (key : list byte)
  (aes_256_gcm_encrypt : list byte -> list byte -> list byte -> list byte * list byte)
  (aes_256_gcm_decrypt : list byte -> list byte -> list byte -> list byte -> option (list byte))
  (JSON_stringify : PKCEStateData -> string)
  (JSON_parse : string -> option PKCEStateData)
  (utf8_encode : string -> list byte)
  (utf8_decode : list byte -> string)
  (sha256 : string -> list byte)
  (valid_URL : string -> bool).

(** X8.  When the authorization endpoint answers with an authorization
    URL, the store holds the verifier and the server id under the state it
    returned, the URL carries that state and the challenge of that
    verifier, and every other entry is as the clean-up left it.  If the
    runtime's cipher and codecs read back what they wrote, a callback with
    that state on the same store recovers the verifier and the server id
    at any later time: within ten minutes from the encrypted state, the
    store being left as it is; after ten minutes from the stored entry,
    which is removed, so that the same state finds nothing a second
    time.  The endpoint answers so only in a valid environment. *)
Theorem callback_recovers_verifier
    now_cleanup now_state now_store random_verifier random_nonce random_iv
    origin getEnvConfig body pkceStore url state store' :
  POST key aes_256_gcm_encrypt JSON_stringify utf8_encode sha256 valid_URL
    now_cleanup now_state now_store random_verifier random_nonce random_iv
    origin getEnvConfig (Ok body) pkceStore
  = (Authorize url state, store') ->
  let verifier := generateCodeVerifier random_verifier in
  let data :=
    {| StateCodec.verifier := verifier; StateCodec.serverId := serverId body;
       nonce := generateNonce random_nonce; createdAt := now_state |} in
  let plaintext := utf8_encode (JSON_stringify data) in
  store' !! state = Some (mkPKCEData verifier (serverId body) now_store)
  /\ (forall other, other <> state ->
        store' !! other = cleanupExpiredEntries now_cleanup pkceStore !! other)
  /\ In ("code_challenge", generateCodeChallenge sha256 verifier) (appended url)
  /\ In ("state", state) (appended url)
  /\ (forall ciphertext authTag,
        length random_iv = 16%nat ->
        aes_256_gcm_encrypt key random_iv plaintext = (ciphertext, authTag) ->
        length authTag = 16%nat ->
        aes_256_gcm_decrypt key random_iv authTag ciphertext = Some plaintext ->
        JSON_parse (utf8_decode plaintext) = Some data ->
        forall now,
          let decode := decodeState key aes_256_gcm_decrypt JSON_parse utf8_decode now in
          fst (retrieve_pkce decode (Some state) store')
          = Ok (Some (verifier, serverId body))
          /\ (now - now_state <= StateCodec.TEN_MINUTES ->
              snd (retrieve_pkce decode (Some state) store') = store')
          /\ (now - now_state > StateCodec.TEN_MINUTES ->
              snd (retrieve_pkce decode (Some state) store') = delete state store'
              /\ retrieve_pkce decode (Some state) (delete state store')
                 = (Ok None, delete state store')))
  /\ (exists envConfig, getEnvConfig = Ok envConfig).
Proof.
  intros Hrun verifier data plaintext. revert Hrun. unfold POST.
  destruct (negb (truthy (authUrl body)) || negb (truthy (clientId body)));
    [discriminate |].
  destruct getEnvConfig as [envConfig | e]; [| discriminate].
  destruct (valid_URL _); [| discriminate].
  intros [= <- <- <-].
  split; [apply lookup_insert_eq |].
  split.
  { intros other Hne. rewrite lookup_insert_ne by congruence. reflexivity. }
  split; [cbn; tauto |]. split; [cbn; tauto |].
  split; [| eauto].
  intros ciphertext authTag Hiv Henc Htag Hdec Hparse now.
  set (decode := decodeState key aes_256_gcm_decrypt JSON_parse utf8_decode now).
  set (state := encodeState key aes_256_gcm_encrypt JSON_stringify utf8_encode
                  random_nonce random_iv now_state verifier (serverId body)).
  pose proof (encodeState_layout key aes_256_gcm_encrypt JSON_stringify utf8_encode
                random_nonce random_iv now_state verifier (serverId body)
                ciphertext authTag Henc) as Hlay.
  fold state in Hlay.
  destruct (slices_of_layout random_iv authTag ciphertext Hiv Htag) as (S1 & S2 & S3).
  assert (Hstate : state <> "").
  { intros E. rewrite E in Hlay.
    apply (f_equal (@length byte)) in Hlay. rewrite length_app, Hiv in Hlay.
    cbn in Hlay. lia. }
  rewrite !(retrieve_pkce_run decode state _ Hstate).
  destruct (Z.le_gt_cases (now - now_state) StateCodec.TEN_MINUTES) as [Hfresh | Hold].
  - assert (Hd : decode state = Ok (Some data)).
    { apply (decodeState_fresh key aes_256_gcm_decrypt JSON_parse utf8_decode
               now state plaintext data).
      - now rewrite Hlay, S1, S2, S3.
      - exact Hparse.
      - exact Hfresh. }
    rewrite Hd. cbn [fst snd]. split; [reflexivity |]. split; [reflexivity |]. lia.
  - assert (Hd : decode state = Ok None).
    { apply (decodeState_expired key aes_256_gcm_decrypt JSON_parse utf8_decode
               now state plaintext data).
      - now rewrite Hlay, S1, S2, S3.
      - exact Hparse.
      - cbn. lia. }
    rewrite Hd, lookup_insert_eq. cbn [fst snd stored_verifier stored_serverId].
    split; [reflexivity |]. split; [lia |]. intros _. split; [reflexivity |].
    now rewrite lookup_delete_eq.
Qed.

End Flow.

Lemma callback_recovers_verifier_witness :
  fst (retrieve_pkce
         (decodeState toy_key toy_decrypt Fixtures.authorize_parse
            string_of_list_byte 2000)
         (Some Fixtures.authorized_state) (snd Fixtures.authorized))
  = Ok (Some (generateCodeVerifier (repeat x2a 32), "S1")).
Proof.
  pose proof (callback_recovers_verifier toy_key toy_encrypt toy_decrypt
                toy_stringify Fixtures.authorize_parse list_byte_of_string
                string_of_list_byte Fixtures.zero_digest (fun _ => true)
                1000 1000 1000 (repeat x2a 32) (repeat x01 16) (repeat x07 16)
                None (Env.validateEnv (Env.env_of None None None))
                Fixtures.authorize_body
                Fixtures.two_entries Fixtures.authorized_url
                Fixtures.authorized_state (snd Fixtures.authorized)) as H.
  cbv zeta in H.
  destruct H as (_ & _ & _ & _ & Hflow & _); [vm_compute; reflexivity |].
  refine (proj1 (Hflow _ (repeat x2a 16) _ _ _ _ _ 2000));
    vm_compute; reflexivity.
Defined.

End PkceFlowFacts.

(** ** The token endpoint *)

Module TokenRouteFacts.
Import Js Runtime Observe RuntimeFacts TokenRoute.

Section WithWorld.
Context (w : World).






(** X10.  The first request of the token endpoint carries HTTP-Basic
    credentials exactly when the body has a client secret, whether or not
    it has a verifier; the second request carries none and has the secret
    as the last parameter of its body, which the first one does not
    have.  Both bodies begin with the grant type, the code, the client id
    and the redirect URI, which is the one of the body or else the
    callback path under the [origin] header or else under the application
    URL, and both have the verifier as [code_verifier] exactly when the
    body has one. *)
Theorem token_exchange_credentials appUrl origin (b : Body) :
  let params := exchange_params b (resolved_redirect appUrl origin b) in
  req_body (first_request appUrl origin b) = FormBody params
  /\ req_body (second_request appUrl origin b)
     = FormBody (params ++ [("client_secret", default "" (clientSecret b))])
  /\ req_headers (first_request appUrl origin b) !! "Authorization"
     = (if truthy (clientSecret b)
        then Some ("Basic " +:+ OAuthHandler.basic_credentials (clientId b)
                                  (default "" (clientSecret b)))
        else None)
  /\ req_headers (second_request appUrl origin b) !! "Authorization" = None
  /\ (forall secret, ~ In ("client_secret", secret) params)
  /\ (forall v, In ("code_verifier", v) params
                <-> truthy (verifier b) = true /\ v = default "" (verifier b))
  /\ take 4 params
     = [ ("grant_type", "authorization_code");
         ("code", default "" (code b));
         ("client_id", default "" (clientId b));
         ("redirect_uri",
          or_default (redirectUri b)
            (or_default origin appUrl +:+ "/api/mcp/oauth-callback")) ].
Proof.
  intros params. subst params. unfold first_request, second_request, exchange_params.
  cbn [req_body req_headers].
  split; [reflexivity |]. split; [reflexivity |]. split.
  { destruct (truthy (clientSecret b)); cbn [andb negb].
    - rewrite andb_false_r. cbn [negb]. apply lookup_insert_eq.
    - reflexivity. }
  split; [reflexivity |]. split.
  { intros secret. destruct (truthy (verifier b)); cbn;
      intuition congruence. }
  split; [| reflexivity].
  intros v. destruct (truthy (verifier b)); cbn; split.
  - intros [H | [H | [H | [H | [H | []]]]]]; try discriminate H.
    injection H as <-. auto.
  - intros [_ ->]. tauto.
  - intros [H | [H | [H | [H | []]]]]; discriminate H.
  - intros [H _]. discriminate H.
Qed.

End WithWorld.


Lemma token_exchange_credentials_witness :
  req_headers (first_request "http://localhost:9002" None
                 Fixtures.confidential_exchange) !! "Authorization"
  = Some ("Basic " +:+ OAuthHandler.basic_credentials (Some "cid") "secret")
  /\ (In ("code_verifier", "verifier-1")
         (exchange_params Fixtures.confidential_exchange
            (resolved_redirect "http://localhost:9002" None
               Fixtures.confidential_exchange))).
Proof.
  split.
  - exact (proj1 (proj2 (proj2 (token_exchange_credentials "http://localhost:9002"
                                  None Fixtures.confidential_exchange)))).
  - refine (proj2 (proj1 (proj2 (proj2 (proj2 (proj2 (proj2
              (token_exchange_credentials "http://localhost:9002" None
                 Fixtures.confidential_exchange)))))) "verifier-1") _).
    split; reflexivity.
Defined.

End TokenRouteFacts.

(** ** The token vault and the registration of clients *)

Module VaultFacts.
Import Js Runtime Observe RuntimeFacts OAuthHandler TokenFacts.

Section WithWorld.
Context (w : World).

(** The authorization error names the word the coordinator looks for. *)
Lemma authorization_required_isAuthError redirectUri cfg :
  MCPCoordinator.isAuthError (authorization_required w redirectUri cfg) = true.
Proof.
  unfold authorization_required, MCPCoordinator.isAuthError.
  destruct (truthy (OAuth2Config.authUrl cfg) && truthy (OAuth2Config.clientId cfg));
    reflexivity.
Qed.

(** How the two copies of [getOAuth2TokenHeader] complete when [refusal]
    is what they throw: with the authorization error in a valid
    environment, and in an environment that is not valid with its error
    when the redirect URI is asked for, which is when the configuration
    has an authorization URL and a client id. *)
Lemma refused_run (m : M string) cfg s :
  m s = (Throw (refusal w cfg), s) ->
  (forall envConfig,
      Env.validateEnv (process_env w) = Ok envConfig ->
      m s = (Throw (authorization_required w (Env.redirect_uri envConfig) cfg), s))
  /\ (forall e,
        Env.validateEnv (process_env w) = Throw e ->
        m s = (Throw (if truthy (OAuth2Config.authUrl cfg)
                         && truthy (OAuth2Config.clientId cfg)
                      then e else new_Error authMessage), s)).
Proof.
  intros ->. destruct (refusal_cases w cfg) as (Hvalid & Hplain & Hinvalid).
  split.
  - intros envConfig Henv. now rewrite (Hvalid envConfig Henv).
  - intros e Henv.
    destruct (truthy (OAuth2Config.authUrl cfg) && truthy (OAuth2Config.clientId cfg))
      eqn:Hneeded.
    + now rewrite (Hinvalid e Henv eq_refl).
    + now rewrite (Hplain eq_refl).
Qed.

(** X11.  A token stored by [setOAuth2Token] is used as it is, without
    any request, as long as the clock is more than sixty seconds before
    the expiry computed when it was stored: [getOAuth2TokenHeader], of the
    handler and of the manager, returns its type (Bearer when the
    response named none) and its access token and changes nothing.  From
    sixty seconds before the expiry on, a token that came without a
    refresh token is not used any more and the call throws, still without
    sending anything: in a valid environment the authorization error, made
    with the redirect URI of that environment; in an environment that is
    not valid the error of the environment when the configuration has an
    authorization URL and a client id, and the plain authorization error
    otherwise. *)
Theorem stored_token_is_used serverId cfg tokenData s evs :
  let later := logged (snd (setOAuth2Token w serverId tokenData s)) evs in
  let expiry :=
    Date_now w (trace s)
    + expires_in_or_default (Json.expires_in tokenData) * 1000 in
  let header :=
    or_default (Json.token_type tokenData) "Bearer"
    +:+ " " +:+ show (Json.access_token tokenData) in
  (Date_now w (trace later) + 60000 < expiry ->
   getOAuth2TokenHeader w serverId cfg later = (Ok header, later)
   /\ McpManager.getOAuth2TokenHeader w serverId cfg later = (Ok header, later))
  /\ (expiry <= Date_now w (trace later) + 60000 ->
      truthy (Json.refresh_token tokenData) = false ->
      (forall envConfig,
          Env.validateEnv (process_env w) = Ok envConfig ->
          let failure :=
            authorization_required w (Env.redirect_uri envConfig) cfg in
          getOAuth2TokenHeader w serverId cfg later = (Throw failure, later)
          /\ McpManager.getOAuth2TokenHeader w serverId cfg later
             = (Throw failure, later))
      /\ (forall e,
            Env.validateEnv (process_env w) = Throw e ->
            let failure :=
              if truthy (OAuth2Config.authUrl cfg)
                 && truthy (OAuth2Config.clientId cfg)
              then e else new_Error authMessage in
            getOAuth2TokenHeader w serverId cfg later = (Throw failure, later)
            /\ McpManager.getOAuth2TokenHeader w serverId cfg later
               = (Throw failure, later))).
Proof.
  intros later expiry header.
  assert (Htok : oauth2Tokens later !! serverId
                 = Some (token_of (Date_now w (trace s)) tokenData)).
  { subst later. rewrite setOAuth2Token_run. cbn. apply lookup_insert_eq. }
  split.
  - intros Hvalid.
    rewrite getOAuth2TokenHeader_run, manager_getOAuth2TokenHeader_run, Htok.
    cbn [expires_at token_of token_type access_token].
    destruct (Z.gtb_spec
                (Date_now w (trace s)
                 + expires_in_or_default (Json.expires_in tokenData) * 1000)
                (Date_now w (trace later) + 60000)); [now split |].
    subst expiry. lia.
  - intros Hexpired Hrefresh.
    assert (Hrun : getOAuth2TokenHeader w serverId cfg later
                   = (Throw (refusal w cfg), later)
                   /\ McpManager.getOAuth2TokenHeader w serverId cfg later
                      = (Throw (refusal w cfg), later)).
    { rewrite getOAuth2TokenHeader_run, manager_getOAuth2TokenHeader_run, Htok.
      cbn [expires_at token_of refresh_token].
      destruct (Z.gtb_spec
                  (Date_now w (trace s)
                   + expires_in_or_default (Json.expires_in tokenData) * 1000)
                  (Date_now w (trace later) + 60000)); [subst expiry; lia |].
      rewrite Hrefresh. now split. }
    destruct Hrun as [Hhandler Hmanager].
    destruct (refused_run _ cfg later Hhandler) as [H1 H2].
    destruct (refused_run _ cfg later Hmanager) as [M1 M2].
    split.
    + intros envConfig Henv failure. split; [now apply H1 | now apply M1].
    + intros e Henv failure. split; [now apply H2 | now apply M2].
Qed.

(** X12.  Without a stored token [getOAuth2TokenHeader], of the handler
    and of the manager, throws and sends nothing.  In a valid environment
    it throws the authorization error, made with the redirect URI of that
    environment; in an environment that is not valid it throws the error
    of the environment when the configuration has an authorization URL
    and a client id, and the plain authorization error otherwise.  The
    coordinator classifies the authorization error as an authorization
    failure whatever the configuration and the redirect URI, so that the
    connection is then recorded as [auth_required]; the authorization
    error carries a connect URL exactly when the configuration has an
    authorization URL and a client id. *)
Theorem missing_token_requires_authorization serverId cfg s :
  (oauth2Tokens s !! serverId = None ->
   (forall envConfig,
       Env.validateEnv (process_env w) = Ok envConfig ->
       let failure := authorization_required w (Env.redirect_uri envConfig) cfg in
       getOAuth2TokenHeader w serverId cfg s = (Throw failure, s)
       /\ McpManager.getOAuth2TokenHeader w serverId cfg s = (Throw failure, s))
   /\ (forall e,
         Env.validateEnv (process_env w) = Throw e ->
         let failure :=
           if truthy (OAuth2Config.authUrl cfg)
              && truthy (OAuth2Config.clientId cfg)
           then e else new_Error authMessage in
         getOAuth2TokenHeader w serverId cfg s = (Throw failure, s)
         /\ McpManager.getOAuth2TokenHeader w serverId cfg s = (Throw failure, s)))
  /\ (forall redirectUri,
        MCPCoordinator.failure_status (authorization_required w redirectUri cfg)
        = auth_required)
  /\ (forall redirectUri,
        is_Some (connectUrl (authorization_required w redirectUri cfg))
        <-> truthy (OAuth2Config.authUrl cfg) = true
            /\ truthy (OAuth2Config.clientId cfg) = true).
Proof.
  split; [| split].
  - intros Hnone.
    assert (Hrun : getOAuth2TokenHeader w serverId cfg s = (Throw (refusal w cfg), s)
                   /\ McpManager.getOAuth2TokenHeader w serverId cfg s
                      = (Throw (refusal w cfg), s)).
    { rewrite getOAuth2TokenHeader_run, manager_getOAuth2TokenHeader_run, Hnone.
      now split. }
    destruct Hrun as [Hhandler Hmanager].
    destruct (refused_run _ cfg s Hhandler) as [H1 H2].
    destruct (refused_run _ cfg s Hmanager) as [M1 M2].
    split.
    + intros envConfig Henv failure. split; [now apply H1 | now apply M1].
    + intros e Henv failure. split; [now apply H2 | now apply M2].
  - intros redirectUri. unfold MCPCoordinator.failure_status.
    now rewrite authorization_required_isAuthError.
  - intros redirectUri. unfold authorization_required.
    destruct (truthy (OAuth2Config.authUrl cfg)) eqn:Hauth; cbn [andb].
    + destruct (truthy (OAuth2Config.clientId cfg)); cbn [connectUrl new_Error].
      * split; [auto |]. intros _.
        destruct (OAuth2Config.authUrl cfg) as [[| c url] |]; try discriminate.
        cbn. eauto.
      * split; [intros [? [=]] | intros [_ [=]]].
    + cbn [connectUrl new_Error]. split; [intros [? [=]] | intros [[=] _]].
Qed.

(** X13.  [registerDynamicClient] never throws.  In a valid environment
    it sends exactly one request, a POST of a JSON body to the
    registration URL that names the redirect URI of the environment and
    asks for the scopes given, joined by spaces, or for [openid profile
    email offline_access] when there is none; it returns the client id,
    the client secret and the scope of the response when the response is
    successful and its body is a JSON object, and [null] when the request
    fails, when the response is not successful and when its body cannot
    be read.  In an environment that is not valid it returns [null]
    without sending anything. *)
Theorem registerDynamicClient_single_request registrationUrl scopes s :
  let scope :=
    if String.eqb (join_space scopes) ""
    then "openid profile email offline_access" else join_space scopes in
  (forall e,
      Env.validateEnv (process_env w) = Throw e ->
      registerDynamicClient w registrationUrl scopes s = (Ok None, s))
  /\ (forall envConfig,
        Env.validateEnv (process_env w) = Ok envConfig ->
        let request :=
          mkRequest registrationUrl POST {[ "Content-Type" := "application/json" ]}
            (RegistrationBody (Env.redirect_uri envConfig) scope) in
        let outcome := fetch w (trace s) request in
        exists result,
          registerDynamicClient w registrationUrl scopes s
          = (Ok result, logged s [EvFetch request outcome])
          /\ (forall response clientData,
                outcome = FetchResponse response ->
                ok response = true ->
                json response = JsonObject clientData ->
                result = Some {| cred_clientId := Json.client_id clientData;
                                 cred_clientSecret := Json.client_secret clientData;
                                 cred_scope := Json.scope clientData |})
          /\ (forall response,
                outcome = FetchResponse response ->
                ok response = false \/ json response = JsonNull
                \/ (exists e, json response = JsonThrows e) ->
                result = None)
          /\ (forall e, outcome = FetchThrows e -> result = None)).
Proof.
  intros scope. split.
  { intros e Henv. unfold registerDynamicClient, try_catch.
    now rewrite bind_run, getRedirectUri_run, Henv. }
  intros envConfig Henv request outcome.
  unfold registerDynamicClient, try_catch.
  fold scope.
  rewrite bind_run, getRedirectUri_run, Henv.
  change (RegistrationBody (Env.redirect_uri envConfig) scope)
    with (req_body request).
  change (mkRequest registrationUrl POST {[ "Content-Type" := "application/json" ]}
            (req_body request)) with request.
  rewrite bind_run, do_fetch_run. fold outcome.
  destruct outcome as [response | e] eqn:Houtcome.
  - destruct (ok response) eqn:Hok.
    + unfold read_json. rewrite bind_run.
      destruct (json response) as [e | | clientData] eqn:Hjson.
      * exists None. cbn. split; [reflexivity |].
        split; [intros ? ? [= <-]; congruence |]. split; [auto | discriminate].
      * exists None. cbn. split; [reflexivity |].
        split; [intros ? ? [= <-]; congruence |]. split; [auto | discriminate].
      * eexists. cbn. split; [reflexivity |].
        split; [intros ? ? [= <-] _; congruence |].
        split; [| discriminate].
        intros ? [= <-] [H | [H | [e H]]]; congruence.
    + exists None. cbn. split; [reflexivity |].
      split; [intros ? ? [= <-]; congruence |]. split; [auto | discriminate].
  - exists None. cbn. split; [reflexivity |].
    split; [discriminate |]. split; [discriminate | auto].
Qed.

End WithWorld.

Lemma stored_token_is_used_witness :
  getOAuth2TokenHeader Scenarios.open_world "S1" Scenarios.confidential_client
    (logged (snd (setOAuth2Token Scenarios.open_world "S1" Scenarios.renewed initial)) [])
  = (Ok "Bearer new-access",
     logged (snd (setOAuth2Token Scenarios.open_world "S1" Scenarios.renewed initial)) [])
  /\ fst (getOAuth2TokenHeader (Scenarios.in_production Scenarios.open_world) "S1"
            Scenarios.confidential_client
            (logged (snd (setOAuth2Token (Scenarios.in_production Scenarios.open_world)
                            "S1" Scenarios.renewed initial))
               (repeat (EvClientConnect Scenarios.event_stream None) 100)))
     = Throw Env.missing_app_url.
Proof.
  split.
  - refine (proj1 (proj1 (stored_token_is_used Scenarios.open_world "S1"
                            Scenarios.confidential_client Scenarios.renewed
                            initial []) _)).
    vm_compute. reflexivity.
  - refine (f_equal fst
              (proj1 (proj2 (proj2 (stored_token_is_used
                                      (Scenarios.in_production Scenarios.open_world)
                                      "S1" Scenarios.confidential_client
                                      Scenarios.renewed initial
                                      (repeat (EvClientConnect Scenarios.event_stream
                                                 None) 100)) _ _)
                              Env.missing_app_url _))).
    + vm_compute. discriminate.
    + reflexivity.
    + reflexivity.
Defined.

Lemma missing_token_requires_authorization_witness :
  getOAuth2TokenHeader Scenarios.open_world "S1" Scenarios.confidential_client initial
  = (Throw (authorization_required Scenarios.open_world
              "http://localhost:9002/api/mcp/oauth-callback"
              Scenarios.confidential_client),
     initial)
  /\ getOAuth2TokenHeader (Scenarios.in_production Scenarios.open_world) "S1"
       Scenarios.confidential_client initial
     = (Throw Env.missing_app_url, initial).
Proof.
  split.
  - refine (proj1 (proj1 (proj1 (missing_token_requires_authorization
                                   Scenarios.open_world "S1"
                                   Scenarios.confidential_client initial) _)
                     Scenarios.development _)).
    + reflexivity.
    + reflexivity.
  - refine (proj1 (proj2 (proj1 (missing_token_requires_authorization
                                   (Scenarios.in_production Scenarios.open_world)
                                   "S1" Scenarios.confidential_client initial) _)
                     Env.missing_app_url _)).
    + reflexivity.
    + reflexivity.
Defined.

Lemma registerDynamicClient_single_request_witness :
  (exists request outcome,
     registerDynamicClient Scenarios.refusing_world "https://as/register" [] initial
     = (Ok None, logged initial [EvFetch request outcome]))
  /\ registerDynamicClient (Scenarios.in_production Scenarios.refusing_world)
       "https://as/register" [] initial
     = (Ok None, initial).
Proof.
  split.
  - destruct (proj2 (registerDynamicClient_single_request Scenarios.refusing_world
                       "https://as/register" [] initial)
                Scenarios.development eq_refl)
      as (result & Hrun & _ & Hfailed & _).
    rewrite (Hfailed _ eq_refl (or_introl eq_refl)) in Hrun.
    eexists _, _. exact Hrun.
  - exact (proj1 (registerDynamicClient_single_request
                    (Scenarios.in_production Scenarios.refusing_world)
                    "https://as/register" [] initial) Env.missing_app_url eq_refl).
Defined.

End VaultFacts.

(** ** The authorization session and the code exchange of the handler *)

Module ExchangeFacts.
Import Js Runtime Observe RuntimeFacts OAuthHandler.

(** *** Splitting at white space *)

Lemma chars_append (a b : string) :
  list_ascii_of_string (a +:+ b) = list_ascii_of_string a ++ list_ascii_of_string b.
Proof.
  induction a as [| c a IH]; [reflexivity |].
  change (String c a +:+ b) with (String c (a +:+ b)). cbn. now rewrite IH.
Qed.

Lemma append_assoc (a b c : string) : (a +:+ b) +:+ c = a +:+ (b +:+ c).
Proof.
  induction a as [| x a IH]; [reflexivity |].
  change (String x ((a +:+ b) +:+ c) = String x (a +:+ (b +:+ c))). now rewrite IH.
Qed.

Lemma spacefree_snoc (piece : string) (c : ascii) :
  forallb (fun c => negb (is_space c)) (list_ascii_of_string piece) = true ->
  is_space c = false ->
  forallb (fun c => negb (is_space c))
    (list_ascii_of_string (piece +:+ String c EmptyString)) = true.
Proof.
  intros Hp Hc. rewrite chars_append, forallb_app, Hp. cbn. now rewrite Hc.
Qed.

(** Every piece that the split gives is free of white space. *)
Lemma split_go_spacefree (s : string) :
  forall in_sep piece,
    forallb (fun c => negb (is_space c)) (list_ascii_of_string piece) = true ->
    Forall (fun x => forallb (fun c => negb (is_space c))
                       (list_ascii_of_string x) = true)
      (split_go in_sep piece s).
Proof.
  induction s as [| c s IH]; intros in_sep piece Hp; cbn [split_go].
  - now constructor.
  - destruct (is_space c) eqn:Hc.
    + destruct in_sep; [now apply IH |].
      constructor; [exact Hp |]. now apply IH.
    + apply IH. now apply spacefree_snoc.
Qed.

Lemma words_are_words (s : string) :
  Forall (fun x => is_word x = true) (filter_Boolean (split_ws s)).
Proof.
  unfold filter_Boolean, split_ws.
  pose proof (split_go_spacefree s false EmptyString eq_refl) as H.
  induction H as [| x l Hx _ IH]; [constructor |].
  cbn [List.filter]. destruct (negb (String.eqb x "")) eqn:Hne; [| exact IH].
  constructor; [| exact IH]. unfold is_word. now rewrite Hne, Hx.
Qed.

(** A word passes through the split unbroken. *)
Lemma split_go_word (word rest : string) :
  forall in_sep piece,
    is_word word = true ->
    split_go in_sep piece (word +:+ rest) = split_go false (piece +:+ word) rest.
Proof.
  induction word as [| c word IH]; intros in_sep piece Hw; [discriminate |].
  unfold is_word in Hw. cbn in Hw.
  apply andb_true_iff in Hw as [Hc Hrest]. apply negb_true_iff in Hc.
  change (String c word +:+ rest) with (String c (word +:+ rest)).
  cbn [split_go]. rewrite Hc.
  destruct word as [| d word].
  - reflexivity.
  - rewrite IH.
    + now rewrite append_assoc.
    + unfold is_word. cbn. exact Hrest.
Qed.

Lemma split_ws_join (l : list string) :
  Forall (fun x => is_word x = true) l ->
  filter_Boolean (split_ws (join_space l)) = l.
Proof.
  intros Hl.
  assert (Hkeep : forall l, Forall (fun x => is_word x = true) l -> filter_Boolean l = l).
  { clear. induction 1 as [| x l Hx _ IH]; [reflexivity |].
    unfold filter_Boolean. cbn [List.filter]. fold (filter_Boolean l).
    unfold is_word in Hx. apply andb_true_iff in Hx as [-> _]. now rewrite IH. }
  assert (Hsplit : forall l, Forall (fun x => is_word x = true) l -> l <> [] ->
            forall in_sep, split_go in_sep EmptyString (join_space l) = l).
  { clear. induction 1 as [| x l Hx Hl IH]; [congruence |]. intros _ in_sep.
    destruct l as [| y l].
    - cbn [join_space String.concat].
      rewrite <- (StateCodecFacts.append_empty x) at 1.
      now rewrite split_go_word.
    - change (join_space (x :: y :: l)) with (x +:+ (" " +:+ join_space (y :: l))).
      rewrite split_go_word by exact Hx.
      change (" " +:+ join_space (y :: l)) with (String " " (join_space (y :: l))).
      cbn [split_go is_space]. cbn.
      f_equal. now apply IH. }
  destruct l as [| x l]; [reflexivity |].
  unfold split_ws. rewrite Hsplit by (assumption || congruence).
  now apply Hkeep.
Qed.

Lemma join_space_nonempty (x : string) (l : list string) :
  is_word x = true -> join_space (x :: l) <> "".
Proof.
  intros Hx. destruct x as [| c x]; [discriminate |].
  destruct l; cbn; discriminate.
Qed.

(** X16.  The scopes that [resolveScopes] takes from a string, be it the
    user scope or the header hint, are words: none is empty and none
    holds white space, however the string was spaced.  Joining a list of
    words with single spaces and resolving the result as a user scope
    gives the list back, whatever the other sources hold. *)
Theorem resolveScopes_words_round_trip :
  (forall input s,
      Scopes.userScope input = Some (Scopes.ScopeString s) -> s <> "" ->
      Forall (fun x => is_word x = true) (Scopes.resolveScopes input))
  /\ (forall input,
        Scopes.user_truthy (Scopes.userScope input) = false ->
        truthy (Scopes.headerScope input) = true ->
        Forall (fun x => is_word x = true) (Scopes.resolveScopes input))
  /\ (forall x l header prm asm registration,
        Forall (fun x => is_word x = true) (x :: l) ->
        Scopes.resolveScopes
          {| Scopes.userScope := Some (Scopes.ScopeString (join_space (x :: l)));
             Scopes.headerScope := header;
             Scopes.prmScopes := prm;
             Scopes.asmScopes := asm;
             Scopes.registrationScopes := registration |}
        = x :: l).
Proof.
  split; [| split].
  - intros input s Hu Hs. unfold Scopes.resolveScopes. rewrite Hu.
    cbn [Scopes.user_truthy].
    destruct (String.eqb_spec s ""); [contradiction |]. apply words_are_words.
  - intros input Hu Hh. unfold Scopes.resolveScopes. rewrite Hu, Hh.
    apply words_are_words.
  - intros x l header prm asm registration Hl.
    unfold Scopes.resolveScopes. cbn [Scopes.userScope Scopes.user_truthy].
    destruct (String.eqb_spec (join_space (x :: l)) "") as [E | _].
    + exfalso. revert E. apply join_space_nonempty. now inversion Hl.
    + now apply split_ws_join.
Qed.

Lemma resolveScopes_words_round_trip_witness :
  Scopes.resolveScopes
    {| Scopes.userScope := Some (Scopes.ScopeString (join_space ["read"; "write"]));
       Scopes.headerScope := Some "other";
       Scopes.prmScopes := None;
       Scopes.asmScopes := None;
       Scopes.registrationScopes := None |}
  = ["read"; "write"].
Proof.
  refine (proj2 (proj2 resolveScopes_words_round_trip) "read" ["write"]
            (Some "other") None None None _).
  repeat constructor.
Defined.

Section WithWorld.
Context (w : World).

Lemma initiateOAuth_run random_suffix serverId cfg s :
  initiateOAuth w random_suffix serverId cfg s
  = match Env.validateEnv (process_env w) with
    | Throw e => (Throw e, s)
    | Ok envConfig =>
        if negb (truthy (OAuth2Config.authUrl cfg)) then
          (Throw (new_Error "OAuth authorization URL not configured"), s)
        else
          let state :=
            serverId +:+ "-" +:+ number_text (Date_now w (trace s))
            +:+ "-" +:+ random_suffix in
          (Ok {| session_serverId := serverId;
                 session_state := state;
                 session_authUrl :=
                   default "" (OAuth2Config.authUrl cfg)
                   +:+ "?response_type=code&client_id="
                   +:+ show (OAuth2Config.clientId cfg)
                   +:+ "&redirect_uri="
                   +:+ encodeURIComponent w (Env.redirect_uri envConfig)
                   +:+ "&scope=" +:+ encodeURIComponent w (requested_scope cfg)
                   +:+ "&state=" +:+ state;
                 session_redirectUri := Env.redirect_uri envConfig;
                 session_scopes := filter_Boolean (split_ws (requested_scope cfg)) |},
           s)
    end.
Proof.
  unfold initiateOAuth. rewrite bind_run, TokenFacts.getRedirectUri_run.
  destruct (Env.validateEnv (process_env w)) as [envConfig | e]; [| reflexivity].
  rewrite bind_run. unfold now at 1.
  rewrite bind_run. cbn [get_trace ret].
  now destruct (negb (truthy (OAuth2Config.authUrl cfg))).
Qed.

(** X15.  [initiateOAuth] sends nothing and changes nothing.  In an
    environment that is not valid it throws the error of the environment,
    whatever the configuration.  In a valid environment it throws when
    the configuration has no authorization URL; otherwise the session it
    returns is for the server asked, its state is made of the server id,
    the time and the random suffix, its redirect URI is the callback path
    under the application URL, and its scopes are words: those of the
    configured scope string, or else the configured list of scopes as it
    is when that is a list of words, or else [openid], [profile] and
    [offline_access]. *)
Theorem initiateOAuth_session random_suffix serverId cfg s :
  (forall e,
      Env.validateEnv (process_env w) = Throw e ->
      initiateOAuth w random_suffix serverId cfg s = (Throw e, s))
  /\ (forall envConfig,
        Env.validateEnv (process_env w) = Ok envConfig ->
        (truthy (OAuth2Config.authUrl cfg) = false ->
         initiateOAuth w random_suffix serverId cfg s
         = (Throw (new_Error "OAuth authorization URL not configured"), s))
        /\ (truthy (OAuth2Config.authUrl cfg) = true ->
            exists session,
              initiateOAuth w random_suffix serverId cfg s = (Ok session, s)
              /\ session_serverId session = serverId
              /\ session_state session
                 = serverId +:+ "-" +:+ number_text (Date_now w (trace s))
                   +:+ "-" +:+ random_suffix
              /\ session_redirectUri session
                 = Env.appUrl envConfig +:+ "/api/mcp/oauth-callback"
              /\ Forall (fun x => is_word x = true) (session_scopes session)
              /\ (truthy (OAuth2Config.scope cfg) = true ->
                  session_scopes session
                  = Scopes.words (default "" (OAuth2Config.scope cfg)))
              /\ (truthy (OAuth2Config.scope cfg) = false ->
                  forall scopes,
                    OAuth2Config.scopes cfg = Some scopes ->
                    Forall (fun x => is_word x = true) scopes ->
                    session_scopes session = scopes)
              /\ (truthy (OAuth2Config.scope cfg) = false ->
                  OAuth2Config.scopes cfg = None ->
                  session_scopes session = ["openid"; "profile"; "offline_access"]))).
Proof.
  rewrite initiateOAuth_run. split.
  - now intros e ->.
  - intros envConfig ->. split.
    + now intros ->.
    + intros ->. cbn [negb]. eexists. split; [reflexivity |].
      cbn [session_serverId session_state session_redirectUri session_scopes].
      split; [reflexivity |]. split; [reflexivity |]. split; [reflexivity |].
      split; [apply words_are_words |].
      unfold requested_scope.
      split; [now intros -> |]. split.
      * intros -> scopes -> Hwords. now apply split_ws_join.
      * now intros -> ->.
Qed.




End WithWorld.


Lemma initiateOAuth_session_witness :
  (exists session,
     initiateOAuth Scenarios.open_world "x1" "S1" Scenarios.confidential_client initial
     = (Ok session, initial)
     /\ session_scopes session = ["openid"; "profile"; "offline_access"])
  /\ initiateOAuth (Scenarios.in_production Scenarios.open_world) "x1" "S1"
       Scenarios.confidential_client initial
     = (Throw Env.missing_app_url, initial).
Proof.
  split.
  - destruct (proj2 (proj2 (initiateOAuth_session Scenarios.open_world "x1" "S1"
                              Scenarios.confidential_client initial)
                       Scenarios.development eq_refl) eq_refl)
      as (session & Hrun & _ & _ & _ & _ & _ & _ & Hdefault).
    exists session. split; [exact Hrun |]. now apply Hdefault.
  - exact (proj1 (initiateOAuth_session (Scenarios.in_production Scenarios.open_world)
                    "x1" "S1" Scenarios.confidential_client initial)
             Env.missing_app_url eq_refl).
Defined.

End ExchangeFacts.

(** ** The registry of connections *)

Module RegistryFacts.
Import Js Runtime Observe RuntimeFacts ConnectionFacts.

Section WithWorld.
Context (w : World).

(** X17.  [registerConnectionState] and [updateConnectionStatus] never
    fail and touch neither the trace nor the token vault.  On an id that
    has a record they do the same: the record keeps its client and its
    server object and takes the status, the error and the connect URL
    given.  On an id that has none, [updateConnectionStatus] does nothing
    while [registerConnectionState] makes a record without client for
    the server given.  No other id is affected, and the status reported
    for the id afterwards is the one registered. *)
Theorem register_and_update_status server status err connectUrl s :
  let registered :=
    ConnectionManager.registerConnectionState server status err connectUrl s in
  let updated :=
    ConnectionManager.updateConnectionStatus (id server) status err connectUrl s in
  fst registered = Ok tt /\ fst updated = Ok tt
  /\ trace (snd registered) = trace s /\ oauth2Tokens (snd registered) = oauth2Tokens s
  /\ status_of (snd registered) (id server) = status
  /\ (forall other, other <> id server ->
        connections (snd registered) !! other = connections s !! other)
  /\ (forall existing,
        connections s !! id server = Some existing ->
        snd updated = snd registered
        /\ connections (snd registered) !! id server
           = Some {| client := client existing;
                     Runtime.server := Runtime.server existing;
                     conn_status := status;
                     conn_error := err;
                     conn_connectUrl := connectUrl |})
  /\ (connections s !! id server = None ->
      snd updated = s
      /\ connections (snd registered) !! id server
         = Some {| client := None;
                   Runtime.server := server;
                   conn_status := status;
                   conn_error := err;
                   conn_connectUrl := connectUrl |}).
Proof.
  intros registered updated. subst registered updated.
  unfold ConnectionManager.registerConnectionState,
    ConnectionManager.updateConnectionStatus.
  rewrite !bind_run. cbn [get_connections].
  destruct (connections s !! id server) as [existing |] eqn:Hrecord;
    cbn [put_connections ret fst snd trace oauth2Tokens connections].
  - do 4 (split; [reflexivity |]).
    split; [unfold status_of; cbn; now rewrite lookup_insert_eq |].
    split; [intros other Hne; now rewrite lookup_insert_ne by congruence |].
    split; [| discriminate].
    intros existing' [= <-]. split; [reflexivity | apply lookup_insert_eq].
  - do 4 (split; [reflexivity |]).
    split; [unfold status_of; cbn; now rewrite lookup_insert_eq |].
    split; [intros other Hne; now rewrite lookup_insert_ne by congruence |].
    split; [discriminate |].
    intros _. split; [reflexivity | apply lookup_insert_eq].
Qed.

(** X18.  [establishConnection] on a server whose record is in the
    [connected] state returns that record and does nothing else: no
    second handshake is made.  Otherwise it makes exactly one handshake,
    on the transport given.  If the handshake succeeds the record of the
    server is connected, with a client on that transport and without
    error; if it fails the error is thrown as it is and the record is in
    the [error] state with the message of the error, and still holds the
    client.  The token vault and the records of other servers are left
    alone. *)
Theorem establishConnection_outcomes server transport s :
  let run := ConnectionManager.establishConnection w server transport s in
  let outcome := client_connect w (trace s) transport in
  (forall existing,
      connections s !! id server = Some existing ->
      conn_status existing = connected ->
      run = (Ok existing, s))
  /\ (status_of s (id server) <> connected ->
      trace (snd run) = trace s ++ [EvClientConnect transport outcome]
      /\ oauth2Tokens (snd run) = oauth2Tokens s
      /\ (forall other, other <> id server ->
            connections (snd run) !! other = connections s !! other)
      /\ (outcome = None ->
          fst run = Ok (mkConnection (Some (mkClient transport)) server connected
                          None None)
          /\ connections (snd run) !! id server
             = Some (mkConnection (Some (mkClient transport)) server connected
                       None None))
      /\ (forall e,
            outcome = Some e ->
            fst run = Throw e
            /\ connections (snd run) !! id server
               = Some (mkConnection (Some (mkClient transport)) server
                         Runtime.error (Some (message e)) None))).
Proof.
  intros run outcome. subst run outcome. split.
  - intros existing Hrecord Hstatus.
    unfold ConnectionManager.establishConnection.
    rewrite bind_run. cbn [get_connections]. rewrite Hrecord.
    unfold ConnectionManager.already_connected. now rewrite Hstatus.
  - intros Hstatus.
    rewrite (CoordinatorFacts.establishConnection_run w server transport s)
      by now apply CoordinatorFacts.not_connected_yet.
    destruct (client_connect w (trace s) transport) as [e |];
      cbn [fst snd trace oauth2Tokens connections].
    + split; [reflexivity |]. split; [reflexivity |].
      split; [intros other Hne; now rewrite lookup_insert_ne by congruence |].
      split; [discriminate |].
      intros e' [= <-]. split; [reflexivity | apply lookup_insert_eq].
    + split; [reflexivity |]. split; [reflexivity |].
      split; [intros other Hne; now rewrite lookup_insert_ne by congruence |].
      split; [| discriminate].
      intros _. split; [reflexivity | apply lookup_insert_eq].
Qed.

(** X19.  [callTool] on a server whose record is connected and has a
    client makes exactly one tool invocation, on that client, with the
    name and the arguments given, and changes nothing else.  A result
    is returned with its content, or with no content when the client
    gave none, and with its error flag, or as no error when the client
    gave none; an error of the client is thrown as it is.  The facade of
    the coordinator does the same for a server id that is not empty.
    After a handshake that [establishConnection] made with success, the
    tool is invoked on the client of the transport of that handshake. *)
Theorem callTool_invokes_client toolName args serverId s :
  (forall connection c,
      connections s !! serverId = Some connection ->
      conn_status connection = connected ->
      client connection = Some c ->
      let outcome := client_callTool w (trace s) c toolName args in
      let run := ConnectionManager.callTool w toolName args serverId s in
      snd run = logged s [EvCallTool c toolName args outcome]
      /\ (forall result,
            outcome = Ok result ->
            fst run = Ok {| ConnectionManager.content :=
                              default [] (raw_content result);
                            ConnectionManager.isError :=
                              default false (raw_isError result) |})
      /\ (forall e, outcome = Throw e -> fst run = Throw e)
      /\ (serverId <> "" ->
          MCPCoordinator.callTool w toolName args serverId s = run))
  /\ (forall server transport,
        id server = serverId ->
        status_of s serverId <> connected ->
        client_connect w (trace s) transport = None ->
        let s1 := snd (ConnectionManager.establishConnection w server transport s) in
        snd (ConnectionManager.callTool w toolName args serverId s1)
        = logged s1 [EvCallTool (mkClient transport) toolName args
                       (client_callTool w (trace s1) (mkClient transport)
                          toolName args)]).
Proof.
  split.
  - intros connection c Hrecord Hstatus Hclient outcome run. subst outcome run.
    rewrite callTool_run, Hrecord.
    destruct connection as [cl srv st er cu]. cbn in Hstatus, Hclient. subst cl st.
    cbn [fst snd]. split; [reflexivity |].
    split; [now intros result -> |]. split; [now intros e -> |].
    intros Hne. unfold MCPCoordinator.callTool.
    destruct (String.eqb_spec serverId ""); [contradiction |].
    rewrite callTool_run, Hrecord. reflexivity.
  - intros server transport Hid Hstatus Hconnect s1. subst s1 serverId.
    rewrite (CoordinatorFacts.establishConnection_run w server transport s)
      by now apply CoordinatorFacts.not_connected_yet.
    rewrite Hconnect. cbn [snd]. rewrite callTool_run.
    cbn [connections]. rewrite lookup_insert_eq. reflexivity.
Qed.

(** The manager's [disconnect] is the coordinator's. *)
Lemma manager_disconnect_run serverId s :
  McpManager.disconnect w serverId s = MCPCoordinator.disconnect w serverId s.
Proof.
  rewrite disconnect_run. unfold McpManager.disconnect.
  rewrite bind_run. cbn [get_connections]. rewrite bind_run.
  destruct (connections s !! serverId) as [[[c |] srv st er cu] |];
    try (cbn; now rewrite app_nil_r).
  unfold try_catch. rewrite do_client_close_run.
  now destruct (client_close w (trace s) c).
Qed.

(** Closing the ids of a list one after the other: the records of these
    ids are gone, and what was closed is the clients of records that the
    registry held for them. *)
Lemma close_each_run ids : forall s,
  exists evs,
    ConnectionManager.close_each w ids s
    = (Ok tt,
       mkState (foldr delete (connections s) ids) (oauth2Tokens s) (trace s ++ evs))
    /\ Forall (fun ev =>
                 exists c failure serverId connection,
                   ev = EvClientClose c failure
                   /\ In serverId ids
                   /\ connections s !! serverId = Some connection
                   /\ client connection = Some c) evs.
Proof.
  induction ids as [| serverId rest IH]; intros s.
  - exists []. cbn. rewrite app_nil_r. split; [now destruct s | constructor].
  - cbn [ConnectionManager.close_each]. rewrite bind_run, closeConnection_run.
    set (s1 := match connections s !! serverId with
               | Some {| client := Some c |} => _
               | _ => _
               end).
    destruct (IH s1) as (evs & Hrun & Hevs). rewrite Hrun.
    assert (Hconns : connections s1 = delete serverId (connections s)).
    { subst s1. now destruct (connections s !! serverId) as [[[c |] ? ? ? ?] |]. }
    assert (Htokens : oauth2Tokens s1 = oauth2Tokens s).
    { subst s1. now destruct (connections s !! serverId) as [[[c |] ? ? ? ?] |]. }
    assert (Hrest : Forall (fun ev =>
                 exists c failure serverId0 connection,
                   ev = EvClientClose c failure
                   /\ In serverId0 (serverId :: rest)
                   /\ connections s !! serverId0 = Some connection
                   /\ client connection = Some c) evs).
    { eapply Forall_impl; [exact Hevs |]. cbv beta.
      intros ev (c & failure & k & connection & -> & Hin & Hk & Hc).
      exists c, failure, k, connection. repeat split; [now right | | exact Hc].
      rewrite Hconns in Hk. now apply lookup_delete_Some in Hk as [_ Hk]. }
    rewrite Hconns, Htokens.
    assert (Hfold : foldr delete (delete serverId (connections s)) rest
                    = foldr delete (connections s) (serverId :: rest)).
    { cbn [foldr]. clear. induction rest as [| k rest IH]; [reflexivity |].
      cbn [foldr]. rewrite IH. apply delete_delete. }
    rewrite Hfold. subst s1.
    destruct (connections s !! serverId) as [[[c |] srv st er cu] |] eqn:Hrecord.
    + exists (EvClientClose c (client_close w (trace s) c) :: evs).
      cbn [trace]. rewrite <- app_assoc. split; [reflexivity |].
      constructor; [| exact Hrest].
      exists c, (client_close w (trace s) c), serverId, (mkConnection (Some c) srv st er cu).
      repeat split; [now left | exact Hrecord].
    + exists evs. split; [reflexivity | exact Hrest].
    + exists evs. split; [reflexivity | exact Hrest].
Qed.

Lemma lookup_foldr_delete_in {A} (m : gmap string A) (ids : list string) (k : string) :
  In k ids -> foldr delete m ids !! k = None.
Proof.
  induction ids as [| i ids IH]; [intros [] |].
  cbn [foldr]. destruct (decide (k = i)) as [-> | Hne].
  - intros _. apply lookup_delete_eq.
  - intros [-> | Hin]; [now contradiction Hne |].
    rewrite lookup_delete_ne by congruence. now apply IH.
Qed.

Lemma lookup_foldr_delete_out {A} (m : gmap string A) (ids : list string) (k : string) :
  ~ In k ids -> foldr delete m ids !! k = m !! k.
Proof.
  induction ids as [| i ids IH]; [reflexivity |].
  intros Hnot. cbn [foldr]. rewrite lookup_delete_ne.
  - apply IH. intros Hin. apply Hnot. now right.
  - intros ->. apply Hnot. now left.
Qed.

(** X20.  [closeAllConnections], and with it the coordinator's
    [disconnectAll], never fails: given the ids of the registry it leaves
    the registry empty, closes only clients of records that the registry
    held, and leaves the token vault as it was, whereas [disconnect]
    removes the token of the id it is given.  An id that is not in the
    list keeps its record. *)
Theorem closeAllConnections_empties ids s :
  let run := ConnectionManager.closeAllConnections w ids s in
  fst run = Ok tt
  /\ MCPCoordinator.disconnectAll w ids s = run
  /\ oauth2Tokens (snd run) = oauth2Tokens s
  /\ (forall serverId,
        ~ In serverId ids ->
        connections (snd run) !! serverId = connections s !! serverId)
  /\ ((forall serverId, is_Some (connections s !! serverId) -> In serverId ids) ->
      connections (snd run) = ∅)
  /\ (exists evs,
        trace (snd run) = trace s ++ evs
        /\ Forall (fun ev =>
                     exists c failure serverId connection,
                       ev = EvClientClose c failure
                       /\ In serverId ids
                       /\ connections s !! serverId = Some connection
                       /\ client connection = Some c) evs)
  /\ (forall serverId,
        oauth2Tokens (snd (MCPCoordinator.disconnect w serverId s)) !! serverId = None).
Proof.
  intros run. subst run.
  unfold MCPCoordinator.disconnectAll, ConnectionManager.closeAllConnections.
  destruct (close_each_run ids s) as (evs & -> & Hevs). cbn [fst snd].
  split; [reflexivity |]. split; [reflexivity |]. split; [reflexivity |].
  cbn [connections trace]. split.
  { intros serverId Hnot. now apply lookup_foldr_delete_out. }
  split.
  { intros Hall. apply map_eq. intros k. rewrite lookup_empty.
    destruct (connections s !! k) as [connection |] eqn:Hk.
    - apply lookup_foldr_delete_in, Hall. now rewrite Hk.
    - destruct (in_dec string_dec k ids) as [Hin | Hout].
      + now apply lookup_foldr_delete_in.
      + now rewrite lookup_foldr_delete_out. }
  split; [exists evs; split; [reflexivity | exact Hevs] |].
  intros serverId. rewrite disconnect_run. cbn. apply lookup_delete_eq.
Qed.

(** X21.  The manager's [disconnect] and [getConnectionStatus] behave as
    the coordinator's on every state: the same result, the same registry,
    the same token vault and the same trace. *)
Theorem manager_disconnect_agrees serverId s :
  McpManager.disconnect w serverId s = MCPCoordinator.disconnect w serverId s
  /\ McpManager.getConnectionStatus serverId s
     = MCPCoordinator.getConnectionStatus serverId s
  /\ fst (McpManager.getConnectionStatus serverId
            (snd (McpManager.disconnect w serverId s))) = Ok disconnected.
Proof.
  split; [apply manager_disconnect_run |]. split; [reflexivity |].
  rewrite manager_disconnect_run, disconnect_run. cbn [snd].
  unfold McpManager.getConnectionStatus. rewrite bind_run. cbn.
  now rewrite lookup_delete_eq.
Qed.

End WithWorld.

Lemma register_and_update_status_witness :
  snd (ConnectionManager.updateConnectionStatus "S9" auth_required None None initial)
  = initial.
Proof.
  refine (proj1 (proj2 (proj2 (proj2 (proj2 (proj2 (proj2 (proj2
            (register_and_update_status
               (mkServer "S9" "nine" "sse" "{}") auth_required None None
               initial))))))) _)).
  reflexivity.
Defined.

Lemma establishConnection_outcomes_witness :
  ConnectionManager.establishConnection Scenarios.open_world Scenarios.sse_server
    Scenarios.event_stream Scenarios.connected_state
  = (Ok (mkConnection (Some (mkClient Scenarios.event_stream)) Scenarios.sse_server
           connected None None),
     Scenarios.connected_state).
Proof.
  refine (proj1 (establishConnection_outcomes Scenarios.open_world
                   Scenarios.sse_server Scenarios.event_stream
                   Scenarios.connected_state) _ _ _);
    reflexivity.
Defined.

Lemma callTool_invokes_client_witness :
  snd (ConnectionManager.callTool Scenarios.open_world "echo" "{}" "S1"
         Scenarios.connected_state)
  = logged Scenarios.connected_state
      [EvCallTool (mkClient Scenarios.event_stream) "echo" "{}"
         (Ok (mkRaw (Some []) None))].
Proof.
  refine (proj1 (proj1 (callTool_invokes_client Scenarios.open_world "echo" "{}"
                          "S1" Scenarios.connected_state)
                   _ (mkClient Scenarios.event_stream) _ _ _));
    reflexivity.
Defined.

Lemma closeAllConnections_empties_witness :
  connections (snd (ConnectionManager.closeAllConnections Scenarios.open_world
                      ["S1"] Scenarios.connected_state)) = ∅.
Proof.
  refine (proj1 (proj2 (proj2 (proj2 (proj2
            (closeAllConnections_empties Scenarios.open_world ["S1"]
               Scenarios.connected_state))))) _).
  intros serverId [connection Hrecord].
  destruct (decide (serverId = "S1")) as [-> | Hne]; [now left |].
  unfold Scenarios.connected_state in Hrecord. cbn in Hrecord.
  rewrite lookup_singleton_ne in Hrecord by congruence. discriminate Hrecord.
Defined.

End RegistryFacts.

(** ** What a call of [connect] leaves behind *)

Module ConnectFacts.
Import Js Runtime Observe RuntimeFacts ConnectionFacts CoordinatorFacts.

Lemma bind_ok_inv {A B} (m : M A) (k : A -> M B) s b s' :
  bind m k s = (Ok b, s') ->
  exists a s1, m s = (Ok a, s1) /\ k a s1 = (Ok b, s').
Proof.
  unfold bind. destruct (m s) as [[a | e] s1]; [eauto | discriminate].
Qed.

Lemma try_catch_ok_inv {A} (m : M A) (handler : Error -> M A) s a s' :
  try_catch m handler s = (Ok a, s') ->
  m s = (Ok a, s')
  \/ exists e s1, m s = (Throw e, s1) /\ handler e s1 = (Ok a, s').
Proof.
  unfold try_catch. destruct (m s) as [[a0 | e] s1]; [now left | eauto].
Qed.

Section WithWorld.
Context (w : World).

Lemma establishConnection_ok server transport s connection s' :
  ConnectionManager.establishConnection w server transport s = (Ok connection, s') ->
  status_of s' (id server) = connected.
Proof.
  destruct (ConnectionManager.already_connected (connections s !! id server))
    as [existing |] eqn:Halready.
  - unfold ConnectionManager.establishConnection.
    rewrite bind_run. cbn [get_connections]. rewrite Halready.
    intros [= <- <-]. unfold status_of.
    unfold ConnectionManager.already_connected in Halready.
    destruct (connections s !! id server) as [c |]; [| discriminate].
    destruct (conn_status c) eqn:Hst; try discriminate. reflexivity.
  - rewrite (establishConnection_run w server transport s Halready).
    destruct (client_connect w (trace s) transport); [discriminate |].
    intros [= <- <-]. apply status_of_insert.
Qed.

Lemma establish_then_ret_ok server transport s s' :
  (ConnectionManager.establishConnection w server transport ;; ret tt) s = (Ok tt, s') ->
  status_of s' (id server) = connected.
Proof.
  intros H. apply bind_ok_inv in H as (connection & s1 & Hrun & [= <-]).
  exact (establishConnection_ok _ _ _ _ _ Hrun).
Qed.

Lemma fallback_ok server config s s' :
  MCPCoordinator.fallback w server config s = (Ok tt, s') ->
  status_of s' (id server) = connected.
Proof.
  unfold MCPCoordinator.fallback. intros H.
  apply bind_ok_inv in H as (prepared & s1 & _ & H).
  apply bind_ok_inv in H as (transport & s2 & _ & H).
  apply try_catch_ok_inv in H as [H | (e & s3 & _ & H)]; [| discriminate H].
  exact (establish_then_ret_ok _ _ _ _ H).
Qed.

Lemma transportPhase_ok server config headers primaryAuthError s s' :
  MCPCoordinator.transportPhase w server config headers primaryAuthError s = (Ok tt, s') ->
  status_of s' (id server) = connected.
Proof.
  unfold MCPCoordinator.transportPhase. intros H.
  apply bind_ok_inv in H as (transport & s1 & _ & H).
  apply try_catch_ok_inv in H as [H | (e & s2 & _ & H)].
  - exact (establish_then_ret_ok _ _ _ _ H).
  - destruct primaryAuthError as [a |].
    + destruct (TransportManager.isAuthenticationError e); [discriminate H |].
      destruct (TransportManager.isSSEConnectionError e); [| discriminate H].
      exact (fallback_ok _ _ _ _ H).
    + destruct (TransportManager.isSSEConnectionError e); [| discriminate H].
      exact (fallback_ok _ _ _ _ H).
Qed.

Lemma connectPhase_ok l s s' :
  MCPCoordinator.connectPhase w l s = (Ok tt, s') ->
  status_of s' (id (MCPCoordinator.the_server l)) = connected.
Proof.
  unfold MCPCoordinator.connectPhase. intros H.
  apply bind_ok_inv in H as ([[config headers] primaryAuthError] & s1 & _ & H).
  destruct primaryAuthError as [e |].
  - destruct (_ || _); [discriminate H |].
    exact (transportPhase_ok _ _ _ _ _ _ H).
  - exact (transportPhase_ok _ _ _ _ _ _ H).
Qed.

Lemma connect_try_ok server config s server' s' :
  MCPCoordinator.is_http_type (type server) = true ->
  MCPCoordinator.connect_try w server config s = (Ok (server', Ok tt), s') ->
  status_of s' (id server) = connected.
Proof.
  intros Hhttp. unfold MCPCoordinator.connect_try. rewrite Hhttp.
  rewrite bind_run, attempt_run.
  destruct (quiet_discoveryPhase w server config s) as (_ & _ & _ & _ & Hid1).
  destruct (MCPCoordinator.discoveryPhase w server config s) as [[l1 | e1] s1];
    cbn [fst snd] in *; [| discriminate].
  rewrite bind_run, attempt_run.
  destruct (quiet_registrationPhase w l1 s1) as (_ & _ & _ & _ & Hid2).
  destruct (MCPCoordinator.registrationPhase w l1 s1) as [[l2 | e2] s2];
    cbn [fst snd] in *; [| discriminate].
  rewrite bind_run, attempt_run.
  destruct (MCPCoordinator.connectPhase w l2 s2) as [r3 s3] eqn:Hphase.
  cbn [fst snd ret]. intros [= _ -> <-].
  rewrite <- (Hid1 l1 eq_refl), <- (Hid2 l2 eq_refl).
  exact (connectPhase_ok _ _ _ Hphase).
Qed.

(** X22.  For a server of one of the HTTP types, [connect] resolves only
    with the server recorded as connected; once a server is recorded as
    connected, [connect] for its id does nothing at all, whatever
    configuration the server object carries: it reads no configuration,
    sends nothing and leaves the state as it is. *)
Theorem connect_resolves_connected server s :
  (MCPCoordinator.is_http_type (type server) = true ->
   fst (MCPCoordinator.connect w server s) = Ok tt ->
   status_of (snd (MCPCoordinator.connect w server s)) (id server) = connected)
  /\ (forall again,
        id again = id server ->
        status_of s (id server) = connected ->
        MCPCoordinator.connect w again s = (Ok tt, s))
  /\ (forall again,
        MCPCoordinator.is_http_type (type server) = true ->
        fst (MCPCoordinator.connect w server s) = Ok tt ->
        id again = id server ->
        MCPCoordinator.connect w again (snd (MCPCoordinator.connect w server s))
        = (Ok tt, snd (MCPCoordinator.connect w server s))).
Proof.
  assert (Hagain : forall again s0,
            status_of s0 (id again) = connected ->
            MCPCoordinator.connect w again s0 = (Ok tt, s0)).
  { intros again s0 Hst. unfold MCPCoordinator.connect.
    rewrite bind_run, getConnectionStatus_run, Hst. reflexivity. }
  assert (Hok : MCPCoordinator.is_http_type (type server) = true ->
            fst (MCPCoordinator.connect w server s) = Ok tt ->
            status_of (snd (MCPCoordinator.connect w server s)) (id server)
            = connected).
  { intros Hhttp. unfold MCPCoordinator.connect.
    rewrite bind_run, getConnectionStatus_run.
    destruct (ConnectionManager.is_connected (status_of s (id server))) eqn:Hconn.
    { intros _. cbn [snd ret]. destruct (status_of s (id server)); now try discriminate. }
    destruct (JSON_parse_config w _) as [| | config]; [discriminate.. |].
    rewrite bind_run.
    destruct (connect_try_run w server config s)
      as (server' & r & s1 & evs & Hrun & _).
    { intros H. rewrite H in Hconn. discriminate Hconn. }
    rewrite Hrun. cbn [fst snd].
    destruct r as [[] | e].
    - intros _. cbn [ret snd]. exact (connect_try_ok _ _ _ _ _ Hhttp Hrun).
    - rewrite bind_run.
      destruct (registerConnectionState_run server' (MCPCoordinator.failure_status e)
                  (Some (message e)) (connectUrl e) s1) as (s2 & -> & _).
      discriminate. }
  split; [exact Hok |]. split.
  - intros again Hid Hst. apply Hagain. now rewrite Hid.
  - intros again Hhttp Hrun Hid. apply Hagain. rewrite Hid. now apply Hok.
Qed.

(** X23.  A server of an HTTP type whose configuration carries a token
    URL, an authorization URL and a client id, without automatic
    discovery, and for which no token is stored, is not contacted at all:
    [connect] throws without any request or connection attempt and
    records the failure, leaving the other records and the stored tokens
    as they are.  In a valid environment it throws the authorization
    error and records the server as [auth_required] with the message of
    the error and its connect URL, which is there.  In an environment
    that is not valid it throws the error of the environment and records
    the status that the message of that error selects, with that
    message. *)
Theorem connect_without_token server s config cfg :
  MCPCoordinator.is_http_type (type server) = true ->
  status_of s (id server) <> connected ->
  JSON_parse_config w (or_default (Some (Runtime.config server)) "{}")
  = ParseValue config ->
  ServerConfig.oauth2 config = Some cfg ->
  MCPCoordinator.needsDiscovery (Some cfg) = false ->
  oauth2Tokens s !! id server = None ->
  let s' := snd (MCPCoordinator.connect w server s) in
  (forall envConfig,
      Env.validateEnv (process_env w) = Ok envConfig ->
      let failure :=
        OAuthHandler.authorization_required w (Env.redirect_uri envConfig) cfg in
      fst (MCPCoordinator.connect w server s) = Throw failure
      /\ (exists record,
            connections s' !! id server = Some record
            /\ conn_status record = auth_required
            /\ conn_error record = Some (message failure)
            /\ conn_connectUrl record = connectUrl failure
            /\ is_Some (connectUrl failure)))
  /\ (forall e,
        Env.validateEnv (process_env w) = Throw e ->
        fst (MCPCoordinator.connect w server s) = Throw e
        /\ (exists record,
              connections s' !! id server = Some record
              /\ conn_status record = MCPCoordinator.failure_status e
              /\ conn_error record = Some (message e)
              /\ conn_connectUrl record = connectUrl e))
  /\ trace s' = trace s
  /\ oauth2Tokens s' = oauth2Tokens s
  /\ (forall other,
        other <> id server -> connections s' !! other = connections s !! other).
Proof.
  intros Hhttp Hstatus Hparse Hoauth Hneeds Hnone s'.
  assert (Hparts : truthy (OAuth2Config.tokenUrl cfg) = true
                   /\ truthy (OAuth2Config.authUrl cfg) = true
                   /\ truthy (OAuth2Config.clientId cfg) = true).
  { unfold MCPCoordinator.needsDiscovery in Hneeds. cbn [mbind option_bind] in Hneeds.
    destruct (truthy (OAuth2Config.tokenUrl cfg)); [| discriminate Hneeds].
    destruct (truthy (OAuth2Config.authUrl cfg)); [| discriminate Hneeds].
    destruct (truthy (OAuth2Config.clientId cfg)); [| discriminate Hneeds].
    auto. }
  destruct Hparts as (Htoken & Hauth & Hclient).
  set (failure := refusal w cfg).
  assert (Htry : MCPCoordinator.connect_try w server config s
                 = (Ok (server, Throw failure), s)).
  { unfold MCPCoordinator.connect_try. rewrite Hhttp.
    rewrite bind_run, attempt_run.
    unfold MCPCoordinator.discoveryPhase. rewrite Hoauth, Hneeds.
    rewrite bool_decide_eq_true_2 by eauto.
    cbn [orb andb negb ret fst snd].
    rewrite bind_run, attempt_run.
    cbn [MCPCoordinator.registrationPhase MCPCoordinator.discoveredAuth ret fst snd].
    rewrite bind_run, attempt_run.
    unfold MCPCoordinator.connectPhase.
    cbn [MCPCoordinator.the_server MCPCoordinator.the_config
         MCPCoordinator.discoveredAuth].
    rewrite bind_run. unfold MCPCoordinator.prepareHeaders.
    rewrite Hoauth, Htoken. rewrite bind_run, attempt_run.
    rewrite TokenFacts.getOAuth2TokenHeader_run, Hnone.
    cbn [fst snd ret]. rewrite Hoauth.
    rewrite bool_decide_eq_true_2 by eauto. reflexivity. }
  assert (Hrun : MCPCoordinator.connect w server s
                 = (Throw failure,
                    snd (ConnectionManager.registerConnectionState server
                           (MCPCoordinator.failure_status failure)
                           (Some (message failure)) (connectUrl failure) s))).
  { unfold MCPCoordinator.connect.
    rewrite bind_run, getConnectionStatus_run.
    destruct (ConnectionManager.is_connected (status_of s (id server))) eqn:Hconn.
    { destruct (status_of s (id server)); try discriminate Hconn. now elim Hstatus. }
    rewrite Hparse, bind_run, Htry. cbn [fst snd].
    rewrite bind_run.
    destruct (registerConnectionState_run server
                (MCPCoordinator.failure_status failure)
                (Some (message failure)) (connectUrl failure) s)
      as (s3 & Hs3 & _).
    now rewrite Hs3. }
  assert (Hstate :
    (exists record,
        connections s' !! id server = Some record
        /\ conn_status record = MCPCoordinator.failure_status failure
        /\ conn_error record = Some (message failure)
        /\ conn_connectUrl record = connectUrl failure)
    /\ trace s' = trace s
    /\ oauth2Tokens s' = oauth2Tokens s
    /\ (forall other,
          other <> id server -> connections s' !! other = connections s !! other)).
  { subst s'. rewrite Hrun. cbn [snd].
    unfold ConnectionManager.registerConnectionState.
    rewrite bind_run. cbn [get_connections].
    destruct (connections s !! id server) as [existing |];
      cbn [put_connections snd trace oauth2Tokens connections];
      (split;
       [ eexists; split; [apply lookup_insert_eq |];
         cbn [conn_status conn_error conn_connectUrl]; auto
       | split; [reflexivity |]; split; [reflexivity |];
         intros other Hother; now apply lookup_insert_ne ]). }
  destruct Hstate as (Hrecord & Htrace & Htokens & Hothers).
  destruct (TokenFacts.refusal_cases w cfg) as (Hvalid & _ & Hinvalid).
  split; [| split; [| split; [exact Htrace | split; [exact Htokens | exact Hothers]]]].
  - intros envConfig Henv failure'.
    assert (Hfailure : failure = failure') by (apply Hvalid, Henv).
    rewrite Hrun. cbn [fst]. rewrite <- Hfailure. split; [reflexivity |].
    destruct Hrecord as (record & Hlookup & Hst & Herr & Hurl).
    exists record. split; [exact Hlookup |].
    split.
    { rewrite Hst, Hfailure. unfold MCPCoordinator.failure_status. subst failure'.
      now rewrite VaultFacts.authorization_required_isAuthError. }
    split; [exact Herr |]. split; [exact Hurl |].
    rewrite Hfailure. subst failure'. unfold OAuthHandler.authorization_required.
    rewrite Hauth, Hclient. cbn [andb connectUrl].
    destruct (OAuth2Config.authUrl cfg) as [[| c url] |]; try discriminate Hauth.
    cbn. eauto.
  - intros e Henv.
    assert (Hfailure : failure = e).
    { apply Hinvalid; [exact Henv |]. now rewrite Hauth, Hclient. }
    rewrite Hrun. cbn [fst]. rewrite <- Hfailure. split; [reflexivity |].
    exact Hrecord.
Qed.

End WithWorld.

Lemma connect_resolves_connected_witness :
  status_of
    (snd (MCPCoordinator.connect (Scenarios.without_event_stream Scenarios.not_found)
            Scenarios.sse_server initial)) "S1" = connected
  /\ MCPCoordinator.connect (Scenarios.without_event_stream Scenarios.not_found)
       Scenarios.sse_server
       (snd (MCPCoordinator.connect (Scenarios.without_event_stream Scenarios.not_found)
               Scenarios.sse_server initial))
     = (Ok tt,
        snd (MCPCoordinator.connect (Scenarios.without_event_stream Scenarios.not_found)
               Scenarios.sse_server initial)).
Proof.
  split.
  - refine (proj1 (connect_resolves_connected
                     (Scenarios.without_event_stream Scenarios.not_found)
                     Scenarios.sse_server initial) _ _);
      vm_compute; reflexivity.
  - refine (proj2 (proj2 (connect_resolves_connected
                            (Scenarios.without_event_stream Scenarios.not_found)
                            Scenarios.sse_server initial))
              Scenarios.sse_server _ _ _);
      vm_compute; reflexivity.
Defined.

Lemma connect_without_token_witness :
  (fst (MCPCoordinator.connect Fixtures.configured_world Scenarios.sse_server initial)
   = Throw (OAuthHandler.authorization_required Fixtures.configured_world
              "http://localhost:9002/api/mcp/oauth-callback"
              Scenarios.confidential_client)
   /\ status_of
        (snd (MCPCoordinator.connect Fixtures.configured_world Scenarios.sse_server
                initial)) "S1" = auth_required
   /\ trace (snd (MCPCoordinator.connect Fixtures.configured_world
                    Scenarios.sse_server initial)) = [])
  /\ (fst (MCPCoordinator.connect (Scenarios.in_production Fixtures.configured_world)
             Scenarios.sse_server initial)
      = Throw Env.missing_app_url
      /\ status_of
           (snd (MCPCoordinator.connect
                   (Scenarios.in_production Fixtures.configured_world)
                   Scenarios.sse_server initial)) "S1" = Runtime.error).
Proof.
  split.
  - destruct (connect_without_token Fixtures.configured_world Scenarios.sse_server
                initial Fixtures.oauth_config Scenarios.confidential_client)
      as (Hvalid & _ & Htrace & _);
      [reflexivity | discriminate | reflexivity | reflexivity | reflexivity
      | reflexivity |].
    destruct (Hvalid Scenarios.development eq_refl)
      as (Hthrow & record & Hrecord & Hst & _).
    split; [exact Hthrow |]. split; [| exact Htrace].
    unfold status_of. change (id Scenarios.sse_server) with "S1" in Hrecord.
    rewrite Hrecord. exact Hst.
  - destruct (connect_without_token
                (Scenarios.in_production Fixtures.configured_world)
                Scenarios.sse_server initial Fixtures.oauth_config
                Scenarios.confidential_client)
      as (_ & Hinvalid & _);
      [reflexivity | discriminate | reflexivity | reflexivity | reflexivity
      | reflexivity |].
    destruct (Hinvalid Env.missing_app_url eq_refl)
      as (Hthrow & record & Hrecord & Hst & _).
    split; [exact Hthrow |].
    unfold status_of. change (id Scenarios.sse_server) with "S1" in Hrecord.
    rewrite Hrecord. exact Hst.
Defined.

End ConnectFacts.

(** ** The discovery endpoint *)

Module DiscoverEndpointFacts.
Import Js Runtime Observe RuntimeFacts DiscoverRoute.

Section WithWorld.
Context (w : World).

(** The first method on a URL that answers with a JSON object. *)
Lemma try_prm_found prmUrl locals s r prm :
  fetch w (trace s) (get_json prmUrl) = FetchResponse r ->
  ok r = true ->
  json r = JsonObject prm ->
  try_prm w [prmUrl] locals s
  = (Ok {| authorizationServers := servers_of_prm prm (authorizationServers locals);
           scopes := match Json.scopes_supported prm with
                     | Some found => found
                     | None => scopes locals
                     end;
           requiresAuth_local := true |},
     logged s [EvFetch (get_json prmUrl) (FetchResponse r)]).
Proof.
  intros Hfetch Hok Hjson. cbn [try_prm].
  rewrite bind_run, attempt_run, bind_run, do_fetch_run, Hfetch, Hok.
  unfold read_json. rewrite bind_run, Hjson. reflexivity.
Qed.

(** Once the resource metadata was found, the second method leaves the
    scopes alone. *)
Lemma try_asm_keeps_scopes servers locals s authMeta scopes' s' :
  requiresAuth_local locals = true ->
  try_asm w servers locals s = (Ok (authMeta, scopes'), s') ->
  scopes' = scopes locals.
Proof.
  intros Hrequires. revert s.
  induction servers as [| authServer rest IH]; intros s; cbn [try_asm].
  - now intros [= _ <- _].
  - intros H.
    apply ConnectFacts.bind_ok_inv in H as (asmUrl & s1 & _ & H).
    apply ConnectFacts.bind_ok_inv in H as (r & s2 & _ & H).
    destruct r as [[found |] | e]; [| exact (IH _ H) | exact (IH _ H)].
    injection H as _ <- _. rewrite Hrequires.
    now destruct (Json.scopes_supported found).
Qed.

Lemma discover_after_prm serverUrl s url r prm discovery :
  new_URL w serverUrl = Some url ->
  fetch w (trace s)
    (get_json (origin url +:+ "/.well-known/oauth-protected-resource"))
  = FetchResponse r ->
  ok r = true ->
  json r = JsonObject prm ->
  fst (discoverOAuthWithMultipleMethods w serverUrl s) = Ok (Some discovery) ->
  requiresAuth discovery = true
  /\ scopesSupported discovery
     = match Json.scopes_supported prm with
       | Some found => found
       | None => ["openid"; "email"; "profile"]
       end.
Proof.
  intros Hurl Hfetch Hok Hjson.
  unfold discoverOAuthWithMultipleMethods. rewrite Hurl.
  rewrite bind_run, (try_prm_found _ _ _ _ _ Hfetch Hok Hjson).
  cbn [authorizationServers scopes requiresAuth_local].
  set (locals := {| authorizationServers := servers_of_prm prm [] |}).
  set (s1 := logged s _).
  set (servers := match servers_of_prm prm [] with [] => _ | _ => _ end).
  rewrite bind_run.
  destruct (try_asm w servers locals s1) as [[[authMeta scopes'] | e] s2] eqn:Hasm;
    [| discriminate].
  apply try_asm_keeps_scopes in Hasm as ->; [| reflexivity].
  cbn [fst snd]. rewrite bind_run.
  destruct authMeta as [authMeta |].
  - cbn [ret]. intros [= <-]. now split.
  - destruct (try_oidc w servers s2) as [[[authMeta |] | e] s3]; cbn [ret fst];
      [now intros [= <-] | | discriminate].
    unfold probe_last, try_catch. rewrite bind_run.
    destruct (do_fetch w _ s3) as [[probeResponse | e] s4]; [| discriminate].
    destruct (status probeResponse =? 401); cbn [ret fst]; [| discriminate].
    now intros [= <-].
Qed.

(** X24.  The discovery endpoint never throws: it always replies.  A
    request without a base URL, or with an empty one, is answered 400, and
    a base URL that is not a URL is answered 404; in both cases nothing is
    sent.  A request whose body cannot be read is answered 500 with the
    message of the error, or with [Unknown error] when the message is
    empty. *)
Theorem discover_endpoint_validation body s :
  (exists reply, fst (DiscoverEndpoint.POST w body s) = Ok reply)
  /\ (forall baseUrl,
        body = Ok baseUrl -> truthy baseUrl = false ->
        DiscoverEndpoint.POST w body s = (Ok DiscoverEndpoint.BadRequest, s))
  /\ (forall baseUrl,
        body = Ok (Some baseUrl) -> baseUrl <> "" -> new_URL w baseUrl = None ->
        DiscoverEndpoint.POST w body s = (Ok DiscoverEndpoint.NotFound, s))
  /\ (forall e,
        body = Throw e ->
        DiscoverEndpoint.POST w body s
        = (Ok (DiscoverEndpoint.ServerError
                 (if String.eqb (message e) "" then "Unknown error" else message e)),
           s)).
Proof.
  split; [| split; [| split]].
  - unfold DiscoverEndpoint.POST, try_catch.
    match goal with |- context [match ?m s with _ => _ end] => destruct (m s) as [[reply | e] s1] end;
      cbn [ret fst]; eauto.
  - intros baseUrl -> Hempty. unfold DiscoverEndpoint.POST, try_catch.
    now rewrite Hempty.
  - intros baseUrl -> Hnonempty Hurl. unfold DiscoverEndpoint.POST, try_catch.
    assert (Htruthy : truthy (Some baseUrl) = true)
      by (destruct baseUrl; [now elim Hnonempty | reflexivity]).
    rewrite Htruthy. change (default "" (Some baseUrl)) with baseUrl.
    cbn [negb]. rewrite bind_run.
    unfold discoverOAuthWithMultipleMethods. now rewrite Hurl.
  - intros e ->. reflexivity.
Qed.

(** X25.  When the resource publishes its metadata at the well-known URL
    of its origin, that document governs whatever the endpoint finds
    afterwards: every discovery returned says that the resource requires
    authentication and lists the scopes of the resource metadata (or
    [openid email profile] when it lists none), never the scopes of the
    authorization server.  A reply with status 200 then names a token
    endpoint or an authorization endpoint; without either the reply is the
    partial one, with status 206 and the same scopes. *)
Theorem resource_metadata_governs serverUrl s url r prm :
  new_URL w serverUrl = Some url ->
  fetch w (trace s)
    (get_json (origin url +:+ "/.well-known/oauth-protected-resource"))
  = FetchResponse r ->
  ok r = true ->
  json r = JsonObject prm ->
  let found :=
    match Json.scopes_supported prm with
    | Some found => found
    | None => ["openid"; "email"; "profile"]
    end in
  (forall discovery,
     fst (discoverOAuthWithMultipleMethods w serverUrl s) = Ok (Some discovery) ->
     requiresAuth discovery = true /\ scopesSupported discovery = found)
  /\ (forall reply,
        fst (DiscoverEndpoint.POST w (Ok (Some serverUrl)) s) = Ok reply ->
        match reply with
        | DiscoverEndpoint.Success discovery =>
            requiresAuth discovery = true
            /\ scopesSupported discovery = found
            /\ (truthy (tokenEndpoint discovery) = true
                \/ truthy (authorizationEndpoint discovery) = true)
        | DiscoverEndpoint.PartialDiscovery scopesSupported => scopesSupported = found
        | _ => True
        end).
Proof.
  intros Hurl Hfetch Hok Hjson found.
  pose proof (discover_after_prm serverUrl s url r prm) as Hafter.
  split; [intros discovery; now apply Hafter |].
  intros reply. unfold DiscoverEndpoint.POST, try_catch.
  destruct (negb (truthy (Some serverUrl))); [now intros [= <-] |].
  change (default "" (Some serverUrl)) with serverUrl. rewrite bind_run.
  destruct (discoverOAuthWithMultipleMethods w serverUrl s)
    as [[[discovery |] | e] s1] eqn:Hrun; cbn [ret fst];
    [| now intros [= <-] | now intros [= <-]].
  destruct (Hafter discovery Hurl Hfetch Hok Hjson eq_refl) as [Hrequires Hscopes].
  destruct (DiscoverEndpoint.is_partial discovery) eqn:Hpartial;
    cbn [ret fst]; intros [= <-]; [exact Hscopes |].
  split; [exact Hrequires |]. split; [exact Hscopes |].
  unfold DiscoverEndpoint.is_partial in Hpartial. rewrite Hrequires in Hpartial.
  destruct (truthy (tokenEndpoint discovery)); [now left |].
  destruct (truthy (authorizationEndpoint discovery)); [now right | discriminate].
Qed.

(** X26.  Resource metadata whose first authorization server is not a URL
    stops the discovery: the URL of the server metadata is built outside
    every [try], so the function throws after its first request, the
    other servers of the list are not tried and neither is the resource
    probed; the endpoint replies 500 with the message of the error. *)
Theorem unusable_authorization_server serverUrl s url r prm authServer others :
  new_URL w serverUrl = Some url ->
  fetch w (trace s)
    (get_json (origin url +:+ "/.well-known/oauth-protected-resource"))
  = FetchResponse r ->
  ok r = true ->
  json r = JsonObject prm ->
  servers_of_prm prm [] = authServer :: others ->
  new_URL w authServer = None ->
  let s' :=
    logged s [EvFetch (get_json (origin url +:+ "/.well-known/oauth-protected-resource"))
                (FetchResponse r)] in
  discoverOAuthWithMultipleMethods w serverUrl s = (Throw (new_Error "Invalid URL"), s')
  /\ (serverUrl <> "" ->
      DiscoverEndpoint.POST w (Ok (Some serverUrl)) s
      = (Ok (DiscoverEndpoint.ServerError "Invalid URL"), s')).
Proof.
  intros Hurl Hfetch Hok Hjson Hservers Hname s'.
  assert (Hrun : discoverOAuthWithMultipleMethods w serverUrl s
                 = (Throw (new_Error "Invalid URL"), s')).
  { unfold discoverOAuthWithMultipleMethods. rewrite Hurl.
    rewrite bind_run, (try_prm_found _ _ _ _ _ Hfetch Hok Hjson).
    cbn [authorizationServers]. rewrite Hservers.
    rewrite bind_run. cbn [try_asm]. rewrite bind_run.
    unfold resolve_URL. rewrite bind_run. unfold construct_URL.
    now rewrite Hname. }
  split; [exact Hrun |].
  intros Hnonempty. unfold DiscoverEndpoint.POST, try_catch.
  assert (Htruthy : truthy (Some serverUrl) = true)
    by (destruct serverUrl; [now elim Hnonempty | reflexivity]).
  rewrite Htruthy. change (default "" (Some serverUrl)) with serverUrl.
  cbn [negb]. rewrite bind_run, Hrun. reflexivity.
Qed.

End WithWorld.

Lemma discover_endpoint_validation_witness :
  DiscoverEndpoint.POST Scenarios.open_world (Ok (Some "")) initial
  = (Ok DiscoverEndpoint.BadRequest, initial)
  /\ DiscoverEndpoint.POST Scenarios.open_world (Ok (Some "r/mcp")) initial
     = (Ok DiscoverEndpoint.NotFound, initial).
Proof.
  split.
  - refine (proj1 (proj2 (discover_endpoint_validation Scenarios.open_world
                            (Ok (Some "")) initial)) (Some "") _ _);
      reflexivity.
  - refine (proj1 (proj2 (proj2 (discover_endpoint_validation Scenarios.open_world
                                   (Ok (Some "r/mcp")) initial))) "r/mcp" _ _ _);
      [reflexivity | discriminate | reflexivity].
Defined.

Lemma resource_metadata_governs_witness :
  exists discovery,
    fst (DiscoverEndpoint.POST (Fixtures.metadata_world Scenarios.resource_metadata)
           (Ok (Some "https://r/mcp")) initial)
    = Ok (DiscoverEndpoint.Success discovery)
    /\ scopesSupported discovery = ["read"]
    /\ tokenEndpoint discovery = Some "https://r/token".
Proof.
  eexists. split; [vm_compute; reflexivity |].
  split; [| reflexivity].
  refine (proj1 (proj2 (proj2 (resource_metadata_governs
                                 (Fixtures.metadata_world Scenarios.resource_metadata)
                                 "https://r/mcp" initial
                                 (mkURL "https://r" "/mcp") _
                                 Scenarios.resource_metadata _ _ _ _)
                                (DiscoverEndpoint.Success _) _)));
    try reflexivity.
Defined.

Lemma unusable_authorization_server_witness :
  DiscoverEndpoint.POST (Fixtures.metadata_world Fixtures.misnamed_server)
    (Ok (Some "https://r/mcp")) initial
  = (Ok (DiscoverEndpoint.ServerError "Invalid URL"),
     logged initial
       [EvFetch (get_json "https://r/.well-known/oauth-protected-resource")
          (Scenarios.respond 200 None "" (JsonObject Fixtures.misnamed_server))]).
Proof.
  refine (proj2 (unusable_authorization_server
                   (Fixtures.metadata_world Fixtures.misnamed_server)
                   "https://r/mcp" initial (mkURL "https://r" "/mcp") _
                   Fixtures.misnamed_server "as.example" [] _ _ _ _ _ _) _);
    try reflexivity.
  discriminate.
Defined.

End DiscoverEndpointFacts.

(** ** The statuses shown by the session hook *)

Module AuthSessionFacts.
Import Js Runtime AuthSession.

Lemma include_missing_cons mapped server servers :
  include_missing mapped (server :: servers)
  = include_missing
      (if existsb (fun s => String.eqb (MCPServerStatus.id s) (Runtime.id server))
            mapped
       then mapped else mapped ++ [absent server])
      servers.
Proof. reflexivity. Qed.

Lemma include_missing_spec servers :
  forall mapped,
    (forall entry, In entry mapped -> In entry (include_missing mapped servers))
    /\ (forall server,
          In server servers ->
          exists entry,
            In entry (include_missing mapped servers)
            /\ MCPServerStatus.id entry = Runtime.id server)
    /\ (forall entry,
          In entry (include_missing mapped servers) ->
          In entry mapped
          \/ exists server,
               In server servers /\ entry = absent server
               /\ forall known,
                    In known mapped ->
                    MCPServerStatus.id known <> Runtime.id server).
Proof.
  induction servers as [| server servers IH]; intros mapped.
  - split; [auto |]. split; [intros server [] | auto].
  - rewrite include_missing_cons.
    set (mapped' := if existsb _ mapped then mapped else mapped ++ [absent server]).
    assert (Hsub : forall entry, In entry mapped -> In entry mapped').
    { intros entry Hentry. subst mapped'.
      destruct (existsb _ mapped); [exact Hentry |].
      apply in_or_app. now left. }
    destruct (IH mapped') as (Hkeep & Hcover & Horigin).
    split; [intros entry Hentry; apply Hkeep, Hsub, Hentry |]. split.
    + intros server' [<- | Hrest]; [| now apply Hcover].
      subst mapped'.
      destruct (existsb _ mapped) eqn:Hfound.
      * apply existsb_exists in Hfound as (known & Hknown & Heq).
        apply String.eqb_eq in Heq. exists known. split; [now apply Hkeep | exact Heq].
      * exists (absent server).
        split; [apply Hkeep, in_or_app; right; now left | reflexivity].
    + intros entry Hentry.
      destruct (Horigin entry Hentry) as [Hin | (server' & Hrest & -> & Hfresh)].
      * subst mapped'. destruct (existsb _ mapped) eqn:Hfound; [now left |].
        apply in_app_or in Hin as [Hin | [<- | []]]; [now left |].
        right. exists server. split; [now left |]. split; [reflexivity |].
        intros known Hknown Heq.
        assert (Hex : existsb
                        (fun s => String.eqb (MCPServerStatus.id s) (Runtime.id server))
                        mapped = true).
        { apply existsb_exists. exists known.
          split; [exact Hknown | now apply String.eqb_eq]. }
        rewrite Hex in Hfound. discriminate Hfound.
      * right. exists server'. split; [now right |]. split; [reflexivity |].
        intros known Hknown. apply Hfresh, Hsub, Hknown.
Qed.

Lemma known_id servers entry :
  bool_decide (MCPServerStatus.id entry
               ∈ (list_to_set (List.map Runtime.id servers) : gset string)) = true
  <-> exists server, In server servers /\ Runtime.id server = MCPServerStatus.id entry.
Proof.
  rewrite bool_decide_eq_true, elem_of_list_to_set, list_elem_of_In, in_map_iff.
  split; intros (server & H1 & H2); exists server; now split.
Qed.

(** X27.  The list of statuses that [refreshStatus] shows has an entry for
    every server of the application and only entries for such servers:
    statuses of the backend for unknown ids are dropped.  An entry is
    either a status of the backend or stands for a server the backend did
    not mention, which is shown as [disconnected].  [allConnected] is
    reported only when there is a server, no entry requires
    authorization, and the backend reports every server of the
    application as connected. *)
Theorem refreshStatus_statuses servers statuses :
  let shown := mappedStatuses servers statuses in
  (forall server,
     In server servers ->
     exists entry, In entry shown /\ MCPServerStatus.id entry = Runtime.id server)
  /\ (forall entry,
        In entry shown ->
        exists server,
          In server servers /\ Runtime.id server = MCPServerStatus.id entry)
  /\ (forall entry,
        In entry shown ->
        In entry statuses
        \/ (MCPServerStatus.status entry = disconnected
            /\ forall reported,
                 In reported statuses ->
                 MCPServerStatus.id reported <> MCPServerStatus.id entry))
  /\ (allConnected shown = true ->
      hasAuthRequired shown = false
      /\ servers <> []
      /\ forall server,
           In server servers ->
           exists reported,
             In reported statuses
             /\ MCPServerStatus.id reported = Runtime.id server
             /\ MCPServerStatus.status reported = connected).
Proof.
  intros shown. unfold mappedStatuses in shown.
  set (kept := List.filter _ statuses) in shown.
  destruct (include_missing_spec servers kept) as (Hkeep & Hcover & Horigin).
  fold shown in Hkeep, Hcover, Horigin.
  assert (Hknown : forall entry,
            In entry shown ->
            exists server,
              In server servers /\ Runtime.id server = MCPServerStatus.id entry).
  { intros entry Hentry.
    destruct (Horigin entry Hentry) as [Hin | (server & Hserver & -> & _)].
    - apply filter_In in Hin as [_ Hin]. now apply known_id in Hin.
    - exists server. now split. }
  assert (Hfrom : forall entry,
            In entry shown ->
            In entry statuses
            \/ (MCPServerStatus.status entry = disconnected
                /\ forall reported,
                     In reported statuses ->
                     MCPServerStatus.id reported <> MCPServerStatus.id entry)).
  { intros entry Hentry.
    destruct (Horigin entry Hentry) as [Hin | (server & Hserver & -> & Hfresh)].
    - left. now apply filter_In in Hin as [Hin _].
    - right. split; [reflexivity |]. intros reported Hreported Heq.
      apply (Hfresh reported); [| exact Heq].
      apply filter_In. split; [exact Hreported |].
      apply known_id. exists server. split; [exact Hserver |].
      symmetry. exact Heq. }
  split; [exact Hcover |]. split; [exact Hknown |]. split; [exact Hfrom |].
  unfold allConnected, hasAuthRequired.
  intros Hall. apply andb_prop in Hall as [Hsome Heach].
  rewrite forallb_forall in Heach.
  split; [| split].
  - destruct (existsb _ shown) eqn:Hauth; [| reflexivity].
    apply existsb_exists in Hauth as (entry & Hentry & Hstatus).
    specialize (Heach entry Hentry).
    destruct (MCPServerStatus.status entry); discriminate.
  - destruct shown as [| entry rest] eqn:Hshown; [discriminate Hsome |].
    destruct (Hknown entry (or_introl eq_refl)) as (server & Hserver & _).
    intros ->. destruct Hserver.
  - intros server Hserver.
    destruct (Hcover server Hserver) as (entry & Hentry & Hid).
    specialize (Heach entry Hentry).
    destruct (Hfrom entry Hentry) as [Hin | [Hstatus _]].
    + exists entry. split; [exact Hin |]. split; [exact Hid |].
      destruct (MCPServerStatus.status entry); try discriminate Heach. reflexivity.
    + rewrite Hstatus in Heach. discriminate Heach.
Qed.

Lemma refreshStatus_statuses_witness :
  (exists entry,
     In entry (mappedStatuses Fixtures.known_servers Fixtures.backend_statuses)
     /\ MCPServerStatus.id entry = "S3")
  /\ mappedStatuses Fixtures.known_servers Fixtures.backend_statuses
     = [ MCPServerStatus.mk "S1" "demo" connected None None (Some true);
         MCPServerStatus.mk "S3" "local" disconnected None None None ].
Proof.
  split; [| vm_compute; reflexivity].
  refine (proj1 (refreshStatus_statuses Fixtures.known_servers
                   Fixtures.backend_statuses) Scenarios.local_server _).
  right. left. reflexivity.
Defined.

End AuthSessionFacts.
